(** * The CTA strategy engine (vnpy_ctastrategy/engine.py, base.py)

    A shallow embedding of [CtaEngine]: its relationship maps, the local
    stop-order registry, the fault-isolating call wrapper and the event
    entry points, with the properties the engine's description states
    about them.

    Conventions.
    - Python [float] prices, volumes and positions are exact rationals [Q].
    - A Python object that is shared between containers (a strategy) lives
      in a store ([objects]); containers hold its index.
    - The engine's calls to its collaborators (the main engine, the event
      engine, the json files, the strategies' callbacks) are recorded, in
      order, in [trace].
    - A callback of a strategy is a function of the strategy and of the
      argument of the call: it gives the variables the strategy is left
      with and, when it raises, the traceback. Strategy code that calls the
      engine from inside a callback ([send_order], [cancel_order],
      [cancel_all], [load_bar]) is outside the model; what a strategy asks
      of the engine is a step of its own ([OpSendOrder], [OpCancelOrder],
      [OpCancelAll]). A statement of what an operation leaves as it was, or
      does not send, across a callback is about strategies whose callbacks
      change their own variables only.
    - An exception leaves the state as it was when it was raised: a
      computation returns a result ([Ok] or [Raise]) and the state. *)

From Stdlib Require Import QArith Ascii String.
From stdpp Require Import gmap strings list fin_maps pretty.

Open Scope string_scope.
Open Scope list_scope.

(** ** Constants of vnpy.trader.constant *)

Inductive Direction := LONG | SHORT | NET.

Inductive Offset := OFFSET_NONE | OPEN | CLOSE | CLOSETODAY | CLOSEYESTERDAY.

Inductive OrderType := LIMIT | MARKET | STOP | FAK | FOK | RFQ | ETF.

Module Status.
Inductive t := SUBMITTING | NOTTRADED | PARTTRADED | ALLTRADED | CANCELLED | REJECTED.
End Status.

(** ** base.py *)

Definition APP_NAME : string := "CtaStrategy".
Definition STOPORDER_PREFIX : string := "STOP".

Module StopOrderStatus.
Inductive t := WAITING | CANCELLED | TRIGGERED.
End StopOrderStatus.

Record StopOrder := {
  so_vt_symbol : string;
  so_direction : Direction;
  so_offset : Offset;
  so_price : Q;
  so_volume : Q;
  stop_orderid : string;
  so_strategy_name : string;
  so_datetime : Z;
  so_lock : bool;
  so_net : bool;
  so_vt_orderids : list string;
  so_status : StopOrderStatus.t
}.

(** [dataclass] defaults: lock and net false, no spawned ids, WAITING. *)
Definition mkStopOrder (vt_symbol : string) (direction : Direction) (offset : Offset)
    (price volume : Q) (stop_orderid strategy_name : string) (datetime : Z)
    (lock net : bool) : StopOrder :=
  {| so_vt_symbol := vt_symbol; so_direction := direction; so_offset := offset;
     so_price := price; so_volume := volume; stop_orderid := stop_orderid;
     so_strategy_name := strategy_name; so_datetime := datetime;
     so_lock := lock; so_net := net; so_vt_orderids := [];
     so_status := StopOrderStatus.WAITING |}.

(** [stop_order.status = ...; stop_order.vt_orderids = ...] *)
Definition so_set_status (s : StopOrderStatus.t) (so : StopOrder) : StopOrder :=
  {| so_vt_symbol := so_vt_symbol so; so_direction := so_direction so;
     so_offset := so_offset so; so_price := so_price so; so_volume := so_volume so;
     stop_orderid := stop_orderid so; so_strategy_name := so_strategy_name so;
     so_datetime := so_datetime so; so_lock := so_lock so; so_net := so_net so;
     so_vt_orderids := so_vt_orderids so; so_status := s |}.

Definition so_set_vt_orderids (ids : list string) (so : StopOrder) : StopOrder :=
  {| so_vt_symbol := so_vt_symbol so; so_direction := so_direction so;
     so_offset := so_offset so; so_price := so_price so; so_volume := so_volume so;
     stop_orderid := stop_orderid so; so_strategy_name := so_strategy_name so;
     so_datetime := so_datetime so; so_lock := so_lock so; so_net := so_net so;
     so_vt_orderids := ids; so_status := so_status so |}.

(** ** Objects of vnpy.trader.object, with the fields the engine reads *)

(** [limit_up] and [limit_down] are floats that default to 0 when the feed
    does not give them; [None] is allowed for as well. *)
Record TickData := {
  tick_vt_symbol : string;
  last_price : Q;
  limit_up : option Q;
  limit_down : option Q;
  ask_price_5 : Q;
  bid_price_5 : Q
}.

Record OrderData := {
  order_vt_orderid : string;
  order_vt_symbol : string;
  order_symbol : string;
  order_exchange : string;
  order_orderid : string;
  order_direction : Direction;
  order_offset : Offset;
  order_type : OrderType;
  order_price : Q;
  order_volume : Q;
  order_status : Status.t;
  order_datetime : Z;
  order_gateway_name : string
}.

Record TradeData := {
  vt_tradeid : string;
  trade_vt_orderid : string;
  trade_direction : Direction;
  trade_volume : Q
}.

Record ContractData := {
  contract_symbol : string;
  contract_exchange : string;
  contract_gateway_name : string;
  pricetick : Q;
  min_volume : Q;
  stop_supported : bool
}.

Record OrderRequest := {
  req_symbol : string;
  req_exchange : string;
  req_direction : Direction;
  req_offset : Offset;
  req_type : OrderType;
  req_price : Q;
  req_volume : Q;
  req_reference : string
}.

Record CancelRequest := {
  cancel_orderid : string;
  cancel_symbol : string;
  cancel_exchange : string
}.

Record SubscribeRequest := {
  sub_symbol : string;
  sub_exchange : string
}.

(** [OrderData.is_active]: the status is one of vnpy's ACTIVE_STATUSES. *)
Definition is_active (order : OrderData) : bool :=
  match order_status order with
  | Status.SUBMITTING | Status.NOTTRADED | Status.PARTTRADED => true
  | _ => false
  end.

(** [OrderData.create_cancel_request] *)
Definition create_cancel_request (order : OrderData) : CancelRequest :=
  {| cancel_orderid := order_orderid order; cancel_symbol := order_symbol order;
     cancel_exchange := order_exchange order |}.

(** ** engine.py: STOP_STATUS_MAP *)

Definition STOP_STATUS_MAP (s : Status.t) : StopOrderStatus.t :=
  match s with
  | Status.SUBMITTING => StopOrderStatus.WAITING
  | Status.NOTTRADED => StopOrderStatus.WAITING
  | Status.PARTTRADED => StopOrderStatus.TRIGGERED
  | Status.ALLTRADED => StopOrderStatus.TRIGGERED
  | Status.CANCELLED => StopOrderStatus.CANCELLED
  | Status.REJECTED => StopOrderStatus.CANCELLED
  end.

(** ** Strategies *)

(** Modelled from the spec: the strategy object (template.py, the class
    CtaTemplate, is not among the sources). The engine reads and writes
    its name, instrument, the [inited] and [trading] flags, the position
    accumulator and the declared persisted variables ([variables] names
    them, [values] holds those other than [pos]). *)
Record Strategy := {
  strategy_name : string;
  vt_symbol : string;
  class_name : string;
  parameters : gmap string Q;
  inited : bool;
  trading : bool;
  pos : Q;
  variables : list string;
  values : gmap string Q
}.

Definition set_inited (b : bool) (s : Strategy) : Strategy :=
  {| strategy_name := strategy_name s; vt_symbol := vt_symbol s;
     class_name := class_name s; parameters := parameters s;
     inited := b; trading := trading s; pos := pos s;
     variables := variables s; values := values s |}.

Definition set_trading (b : bool) (s : Strategy) : Strategy :=
  {| strategy_name := strategy_name s; vt_symbol := vt_symbol s;
     class_name := class_name s; parameters := parameters s;
     inited := inited s; trading := b; pos := pos s;
     variables := variables s; values := values s |}.

Definition set_pos (p : Q) (s : Strategy) : Strategy :=
  {| strategy_name := strategy_name s; vt_symbol := vt_symbol s;
     class_name := class_name s; parameters := parameters s;
     inited := inited s; trading := trading s; pos := p;
     variables := variables s; values := values s |}.

Definition set_values (v : gmap string Q) (s : Strategy) : Strategy :=
  {| strategy_name := strategy_name s; vt_symbol := vt_symbol s;
     class_name := class_name s; parameters := parameters s;
     inited := inited s; trading := trading s; pos := pos s;
     variables := variables s; values := v |}.

Definition set_parameters (p : gmap string Q) (s : Strategy) : Strategy :=
  {| strategy_name := strategy_name s; vt_symbol := vt_symbol s;
     class_name := class_name s; parameters := p;
     inited := inited s; trading := trading s; pos := pos s;
     variables := variables s; values := values s |}.

(** What a loaded strategy class declares. *)
Record StrategyClass := {
  cls_variables : list string
}.

(** Modelled from the spec: the constructor of a strategy class
    (template.py is not among the sources): a new strategy is neither
    initialized nor trading and holds no position. *)
Definition new_strategy (cls : StrategyClass) (cname sname symbol : string)
    (setting : gmap string Q) : Strategy :=
  {| strategy_name := sname; vt_symbol := symbol; class_name := cname;
     parameters := setting; inited := false; trading := false; pos := 0%Q;
     variables := cls_variables cls; values := ∅ |}.

(** Modelled from the spec: [setattr(strategy, name, value)] for a
    persisted variable. *)
Definition setattr (name : string) (value : Q) (s : Strategy) : Strategy :=
  if decide (name = "pos") then set_pos value s
  else set_values (<[name := value]> (values s)) s.

Definition getattr (s : Strategy) (name : string) : Q :=
  if decide (name = "pos") then pos s else default 0%Q (values s !! name).

(** Modelled from the spec: [get_variables()] without the two status
    flags, which [sync_strategy_data] pops before saving. *)
Definition get_variables (s : Strategy) : gmap string Q :=
  list_to_map ((λ name, (name, getattr s name)) <$> variables s).

(** The strategy's callbacks with their argument. *)
Inductive Call :=
  | on_init
  | on_start
  | on_stop
  | on_tick (tick : TickData)
  | on_order (order : OrderData)
  | on_trade (trade : TradeData)
  | on_stop_order (so : StopOrder).

(** What a callback did: the variables it left, and the traceback when it
    raised. A callback does not reach the engine: see the conventions. *)
Record Outcome := {
  new_values : gmap string Q;
  raised : option string
}.

(** ** What the engine sends out *)

Inductive LogText :=
  | LogCancelNoOrder (vt_orderid : string)
  | LogSendNoContract (vt_symbol : string)
  | LogException (traceback : string)
  | LogAddDuplicate (strategy_name : string)
  | LogAddNoClass (class_name : string)
  | LogAddNoSuffix
  | LogAddBadSuffix
  | LogAlreadyInited (strategy_name : string)
  | LogInitStart (strategy_name : string)
  | LogSubscribeNoContract (vt_symbol : string)
  | LogInitDone (strategy_name : string)
  | LogStartNotInited (strategy_name : string)
  | LogAlreadyStarted (strategy_name : string)
  | LogRemoveTrading (strategy_name : string)
  | LogRemoveDone (strategy_name : string).

(** [LogData]: the message, and the name of the strategy it is tagged with. *)
Record LogData := {
  log_strategy : option string;
  log_msg : LogText
}.

(** An entry of strategy_setting. *)
Record StrategyConfig := {
  cfg_class_name : string;
  cfg_vt_symbol : string;
  cfg_setting : gmap string Q
}.

Inductive Event :=
  | EVENT_CTA_LOG (log : LogData)
  | EVENT_CTA_STRATEGY (data : Strategy)
  | EVENT_CTA_STOPORDER (stop_order : StopOrder).

Inductive Effect :=
  | Called (strategy : nat) (c : Call)
  | Put (e : Event)
  | ConvertOrderRequest (req : OrderRequest) (gateway_name : string) (lock net : bool)
  | SendOrder (req : OrderRequest) (gateway_name : string) (vt_orderid : string)
  | UpdateOrderRequest (req : OrderRequest) (vt_orderid gateway_name : string)
  | CancelOrder (req : CancelRequest) (gateway_name : string)
  | Subscribe (req : SubscribeRequest) (gateway_name : string)
  | SaveSetting (setting : gmap string StrategyConfig)
  | SaveData (data : gmap string (gmap string Q)).

Definition is_stop_order_event (e : Effect) : bool :=
  match e with Put (EVENT_CTA_STOPORDER _) => true | _ => false end.

Definition is_log_event (e : Effect) : bool :=
  match e with Put (EVENT_CTA_LOG _) => true | _ => false end.

Definition is_strategy_event (e : Effect) : bool :=
  match e with Put (EVENT_CTA_STRATEGY _) => true | _ => false end.

Definition is_called (e : Effect) : bool :=
  match e with Called _ _ => true | _ => false end.

Definition is_save (e : Effect) : bool :=
  match e with SaveSetting _ | SaveData _ => true | _ => false end.

(** ** The collaborators *)

(** What the engine asks of the world around it within one operation: the
    members of vnpy's Exchange enumeration, [round_to], the main engine's
    contract and order tables and its offset converter, the clock, and the
    code of the strategies. *)
Record Env := {
  exchange_members : list string;
  round_to : Q → Q → Q;
  get_contract : string → option ContractData;
  get_order : string → option OrderData;
  convert_order_request : OrderRequest → string → bool → bool → list OrderRequest;
  now : nat → Z;
  callback : Strategy → Call → Outcome
}.

(** ** The engine state *)

Record CtaEngine := {
  strategy_setting : gmap string StrategyConfig;
  strategy_data : gmap string (gmap string Q);
  classes : gmap string StrategyClass;
  strategies : gmap string nat;
  symbol_strategy_map : gmap string (list nat);
  orderid_strategy_map : gmap string nat;
  strategy_orderid_map : gmap string (gset string);
  stop_order_count : nat;
  stop_orders : list (string * StopOrder);
  vt_tradeids : gset string;
  (* the strategy objects the maps above refer to *)
  objects : list Strategy;
  (* the answers the gateway gives to the coming submissions, the empty
     string for a refusal *)
  gateway_replies : list string;
  (* everything sent out so far, oldest first *)
  trace : list Effect
}.

(** Assignments to one attribute of the state. *)

Definition with_strategy_setting (v : gmap string StrategyConfig) (st : CtaEngine) : CtaEngine :=
  {| strategy_setting := v;
     strategy_data := strategy_data st;
     classes := classes st;
     strategies := strategies st;
     symbol_strategy_map := symbol_strategy_map st;
     orderid_strategy_map := orderid_strategy_map st;
     strategy_orderid_map := strategy_orderid_map st;
     stop_order_count := stop_order_count st;
     stop_orders := stop_orders st;
     vt_tradeids := vt_tradeids st;
     objects := objects st;
     gateway_replies := gateway_replies st;
     trace := trace st |}.

Definition with_strategy_data (v : gmap string (gmap string Q)) (st : CtaEngine) : CtaEngine :=
  {| strategy_setting := strategy_setting st;
     strategy_data := v;
     classes := classes st;
     strategies := strategies st;
     symbol_strategy_map := symbol_strategy_map st;
     orderid_strategy_map := orderid_strategy_map st;
     strategy_orderid_map := strategy_orderid_map st;
     stop_order_count := stop_order_count st;
     stop_orders := stop_orders st;
     vt_tradeids := vt_tradeids st;
     objects := objects st;
     gateway_replies := gateway_replies st;
     trace := trace st |}.

Definition with_strategies (v : gmap string nat) (st : CtaEngine) : CtaEngine :=
  {| strategy_setting := strategy_setting st;
     strategy_data := strategy_data st;
     classes := classes st;
     strategies := v;
     symbol_strategy_map := symbol_strategy_map st;
     orderid_strategy_map := orderid_strategy_map st;
     strategy_orderid_map := strategy_orderid_map st;
     stop_order_count := stop_order_count st;
     stop_orders := stop_orders st;
     vt_tradeids := vt_tradeids st;
     objects := objects st;
     gateway_replies := gateway_replies st;
     trace := trace st |}.

Definition with_symbol_strategy_map (v : gmap string (list nat)) (st : CtaEngine) : CtaEngine :=
  {| strategy_setting := strategy_setting st;
     strategy_data := strategy_data st;
     classes := classes st;
     strategies := strategies st;
     symbol_strategy_map := v;
     orderid_strategy_map := orderid_strategy_map st;
     strategy_orderid_map := strategy_orderid_map st;
     stop_order_count := stop_order_count st;
     stop_orders := stop_orders st;
     vt_tradeids := vt_tradeids st;
     objects := objects st;
     gateway_replies := gateway_replies st;
     trace := trace st |}.

Definition with_orderid_strategy_map (v : gmap string nat) (st : CtaEngine) : CtaEngine :=
  {| strategy_setting := strategy_setting st;
     strategy_data := strategy_data st;
     classes := classes st;
     strategies := strategies st;
     symbol_strategy_map := symbol_strategy_map st;
     orderid_strategy_map := v;
     strategy_orderid_map := strategy_orderid_map st;
     stop_order_count := stop_order_count st;
     stop_orders := stop_orders st;
     vt_tradeids := vt_tradeids st;
     objects := objects st;
     gateway_replies := gateway_replies st;
     trace := trace st |}.

Definition with_strategy_orderid_map (v : gmap string (gset string)) (st : CtaEngine) : CtaEngine :=
  {| strategy_setting := strategy_setting st;
     strategy_data := strategy_data st;
     classes := classes st;
     strategies := strategies st;
     symbol_strategy_map := symbol_strategy_map st;
     orderid_strategy_map := orderid_strategy_map st;
     strategy_orderid_map := v;
     stop_order_count := stop_order_count st;
     stop_orders := stop_orders st;
     vt_tradeids := vt_tradeids st;
     objects := objects st;
     gateway_replies := gateway_replies st;
     trace := trace st |}.

Definition with_stop_order_count (v : nat) (st : CtaEngine) : CtaEngine :=
  {| strategy_setting := strategy_setting st;
     strategy_data := strategy_data st;
     classes := classes st;
     strategies := strategies st;
     symbol_strategy_map := symbol_strategy_map st;
     orderid_strategy_map := orderid_strategy_map st;
     strategy_orderid_map := strategy_orderid_map st;
     stop_order_count := v;
     stop_orders := stop_orders st;
     vt_tradeids := vt_tradeids st;
     objects := objects st;
     gateway_replies := gateway_replies st;
     trace := trace st |}.

Definition with_stop_orders (v : list (string * StopOrder)) (st : CtaEngine) : CtaEngine :=
  {| strategy_setting := strategy_setting st;
     strategy_data := strategy_data st;
     classes := classes st;
     strategies := strategies st;
     symbol_strategy_map := symbol_strategy_map st;
     orderid_strategy_map := orderid_strategy_map st;
     strategy_orderid_map := strategy_orderid_map st;
     stop_order_count := stop_order_count st;
     stop_orders := v;
     vt_tradeids := vt_tradeids st;
     objects := objects st;
     gateway_replies := gateway_replies st;
     trace := trace st |}.

Definition with_vt_tradeids (v : gset string) (st : CtaEngine) : CtaEngine :=
  {| strategy_setting := strategy_setting st;
     strategy_data := strategy_data st;
     classes := classes st;
     strategies := strategies st;
     symbol_strategy_map := symbol_strategy_map st;
     orderid_strategy_map := orderid_strategy_map st;
     strategy_orderid_map := strategy_orderid_map st;
     stop_order_count := stop_order_count st;
     stop_orders := stop_orders st;
     vt_tradeids := v;
     objects := objects st;
     gateway_replies := gateway_replies st;
     trace := trace st |}.

Definition with_objects (v : list Strategy) (st : CtaEngine) : CtaEngine :=
  {| strategy_setting := strategy_setting st;
     strategy_data := strategy_data st;
     classes := classes st;
     strategies := strategies st;
     symbol_strategy_map := symbol_strategy_map st;
     orderid_strategy_map := orderid_strategy_map st;
     strategy_orderid_map := strategy_orderid_map st;
     stop_order_count := stop_order_count st;
     stop_orders := stop_orders st;
     vt_tradeids := vt_tradeids st;
     objects := v;
     gateway_replies := gateway_replies st;
     trace := trace st |}.

Definition with_gateway_replies (v : list string) (st : CtaEngine) : CtaEngine :=
  {| strategy_setting := strategy_setting st;
     strategy_data := strategy_data st;
     classes := classes st;
     strategies := strategies st;
     symbol_strategy_map := symbol_strategy_map st;
     orderid_strategy_map := orderid_strategy_map st;
     strategy_orderid_map := strategy_orderid_map st;
     stop_order_count := stop_order_count st;
     stop_orders := stop_orders st;
     vt_tradeids := vt_tradeids st;
     objects := objects st;
     gateway_replies := v;
     trace := trace st |}.

Definition with_trace (v : list Effect) (st : CtaEngine) : CtaEngine :=
  {| strategy_setting := strategy_setting st;
     strategy_data := strategy_data st;
     classes := classes st;
     strategies := strategies st;
     symbol_strategy_map := symbol_strategy_map st;
     orderid_strategy_map := orderid_strategy_map st;
     strategy_orderid_map := strategy_orderid_map st;
     stop_order_count := stop_order_count st;
     stop_orders := stop_orders st;
     vt_tradeids := vt_tradeids st;
     objects := objects st;
     gateway_replies := gateway_replies st;
     trace := v |}.

(** ** Computations on the state that may raise *)

(** The Python exceptions the engine's own code can raise. [LostObject]
    stands for a reference to no object; the engine hands out references
    to objects it has stored only. *)
Inductive Exn := KeyError | ValueError | AttributeError | LostObject.

Inductive Res (A : Type) :=
  | Ok (a : A)
  | Raise (e : Exn).
Arguments Ok {A} a.
Arguments Raise {A} e.

Definition M (A : Type) : Type := CtaEngine → Res A * CtaEngine.

Definition ret {A} (a : A) : M A := λ st, (Ok a, st).

Definition raise {A} (e : Exn) : M A := λ st, (Raise e, st).

Definition bind {A B} (m : M A) (k : A → M B) : M B :=
  λ st, match m st with
        | (Ok a, st') => k a st'
        | (Raise e, st') => (Raise e, st')
        end.

Definition get : M CtaEngine := λ st, (Ok st, st).

Definition modify (f : CtaEngine → CtaEngine) : M unit := λ st, (Ok tt, f st).

Notation "x <- m ;; k" := (bind m (λ x, k))
  (at level 100, m at next level, right associativity).
Notation "m ;; k" := (bind m (λ _, k))
  (at level 100, right associativity).

(** [for x in l: body(x)] *)
Fixpoint for_each {A} (l : list A) (body : A → M unit) : M unit :=
  match l with
  | [] => ret tt
  | x :: l' => body x ;; for_each l' body
  end.

(** ** Python containers *)

(** A [dict] whose iteration order matters: keys in insertion order. *)
Fixpoint dict_get {V} (k : string) (d : list (string * V)) : option V :=
  match d with
  | [] => None
  | (k', v) :: d' => if decide (k = k') then Some v else dict_get k d'
  end.

Fixpoint dict_set {V} (k : string) (v : V) (d : list (string * V)) : list (string * V) :=
  match d with
  | [] => [(k, v)]
  | (k', v') :: d' =>
      if decide (k = k') then (k, v) :: d' else (k', v') :: dict_set k v d'
  end.

Fixpoint dict_pop {V} (k : string) (d : list (string * V)) : list (string * V) :=
  match d with
  | [] => []
  | (k', v') :: d' => if decide (k = k') then d' else (k', v') :: dict_pop k d'
  end.

Definition dict_values {V} (d : list (string * V)) : list V := d.*2.

(** [list.remove(x)]: drops the first occurrence, [None] when there is none
    (Python raises ValueError). *)
Fixpoint list_remove (x : nat) (l : list nat) : option (list nat) :=
  match l with
  | [] => None
  | y :: l' => if decide (x = y) then Some l' else cons y <$> list_remove x l'
  end.

(** [c in s] for a one-character string [c]. *)
Fixpoint str_contains (c : Ascii.ascii) (s : string) : bool :=
  match s with
  | EmptyString => false
  | String a s' => Ascii.eqb a c || str_contains c s'
  end.

(** [s.split(c)] for a one-character separator [c]. *)
Fixpoint str_split (c : Ascii.ascii) (s : string) : list string :=
  match s with
  | EmptyString => [""]
  | String a s' =>
      if Ascii.eqb a c then "" :: str_split c s'
      else match str_split c s' with
           | [] => [String a ""]
           | h :: t => String a h :: t
           end
  end.

(** Truth value of a float that may be None. *)
Definition truthy (x : option Q) : bool :=
  match x with
  | Some q => negb (Qeq_bool q 0)
  | None => false
  end.

(** The float taken from a truthy [x]. *)
Definition float_of (x : option Q) : Q := default 0%Q x.

(** ** CtaEngine *)

Section Engine.

Variable E : Env.

(** *** Access to the state *)

Definition emit (e : Effect) : M unit :=
  modify (λ st, with_trace (trace st ++ [e]) st).

(** The object a reference points to. *)
Definition deref (r : nat) : M Strategy :=
  λ st, match objects st !! r with
        | Some s => (Ok s, st)
        | None => (Raise LostObject, st)
        end.

(** An assignment to attributes of the object [r]. *)
Definition update_object (r : nat) (f : Strategy → Strategy) : M unit :=
  modify (λ st, with_objects (alter f r (objects st)) st).

(** [self.strategies[strategy_name]] *)
Definition strategies_getitem (name : string) : M nat :=
  λ st, match strategies st !! name with
        | Some r => (Ok r, st)
        | None => (Raise KeyError, st)
        end.

(** [self.symbol_strategy_map[vt_symbol]]: a defaultdict(list), which
    stores the empty list under a key it is asked for and does not hold. *)
Definition symbol_strategy_map_getitem (symbol : string) : M (list nat) :=
  λ st, match symbol_strategy_map st !! symbol with
        | Some l => (Ok l, st)
        | None =>
            (Ok [], with_symbol_strategy_map (<[symbol := []]> (symbol_strategy_map st)) st)
        end.

(** [self.strategy_orderid_map[strategy_name]]: a defaultdict(set). *)
Definition strategy_orderid_map_getitem (name : string) : M (gset string) :=
  λ st, match strategy_orderid_map st !! name with
        | Some ids => (Ok ids, st)
        | None =>
            (Ok ∅, with_strategy_orderid_map (<[name := ∅]> (strategy_orderid_map st)) st)
        end.

(** The set stored under [name] after an [add] or [remove] on it. *)
Definition strategy_orderid_map_store (name : string) (ids : gset string) : M unit :=
  modify (λ st, with_strategy_orderid_map (<[name := ids]> (strategy_orderid_map st)) st).

(** [self.main_engine.send_order(req, gateway_name)]: the gateway's next
    answer; none left is a refusal. *)
Definition main_engine_send_order (req : OrderRequest) (gateway_name : string) : M string :=
  λ st, match gateway_replies st with
        | [] => (Ok "", with_trace (trace st ++ [SendOrder req gateway_name ""]) st)
        | id :: rest =>
            (Ok id, with_trace (trace st ++ [SendOrder req gateway_name id])
                      (with_gateway_replies rest st))
        end.

(** *** Notifications *)

Definition write_log (msg : LogText) (strategy : option nat) : M unit :=
  match strategy with
  | Some r =>
      s <- deref r ;;
      emit (Put (EVENT_CTA_LOG {| log_strategy := Some (strategy_name s); log_msg := msg |}))
  | None =>
      emit (Put (EVENT_CTA_LOG {| log_strategy := None; log_msg := msg |}))
  end.

Definition put_stop_order_event (stop_order : StopOrder) : M unit :=
  emit (Put (EVENT_CTA_STOPORDER stop_order)).

Definition put_strategy_event (strategy : nat) : M unit :=
  s <- deref strategy ;;
  emit (Put (EVENT_CTA_STRATEGY s)).

(** *** call_strategy_func *)

Definition call_strategy_func (strategy : nat) (func : Call) : M unit :=
  s <- deref strategy ;;
  emit (Called strategy func) ;;
  let out := callback E s func in
  update_object strategy (set_values (new_values out)) ;;
  match raised out with
  | None => ret tt
  | Some traceback =>
      update_object strategy (set_trading false) ;;
      update_object strategy (set_inited false) ;;
      write_log (LogException traceback) (Some strategy)
  end.

(** *** Persistence *)

Definition sync_strategy_data (strategy : nat) : M unit :=
  s <- deref strategy ;;
  let data := get_variables s in
  modify (λ st, with_strategy_data (<[strategy_name s := data]> (strategy_data st)) st) ;;
  st <- get ;;
  emit (SaveData (strategy_data st)).

Definition update_strategy_setting (name : string) (setting : gmap string Q) : M unit :=
  r <- strategies_getitem name ;;
  s <- deref r ;;
  modify (λ st, with_strategy_setting
                  (<[name := {| cfg_class_name := class_name s;
                                cfg_vt_symbol := vt_symbol s;
                                cfg_setting := setting |}]> (strategy_setting st)) st) ;;
  st <- get ;;
  emit (SaveSetting (strategy_setting st)).

Definition remove_strategy_setting (name : string) : M unit :=
  st <- get ;;
  match strategy_setting st !! name with
  | None => ret tt
  | Some _ =>
      modify (λ st, with_strategy_setting (delete name (strategy_setting st)) st) ;;
      st1 <- get ;;
      emit (SaveSetting (strategy_setting st1)) ;;
      modify (λ st, with_strategy_data (delete name (strategy_data st)) st) ;;
      st2 <- get ;;
      emit (SaveData (strategy_data st2))
  end.

(** *** Sending orders *)

(** The loop of [send_server_order] over the converted requests,
    [vt_orderids] being the ids collected so far. *)
Fixpoint send_requests (strategy : nat) (name gateway_name : string)
    (reqs : list OrderRequest) (vt_orderids : list string) : M (list string) :=
  match reqs with
  | [] => ret vt_orderids
  | req :: reqs' =>
      vt_orderid <- main_engine_send_order req gateway_name ;;
      if decide (vt_orderid = "") then
        send_requests strategy name gateway_name reqs' vt_orderids
      else
        emit (UpdateOrderRequest req vt_orderid gateway_name) ;;
        modify (λ st, with_orderid_strategy_map
                        (<[vt_orderid := strategy]> (orderid_strategy_map st)) st) ;;
        ids <- strategy_orderid_map_getitem name ;;
        strategy_orderid_map_store name (ids ∪ {[vt_orderid]}) ;;
        send_requests strategy name gateway_name reqs' (vt_orderids ++ [vt_orderid])
  end.

(** [contract] is None when [check_stop_order] finds no contract for the
    instrument: reading its symbol then raises AttributeError. *)
Definition send_server_order (strategy : nat) (contract : option ContractData)
    (direction : Direction) (offset : Offset) (price volume : Q)
    (type : OrderType) (lock net : bool) : M (list string) :=
  match contract with
  | None => raise AttributeError
  | Some contract =>
      s <- deref strategy ;;
      let original_req :=
        {| req_symbol := contract_symbol contract;
           req_exchange := contract_exchange contract;
           req_direction := direction; req_offset := offset; req_type := type;
           req_price := price; req_volume := volume;
           req_reference := APP_NAME +:+ "_" +:+ strategy_name s |} in
      emit (ConvertOrderRequest original_req (contract_gateway_name contract) lock net) ;;
      let req_list :=
        convert_order_request E original_req (contract_gateway_name contract) lock net in
      send_requests strategy (strategy_name s) (contract_gateway_name contract) req_list []
  end.

Definition send_limit_order (strategy : nat) (contract : option ContractData)
    (direction : Direction) (offset : Offset) (price volume : Q)
    (lock net : bool) : M (list string) :=
  send_server_order strategy contract direction offset price volume LIMIT lock net.

Definition send_server_stop_order (strategy : nat) (contract : option ContractData)
    (direction : Direction) (offset : Offset) (price volume : Q)
    (lock net : bool) : M (list string) :=
  send_server_order strategy contract direction offset price volume STOP lock net.

Definition send_local_stop_order (strategy : nat) (direction : Direction)
    (offset : Offset) (price volume : Q) (lock net : bool) : M (list string) :=
  modify (λ st, with_stop_order_count (S (stop_order_count st)) st) ;;
  st <- get ;;
  let stop_orderid := STOPORDER_PREFIX +:+ "." +:+ pretty (stop_order_count st) in
  s <- deref strategy ;;
  let stop_order :=
    mkStopOrder (vt_symbol s) direction offset price volume stop_orderid
      (strategy_name s) (now E (length (trace st))) lock net in
  modify (λ st, with_stop_orders (dict_set stop_orderid stop_order (stop_orders st)) st) ;;
  vt_orderids <- strategy_orderid_map_getitem (strategy_name s) ;;
  strategy_orderid_map_store (strategy_name s) (vt_orderids ∪ {[stop_orderid]}) ;;
  call_strategy_func strategy (on_stop_order stop_order) ;;
  put_stop_order_event stop_order ;;
  ret [stop_orderid].

Definition send_order (strategy : nat) (direction : Direction) (offset : Offset)
    (price volume : Q) (stop lock net : bool) : M (list string) :=
  s <- deref strategy ;;
  match get_contract E (vt_symbol s) with
  | None =>
      write_log (LogSendNoContract (vt_symbol s)) (Some strategy) ;;
      ret []
  | Some contract =>
      let price := round_to E price (pricetick contract) in
      let volume := round_to E volume (min_volume contract) in
      if stop then
        if stop_supported contract then
          send_server_stop_order strategy (Some contract) direction offset price volume lock net
        else
          send_local_stop_order strategy direction offset price volume lock net
      else
        send_limit_order strategy (Some contract) direction offset price volume lock net
  end.

(** *** Cancelling orders *)

Definition cancel_server_order (strategy : nat) (vt_orderid : string) : M unit :=
  match get_order E vt_orderid with
  | None => write_log (LogCancelNoOrder vt_orderid) (Some strategy)
  | Some order =>
      emit (CancelOrder (create_cancel_request order) (order_gateway_name order))
  end.

Definition cancel_local_stop_order (strategy : nat) (stop_orderid : string) : M unit :=
  st <- get ;;
  match dict_get stop_orderid (stop_orders st) with
  | None => ret tt
  | Some stop_order =>
      strategy <- strategies_getitem (so_strategy_name stop_order) ;;
      modify (λ st, with_stop_orders (dict_pop stop_orderid (stop_orders st)) st) ;;
      s <- deref strategy ;;
      vt_orderids <- strategy_orderid_map_getitem (strategy_name s) ;;
      (if decide (stop_orderid ∈ vt_orderids)
       then strategy_orderid_map_store (strategy_name s) (vt_orderids ∖ {[stop_orderid]})
       else ret tt) ;;
      let stop_order := so_set_status StopOrderStatus.CANCELLED stop_order in
      call_strategy_func strategy (on_stop_order stop_order) ;;
      put_stop_order_event stop_order
  end.

Definition cancel_order (strategy : nat) (vt_orderid : string) : M unit :=
  if String.prefix STOPORDER_PREFIX vt_orderid
  then cancel_local_stop_order strategy vt_orderid
  else cancel_server_order strategy vt_orderid.

Definition cancel_all (strategy : nat) : M unit :=
  s <- deref strategy ;;
  vt_orderids <- strategy_orderid_map_getitem (strategy_name s) ;;
  if decide (vt_orderids = ∅) then ret tt
  else for_each (elements vt_orderids) (λ vt_orderid, cancel_order strategy vt_orderid).

(** *** check_stop_order *)

Definition long_triggered (stop_order : StopOrder) (tick : TickData) : bool :=
  match so_direction stop_order with
  | LONG => Qle_bool (so_price stop_order) (last_price tick)
  | _ => false
  end.

Definition short_triggered (stop_order : StopOrder) (tick : TickData) : bool :=
  match so_direction stop_order with
  | SHORT => Qle_bool (last_price tick) (so_price stop_order)
  | _ => false
  end.

(** The price of the order a triggered stop order is turned into: the
    limit price if available, otherwise ask_price_5 or bid_price_5. *)
Definition execution_price (stop_order : StopOrder) (tick : TickData) : Q :=
  match so_direction stop_order with
  | LONG => if truthy (limit_up tick) then float_of (limit_up tick)
            else ask_price_5 tick
  | _ => if truthy (limit_down tick) then float_of (limit_down tick)
         else bid_price_5 tick
  end.

(** The body of the loop of [check_stop_order], for one stop order of the
    snapshot. *)
Definition check_one_stop_order (tick : TickData) (stop_order : StopOrder) : M unit :=
  if negb (String.eqb (so_vt_symbol stop_order) (tick_vt_symbol tick)) then ret tt
  else if long_triggered stop_order tick || short_triggered stop_order tick then
    strategy <- strategies_getitem (so_strategy_name stop_order) ;;
    let price := execution_price stop_order tick in
    let contract := get_contract E (so_vt_symbol stop_order) in
    vt_orderids <- send_limit_order strategy contract (so_direction stop_order)
                     (so_offset stop_order) price (so_volume stop_order)
                     (so_lock stop_order) (so_net stop_order) ;;
    match vt_orderids with
    | [] => ret tt
    | _ :: _ =>
        st <- get ;;
        match dict_get (stop_orderid stop_order) (stop_orders st) with
        | None => raise KeyError
        | Some _ =>
            modify (λ st, with_stop_orders
                            (dict_pop (stop_orderid stop_order) (stop_orders st)) st) ;;
            s <- deref strategy ;;
            strategy_vt_orderids <- strategy_orderid_map_getitem (strategy_name s) ;;
            (if decide (stop_orderid stop_order ∈ strategy_vt_orderids)
             then strategy_orderid_map_store (strategy_name s)
                    (strategy_vt_orderids ∖ {[stop_orderid stop_order]})
             else ret tt) ;;
            let stop_order :=
              so_set_vt_orderids vt_orderids
                (so_set_status StopOrderStatus.TRIGGERED stop_order) in
            call_strategy_func strategy (on_stop_order stop_order) ;;
            put_stop_order_event stop_order
        end
    end
  else ret tt.

Definition check_stop_order (tick : TickData) : M unit :=
  st <- get ;;
  for_each (dict_values (stop_orders st)) (check_one_stop_order tick).

(** *** The event entry points *)

Definition process_tick_event (tick : TickData) : M unit :=
  strategies <- symbol_strategy_map_getitem (tick_vt_symbol tick) ;;
  match strategies with
  | [] => ret tt
  | _ :: _ =>
      check_stop_order tick ;;
      for_each strategies (λ strategy,
        s <- deref strategy ;;
        if inited s then call_strategy_func strategy (on_tick tick) else ret tt)
  end.

Definition process_order_event (order : OrderData) : M unit :=
  st <- get ;;
  match orderid_strategy_map st !! order_vt_orderid order with
  | None => ret tt
  | Some strategy =>
      s <- deref strategy ;;
      vt_orderids <- strategy_orderid_map_getitem (strategy_name s) ;;
      (if bool_decide (order_vt_orderid order ∈ vt_orderids) && negb (is_active order)
       then strategy_orderid_map_store (strategy_name s)
              (vt_orderids ∖ {[order_vt_orderid order]})
       else ret tt) ;;
      (match order_type order with
       | STOP =>
           let so :=
             {| so_vt_symbol := order_vt_symbol order;
                so_direction := order_direction order;
                so_offset := order_offset order;
                so_price := order_price order;
                so_volume := order_volume order;
                stop_orderid := order_vt_orderid order;
                so_strategy_name := strategy_name s;
                so_datetime := order_datetime order;
                so_lock := false; so_net := false;
                so_vt_orderids := [order_vt_orderid order];
                so_status := STOP_STATUS_MAP (order_status order) |} in
           call_strategy_func strategy (on_stop_order so)
       | _ => ret tt
       end) ;;
      call_strategy_func strategy (on_order order)
  end.

Definition process_trade_event (trade : TradeData) : M unit :=
  st <- get ;;
  if decide (vt_tradeid trade ∈ vt_tradeids st) then ret tt
  else
    modify (λ st, with_vt_tradeids (vt_tradeids st ∪ {[vt_tradeid trade]}) st) ;;
    st <- get ;;
    match orderid_strategy_map st !! trade_vt_orderid trade with
    | None => ret tt
    | Some strategy =>
        (match trade_direction trade with
         | LONG => update_object strategy (λ s, set_pos (pos s + trade_volume trade)%Q s)
         | _ => update_object strategy (λ s, set_pos (pos s - trade_volume trade)%Q s)
         end) ;;
        call_strategy_func strategy (on_trade trade) ;;
        sync_strategy_data strategy ;;
        put_strategy_event strategy
    end.

(** *** The life of a strategy *)

Definition add_strategy (class_name strategy_name vt_symbol : string)
    (setting : gmap string Q) : M unit :=
  st <- get ;;
  if decide (is_Some (strategies st !! strategy_name)) then
    write_log (LogAddDuplicate strategy_name) None
  else
    match classes st !! class_name with
    | None => write_log (LogAddNoClass class_name) None
    | Some strategy_class =>
        if negb (str_contains "."%char vt_symbol) then write_log LogAddNoSuffix None
        else
          match str_split "."%char vt_symbol with
          | [_; exchange_str] =>
              if negb (bool_decide (exchange_str ∈ exchange_members E)) then
                write_log LogAddBadSuffix None
              else
                let strategy := length (objects st) in
                modify (λ st, with_objects
                                (objects st ++ [new_strategy strategy_class class_name
                                                  strategy_name vt_symbol setting]) st) ;;
                modify (λ st, with_strategies
                                (<[strategy_name := strategy]> (strategies st)) st) ;;
                subscribed <- symbol_strategy_map_getitem vt_symbol ;;
                modify (λ st, with_symbol_strategy_map
                                (<[vt_symbol := subscribed ++ [strategy]]>
                                   (symbol_strategy_map st)) st) ;;
                update_strategy_setting strategy_name setting ;;
                put_strategy_event strategy
          | _ => raise ValueError
          end
    end.

Definition _init_strategy (name : string) : M unit :=
  strategy <- strategies_getitem name ;;
  s <- deref strategy ;;
  if inited s then write_log (LogAlreadyInited name) None
  else
    write_log (LogInitStart name) None ;;
    call_strategy_func strategy on_init ;;
    st <- get ;;
    (match strategy_data st !! name with
     | None => ret tt
     | Some data =>
         if decide (data = ∅) then ret tt
         else for_each (variables s) (λ name,
                match data !! name with
                | None => ret tt
                | Some value => update_object strategy (setattr name value)
                end)
     end) ;;
    (match get_contract E (vt_symbol s) with
     | Some contract =>
         emit (Subscribe {| sub_symbol := contract_symbol contract;
                            sub_exchange := contract_exchange contract |}
                 (contract_gateway_name contract))
     | None => write_log (LogSubscribeNoContract (vt_symbol s)) (Some strategy)
     end) ;;
    update_object strategy (set_inited true) ;;
    put_strategy_event strategy ;;
    write_log (LogInitDone name) None.

Definition start_strategy (name : string) : M unit :=
  strategy <- strategies_getitem name ;;
  s <- deref strategy ;;
  if negb (inited s) then write_log (LogStartNotInited (strategy_name s)) None
  else if trading s then write_log (LogAlreadyStarted name) None
  else
    call_strategy_func strategy on_start ;;
    update_object strategy (set_trading true) ;;
    put_strategy_event strategy.

Definition stop_strategy (name : string) : M unit :=
  strategy <- strategies_getitem name ;;
  s <- deref strategy ;;
  if negb (trading s) then ret tt
  else
    call_strategy_func strategy on_stop ;;
    update_object strategy (set_trading false) ;;
    cancel_all strategy ;;
    sync_strategy_data strategy ;;
    put_strategy_event strategy.

(** Modelled from the spec: [strategy.update_setting(setting)] applies
    the new parameter values (template.py is not among the sources). *)
Definition edit_strategy (name : string) (setting : gmap string Q) : M unit :=
  strategy <- strategies_getitem name ;;
  update_object strategy (λ s, set_parameters (setting ∪ parameters s) s) ;;
  update_strategy_setting name setting ;;
  put_strategy_event strategy.

Definition remove_strategy (name : string) : M bool :=
  strategy <- strategies_getitem name ;;
  s <- deref strategy ;;
  if trading s then
    write_log (LogRemoveTrading (strategy_name s)) None ;;
    ret false
  else
    remove_strategy_setting name ;;
    subscribed <- symbol_strategy_map_getitem (vt_symbol s) ;;
    match list_remove strategy subscribed with
    | None => raise ValueError
    | Some subscribed' =>
        modify (λ st, with_symbol_strategy_map
                        (<[vt_symbol s := subscribed']> (symbol_strategy_map st)) st) ;;
        st <- get ;;
        (match strategy_orderid_map st !! name with
         | None => ret tt
         | Some vt_orderids =>
             modify (λ st, with_strategy_orderid_map
                             (delete name (strategy_orderid_map st)) st) ;;
             for_each (elements vt_orderids) (λ vt_orderid,
               st <- get ;;
               if decide (is_Some (orderid_strategy_map st !! vt_orderid)) then
                 modify (λ st, with_orderid_strategy_map
                                 (delete vt_orderid (orderid_strategy_map st)) st)
               else ret tt)
         end) ;;
        modify (λ st, with_strategies (delete name (strategies st)) st) ;;
        write_log (LogRemoveDone (strategy_name s)) None ;;
        ret true
    end.

End Engine.

(** ** The engine's operations as steps

    What can happen to an engine: an event arrives, a strategy (the
    object [strategy]) sends or cancels orders, or a strategy is added,
    initialized, started, stopped, edited or removed. The collaborators
    may answer differently at every step. *)

Inductive Op :=
  | OpTick (tick : TickData)
  | OpOrder (order : OrderData)
  | OpTrade (trade : TradeData)
  | OpSendOrder (strategy : nat) (direction : Direction) (offset : Offset)
      (price volume : Q) (stop lock net : bool)
  | OpCancelOrder (strategy : nat) (vt_orderid : string)
  | OpCancelAll (strategy : nat)
  | OpAdd (class_name strategy_name vt_symbol : string) (setting : gmap string Q)
  | OpInit (strategy_name : string)
  | OpStart (strategy_name : string)
  | OpStop (strategy_name : string)
  | OpEdit (strategy_name : string) (setting : gmap string Q)
  | OpRemove (strategy_name : string).

(** The state an operation leaves, whether it returned or raised. *)
Definition exec (E : Env) (op : Op) (st : CtaEngine) : CtaEngine :=
  match op with
  | OpTick tick => snd (process_tick_event E tick st)
  | OpOrder order => snd (process_order_event E order st)
  | OpTrade trade => snd (process_trade_event E trade st)
  | OpSendOrder strategy direction offset price volume stop lock net =>
      snd (send_order E strategy direction offset price volume stop lock net st)
  | OpCancelOrder strategy vt_orderid => snd (cancel_order E strategy vt_orderid st)
  | OpCancelAll strategy => snd (cancel_all E strategy st)
  | OpAdd class_name strategy_name vt_symbol setting =>
      snd (add_strategy E class_name strategy_name vt_symbol setting st)
  | OpInit name => snd (_init_strategy E name st)
  | OpStart name => snd (start_strategy E name st)
  | OpStop name => snd (stop_strategy E name st)
  | OpEdit name setting => snd (edit_strategy name setting st)
  | OpRemove name => snd (remove_strategy name st)
  end.

(** A run: operations, each with the collaborators of its moment. *)
Definition run (steps : list (Env * Op)) (st : CtaEngine) : CtaEngine :=
  foldl (λ st step, exec step.1 step.2 st) st steps.

(** A new engine: empty maps, the loaded classes, and whatever the
    gateway is going to answer. *)
Definition new_engine (classes : gmap string StrategyClass) (replies : list string) : CtaEngine :=
  {| strategy_setting := ∅; strategy_data := ∅; classes := classes;
     strategies := ∅; symbol_strategy_map := ∅; orderid_strategy_map := ∅;
     strategy_orderid_map := ∅; stop_order_count := 0; stop_orders := [];
     vt_tradeids := ∅; objects := []; gateway_replies := replies; trace := [] |}.

(** ** Operations on the whole collection, and the stored settings *)

Section Collection.

Variable E : Env.

(** [for strategy_name in self.strategies.keys():
         self.start_strategy(strategy_name)]
    [keys] is [self.strategies.keys()]: the names of the collection in the
    order of the dict, which [strategies] does not record. *)
Definition start_all_strategies (keys : list string) : M unit :=
  for_each keys (start_strategy E).

Definition stop_all_strategies (keys : list string) : M unit :=
  for_each keys (stop_strategy E).

Definition close (keys : list string) : M unit :=
  stop_all_strategies keys.

(** [file] is the dict that [load_json(self.setting_filename)] returns, as
    the list of its items. *)
Definition load_strategy_setting (file : list (string * StrategyConfig)) : M unit :=
  modify (with_strategy_setting (list_to_map file)) ;;
  for_each file (λ item,
    let strategy_name := item.1 in
    let strategy_config := item.2 in
    add_strategy E (cfg_class_name strategy_config) strategy_name
      (cfg_vt_symbol strategy_config) (cfg_setting strategy_config)).

(** [file] is what [load_json(self.data_filename)] returns. *)
Definition load_strategy_data (file : gmap string (gmap string Q)) : M unit :=
  modify (with_strategy_data file).

End Collection.

(** * Notions the statements use *)

(** ** Computations *)

(** [m] leaves the part [f] of the state as it was, whatever it returns. *)
Definition preserves {A B} (f : CtaEngine → B) (m : M A) : Prop :=
  ∀ st, f (snd (m st)) = f st.

(** [m] takes every state to one related to it by [R], whatever it
    returns. *)
Definition stable {A} (R : relation CtaEngine) (m : M A) : Prop :=
  ∀ st, R st (snd (m st)).

(** [I] goes from the state before to the state after. *)
Definition carried (I : CtaEngine → Prop) : relation CtaEngine :=
  λ st st', I st → I st'.

(** What has been sent out is still there, in its order. *)
Definition trace_grows : relation CtaEngine :=
  λ st st', ∃ evs, trace st' = trace st ++ evs.

(** The registry of stop orders has only lost entries. *)
Definition registry_within : relation CtaEngine :=
  λ st0 st,
    NoDup (stop_orders st0).*1 →
    NoDup (stop_orders st).*1
    ∧ ∀ id so, dict_get id (stop_orders st) = Some so →
               dict_get id (stop_orders st0) = Some so.

(** What sending an order may change: the two order-id maps, the
    gateway's coming answers and the trace. *)
Definition same_but_links (st st' : CtaEngine) : Prop :=
  st' = with_trace (trace st')
          (with_gateway_replies (gateway_replies st')
             (with_orderid_strategy_map (orderid_strategy_map st')
                (with_strategy_orderid_map (strategy_orderid_map st') st))).

(** ** What is sent out *)

(** A log that is tagged with no strategy. *)
Definition log_of (msg : LogText) : Effect :=
  Put (EVENT_CTA_LOG {| log_strategy := None; log_msg := msg |}).

(** The log [call_strategy_func] writes for the strategy [s]. *)
Definition exception_log (s : Strategy) (traceback : string) : Effect :=
  Put (EVENT_CTA_LOG {| log_strategy := Some (strategy_name s);
                        log_msg := LogException traceback |}).

(** The stop orders put on the event engine as EVENT_CTA_STOPORDER, in
    their order. *)
Definition stop_order_events (tr : list Effect) : list StopOrder :=
  omap (λ e, match e with Put (EVENT_CTA_STOPORDER so) => Some so | _ => None end) tr.

(** The request [send_server_order] builds and hands to the offset
    converter. *)
Definition original_request (contract : ContractData) (s : Strategy)
    (direction : Direction) (offset : Offset) (price volume : Q) (type : OrderType)
    : OrderRequest :=
  {| req_symbol := contract_symbol contract;
     req_exchange := contract_exchange contract;
     req_direction := direction; req_offset := offset; req_type := type;
     req_price := price; req_volume := volume;
     req_reference := APP_NAME +:+ "_" +:+ strategy_name s |}.

(** ** Stop orders *)

(** The condition under which a stop order is to trigger on a tick. *)
Definition stop_triggered (so : StopOrder) (tick : TickData) : Prop :=
  (so_direction so = LONG ∧ (so_price so <= last_price tick)%Q)
  ∨ (so_direction so = SHORT ∧ (last_price tick <= so_price so)%Q).

(** A limit price of a tick is known, and is [p], when it is given and is
    not 0; it is unknown when it is None or 0. *)
Definition known (x : option Q) (p : Q) : Prop := x = Some p ∧ ¬ (p == 0)%Q.

Definition unknown (x : option Q) : Prop := x = None ∨ ∃ p, x = Some p ∧ (p == 0)%Q.

(** The stop order as [check_stop_order] leaves it once it has triggered. *)
Definition triggered_stop_order (so : StopOrder) (vt_orderids : list string) : StopOrder :=
  so_set_vt_orderids vt_orderids (so_set_status StopOrderStatus.TRIGGERED so).

(** [vt_orderid.startswith(STOPORDER_PREFIX)] *)
Definition is_stop_id (id : string) : bool := String.prefix STOPORDER_PREFIX id.

(** The id of the [k]-th local stop order. *)
Definition stop_id (k : nat) : string := STOPORDER_PREFIX +:+ "." +:+ pretty k.

(** ** The order-id maps *)

(** What the loop of [remove_strategy] over the active ids leaves of the
    order-id-to-strategy map. *)
Definition forget_orderids (ids : list string) (m : gmap string nat) : gmap string nat :=
  foldl (λ m id, delete id m) m ids.

(** The name of the strategy object [r]. *)
Definition name_of (st : CtaEngine) (r : nat) : option string :=
  strategy_name <$> objects st !! r.

(** The id is attributed to the strategy name: the order-id-to-strategy
    map gives a strategy object of that name for it, or it is the id of a
    local stop order of that name in the registry. *)
Definition attributed (st : CtaEngine) (name id : string) : Prop :=
  (∃ r, orderid_strategy_map st !! id = Some r ∧ name_of st r = Some name)
  ∨ (∃ so, dict_get id (stop_orders st) = Some so ∧ so_strategy_name so = name).

(** Every active id of every strategy name is attributed to that name. *)
Definition links_ok (st : CtaEngine) : Prop :=
  ∀ name ids id,
    strategy_orderid_map st !! name = Some ids → id ∈ ids → attributed st name id.

(** What the gateway is going to answer: the ids are different from one
    another and none starts with the prefix of the local stop orders. *)
Definition gateway_ok (replies : list string) : Prop :=
  NoDup (filter (λ id, id ≠ "") replies)
  ∧ ∀ id, id ∈ replies → is_stop_id id = false.

(** The invariant of the engine that [links_ok] is part of: the strategy
    collection names each strategy object by its own name; the registry
    holds each stop order once, under its own id, which is [stop_id k] for
    a [k] up to the count of stop orders; no id of the
    order-id-to-strategy map has the prefix of the stop orders; and the
    ids the gateway has yet to give are new to both order-id maps. *)
Definition engine_inv (st : CtaEngine) : Prop :=
  (∀ n r, strategies st !! n = Some r → name_of st r = Some n)
  ∧ links_ok st
  ∧ NoDup (stop_orders st).*1
  ∧ (∀ id so, dict_get id (stop_orders st) = Some so →
              stop_orderid so = id
              ∧ ∃ k, id = stop_id k ∧ (k ≤ stop_order_count st)%nat)
  ∧ (∀ id, is_Some (orderid_strategy_map st !! id) → is_stop_id id = false)
  ∧ gateway_ok (gateway_replies st)
  ∧ (∀ id, id ∈ gateway_replies st → id ≠ "" →
           orderid_strategy_map st !! id = None
           ∧ ∀ n ids, strategy_orderid_map st !! n = Some ids → id ∉ ids).

(** ** What an operation sends out, by kind *)

(** The callbacks called, with the strategy object they were called on. *)
Definition calls (tr : list Effect) : list (nat * Call) :=
  omap (λ e, match e with Called r c => Some (r, c) | _ => None end) tr.

(** What went to the main engine: conversions, orders, cancellations and
    subscriptions. *)
Definition to_main_engine (e : Effect) : bool :=
  match e with
  | ConvertOrderRequest _ _ _ _ | SendOrder _ _ _ | UpdateOrderRequest _ _ _
  | CancelOrder _ _ | Subscribe _ _ => true
  | _ => false
  end.

(** The orders handed to [main_engine.send_order], with their gateway. *)
Definition sent_orders (tr : list Effect) : list (OrderRequest * string) :=
  omap (λ e, match e with SendOrder req gw _ => Some (req, gw) | _ => None end) tr.

(** The log that is tagged with the strategy [s]. *)
Definition strategy_log (s : Strategy) (msg : LogText) : Effect :=
  Put (EVENT_CTA_LOG {| log_strategy := Some (strategy_name s); log_msg := msg |}).

(** ** Strategies *)

(** The strategy object [r] is there and is not trading. *)
Definition not_trading (r : nat) (st : CtaEngine) : Prop :=
  ∃ s, objects st !! r = Some s ∧ trading s = false.

(** The active ids of a strategy name: the set the map holds for it, none
    when it holds no set. *)
Definition active_ids (st : CtaEngine) (name : string) : gset string :=
  default ∅ (strategy_orderid_map st !! name).

(** The state [add_strategy] leaves when it accepts the request: the new
    strategy object [s] is stored, registered under its name, appended to
    the list of its instrument, and its configuration is in the settings,
    which are saved. *)
Definition strategy_added (name symbol : string) (s : Strategy) (config : StrategyConfig)
    (st : CtaEngine) : CtaEngine :=
  let r := length (objects st) in
  let settings := <[name := config]> (strategy_setting st) in
  with_trace (trace st ++ [SaveSetting settings; Put (EVENT_CTA_STRATEGY s)])
    (with_strategy_setting settings
       (with_symbol_strategy_map
          (<[symbol := default [] (symbol_strategy_map st !! symbol) ++ [r]]>
             (symbol_strategy_map st))
          (with_strategies (<[name := r]> (strategies st))
             (with_objects (objects st ++ [s]) st)))).

(** The collection, the lists of the instruments and the settings agree:
    a strategy of the collection carries the name it is registered under,
    is in the list of its instrument and has its configuration in the
    settings; the list of an instrument holds strategies of the
    collection for that instrument, each once. *)
Definition subscriptions_ok (st : CtaEngine) : Prop :=
  (∀ n r, strategies st !! n = Some r →
     ∃ s, objects st !! r = Some s ∧ strategy_name s = n
          ∧ r ∈ default [] (symbol_strategy_map st !! vt_symbol s)
          ∧ is_Some (strategy_setting st !! n))
  ∧ (∀ symbol l, symbol_strategy_map st !! symbol = Some l →
       NoDup l
       ∧ ∀ r, r ∈ l →
           ∃ s, objects st !! r = Some s ∧ vt_symbol s = symbol
                ∧ strategies st !! strategy_name s = Some r).

(** The strategy object [r] is there and is initialized. *)
Definition is_inited (st : CtaEngine) (r : nat) : bool :=
  match objects st !! r with
  | Some s => inited s
  | None => false
  end.

(** The tick leaves the stop order alone: it is for another instrument,
    or its condition is not met. *)
Definition idle (tick : TickData) (so : StopOrder) : Prop :=
  so_vt_symbol so ≠ tick_vt_symbol tick ∨ ¬ stop_triggered so tick.

(** The stop order [process_order_event] hands to [on_stop_order] for an
    order of type STOP of the strategy [s]. *)
Definition server_stop_order (order : OrderData) (s : Strategy) : StopOrder :=
  {| so_vt_symbol := order_vt_symbol order;
     so_direction := order_direction order;
     so_offset := order_offset order;
     so_price := order_price order;
     so_volume := order_volume order;
     stop_orderid := order_vt_orderid order;
     so_strategy_name := strategy_name s;
     so_datetime := order_datetime order;
     so_lock := false; so_net := false;
     so_vt_orderids := [order_vt_orderid order];
     so_status := STOP_STATUS_MAP (order_status order) |}.

(** What the loop of [_init_strategy] over the variables of a strategy
    makes of it: every variable that the saved data has a value for is
    set to that value. *)
Definition restore (data : gmap string Q) (names : list string) (s : Strategy) : Strategy :=
  foldl (λ s name, match data !! name with
                   | Some value => setattr name value s
                   | None => s
                   end) s names.

(** The subscription [_init_strategy] asks for. *)
Definition subscription (contract : ContractData) : Effect :=
  Subscribe {| sub_symbol := contract_symbol contract;
               sub_exchange := contract_exchange contract |}
    (contract_gateway_name contract).

(** A configuration [add_strategy] accepts: its class is loaded, and its
    instrument identifier has two parts, the second an exchange. *)
Definition acceptable (E : Env) (classes : gmap string StrategyClass)
    (config : StrategyConfig) : Prop :=
  is_Some (classes !! cfg_class_name config)
  ∧ ∃ prefix suffix,
      str_split "." (cfg_vt_symbol config) = [prefix; suffix]
      ∧ suffix ∈ exchange_members E.

(** The strategy [add_strategy] makes of a configuration. *)
Definition strategy_of (classes : gmap string StrategyClass) (name : string)
    (config : StrategyConfig) : option Strategy :=
  cls ← classes !! cfg_class_name config;
  Some (new_strategy cls (cfg_class_name config) name (cfg_vt_symbol config)
          (cfg_setting config)).

(** ** The registry of stop orders *)

(** A stop order as the registry holds it: waiting, with no order sent
    for it. *)
Definition waiting (so : StopOrder) : Prop :=
  so_status so = StopOrderStatus.WAITING ∧ so_vt_orderids so = [].

Definition registry_waiting (st : CtaEngine) : Prop :=
  Forall (λ item, waiting item.2) (stop_orders st).

(** The ids of the trades among the operations. *)
Definition trade_ids (steps : list (Env * Op)) : gset string :=
  list_to_set (omap (λ step, match step.2 with
                             | OpTrade trade => Some (vt_tradeid trade)
                             | _ => None
                             end) steps).

(** * A scenario: the strategy "s1" on the instrument "X.E" *)

Definition demo_contract : ContractData :=
  {| contract_symbol := "X"; contract_exchange := "E";
     contract_gateway_name := "GW"; pricetick := 1; min_volume := 1;
     stop_supported := false |}.

(** Collaborators that know the contract of "X.E" and no order, convert a
    request into itself, and whose strategies return from every callback,
    or raise in every callback when [faulty]. *)
Definition demo_env (faulty : bool) : Env :=
  {| exchange_members := ["E"; "SSE"];
     round_to := λ value _, value;
     get_contract := λ symbol, if decide (symbol = "X.E") then Some demo_contract else None;
     get_order := λ _, None;
     convert_order_request := λ req _ _ _, [req];
     now := λ n, Z.of_nat n;
     callback := λ s _,
       {| new_values := values s;
          raised := if faulty then Some "Traceback" else None |} |}.

Definition demo_classes : gmap string StrategyClass :=
  {[ "StratA" := {| cls_variables := ["pos"] |} ]}.

(** The engine with "s1" added and initialized, not started. *)
Definition demo_inited_engine : CtaEngine :=
  run [(demo_env false, OpAdd "StratA" "s1" "X.E" ∅);
       (demo_env false, OpInit "s1")]
    (new_engine demo_classes ["GW.1"; "GW.2"]).

(** The engine with "s1" added, initialized and started, whose gateway
    will answer "GW.1" and then "GW.2". *)
Definition demo_engine : CtaEngine :=
  run [(demo_env false, OpAdd "StratA" "s1" "X.E" ∅);
       (demo_env false, OpInit "s1");
       (demo_env false, OpStart "s1")]
    (new_engine demo_classes ["GW.1"; "GW.2"]).

(** The strategy object of [demo_engine]. *)
Definition demo_strategy : Strategy :=
  set_trading true (set_inited true
    (new_strategy {| cls_variables := ["pos"] |} "StratA" "s1" "X.E" ∅)).

Definition demo_trade : TradeData :=
  {| vt_tradeid := "GW.t1"; trade_vt_orderid := "GW.1";
     trade_direction := LONG; trade_volume := 1 |}.

Definition demo_tick : TickData :=
  {| tick_vt_symbol := "X.E"; last_price := 100; limit_up := None;
     limit_down := None; ask_price_5 := 100.5; bid_price_5 := 99.5 |}.

Definition demo_filled_order : OrderData :=
  {| order_vt_orderid := "GW.1"; order_vt_symbol := "X.E"; order_symbol := "X";
     order_exchange := "E"; order_orderid := "1"; order_direction := LONG;
     order_offset := OPEN; order_type := LIMIT; order_price := 100;
     order_volume := 1; order_status := Status.ALLTRADED; order_datetime := 0;
     order_gateway_name := "GW" |}.

(** The engine of [demo_engine] after its strategy sent a limit order,
    the order was reported filled, and the strategy was stopped. *)
Definition demo_stopped_engine : CtaEngine :=
  run [(demo_env false, OpSendOrder 0 LONG OPEN 100 1 false false false);
       (demo_env false, OpOrder demo_filled_order);
       (demo_env false, OpStop "s1")]
    demo_engine.

(** The steps to an engine whose strategy has placed a long stop order at
    100 for a volume of 1, which the engine keeps as the local stop order
    "STOP.1". *)
Definition demo_steps : list (Env * Op) :=
  [(demo_env false, OpAdd "StratA" "s1" "X.E" ∅);
   (demo_env false, OpInit "s1");
   (demo_env false, OpStart "s1");
   (demo_env false, OpSendOrder 0 LONG OPEN 100 1 true false false)].

Definition demo_stop_engine : CtaEngine :=
  run [(demo_env false, OpSendOrder 0 LONG OPEN 100 1 true false false)] demo_engine.

Definition demo_stop_order : StopOrder :=
  mkStopOrder "X.E" LONG OPEN 100 1 "STOP.1" "s1" 9 false false.

(** The same, with a gateway that refuses the first order it is sent. *)
Definition demo_refused_engine : CtaEngine :=
  run demo_steps (new_engine demo_classes [""; "GW.1"]).

(** Collaborators that know no contract. *)
Definition demo_env_no_contract : Env :=
  {| exchange_members := ["E"; "SSE"];
     round_to := λ value _, value;
     get_contract := λ _, None;
     get_order := λ _, None;
     convert_order_request := λ req _ _ _, [req];
     now := λ n, Z.of_nat n;
     callback := λ s _, {| new_values := values s; raised := None |} |}.

(** The strategy "s1" places a local stop order and is removed; "s2" is
    added for the same instrument. The stop order of "s1" is still in the
    registry. *)
Definition demo_orphan_steps : list (Env * Op) :=
  [(demo_env false, OpAdd "StratA" "s1" "X.E" ∅);
   (demo_env false, OpSendOrder 0 LONG OPEN 100 1 true false false);
   (demo_env false, OpRemove "s1");
   (demo_env false, OpAdd "StratA" "s2" "X.E" ∅)].

Definition demo_orphan_engine : CtaEngine :=
  run demo_orphan_steps (new_engine demo_classes []).

Definition demo_orphan_order : StopOrder :=
  mkStopOrder "X.E" LONG OPEN 100 1 "STOP.1" "s1" 2 false false.

(** After that, "s2" is initialized and started and places a stop order
    of its own, "STOP.2": long, at 100, volume 1. *)
Definition demo_blocked_steps : list (Env * Op) :=
  demo_orphan_steps
  ++ [(demo_env false, OpInit "s2");
      (demo_env false, OpStart "s2");
      (demo_env false, OpSendOrder 1 LONG OPEN 100 1 true false false)].

Definition demo_blocked_engine : CtaEngine :=
  run demo_blocked_steps (new_engine demo_classes ["GW.1"]).

Definition demo_blocked_order : StopOrder :=
  mkStopOrder "X.E" LONG OPEN 100 1 "STOP.2" "s2" 16 false false.

(** The strategy object of "s2" in [demo_blocked_engine]. *)
Definition demo_second_strategy : Strategy :=
  set_trading true (set_inited true
    (new_strategy {| cls_variables := ["pos"] |} "StratA" "s2" "X.E" ∅)).

(** The strategy object of "s1" when it has been added, and when it has
    been initialized. *)
Definition demo_new_strategy : Strategy :=
  new_strategy {| cls_variables := ["pos"] |} "StratA" "s1" "X.E" ∅.

Definition demo_inited_strategy : Strategy := set_inited true demo_new_strategy.

(** The engine with "s1" added, not initialized. *)
Definition demo_added_engine : CtaEngine :=
  run [(demo_env false, OpAdd "StratA" "s1" "X.E" ∅)]
    (new_engine demo_classes ["GW.1"; "GW.2"]).

(** The engine of [demo_engine] after its strategy sent a limit order,
    which the gateway named "GW.1". *)
Definition demo_order_engine : CtaEngine :=
  run [(demo_env false, OpSendOrder 0 LONG OPEN 100 1 false false false)] demo_engine.

(** A tick below the price of the stop order of the scenario. *)
Definition demo_low_tick : TickData :=
  {| tick_vt_symbol := "X.E"; last_price := 99; limit_up := None;
     limit_down := None; ask_price_5 := 99.5; bid_price_5 := 98.5 |}.

Definition demo_config : StrategyConfig :=
  {| cfg_class_name := "StratA"; cfg_vt_symbol := "X.E"; cfg_setting := ∅ |}.

(** The steps to [demo_engine]. *)
Definition demo_start_steps : list (Env * Op) :=
  [(demo_env false, OpAdd "StratA" "s1" "X.E" ∅);
   (demo_env false, OpInit "s1");
   (demo_env false, OpStart "s1")].

(** Data saved for "s1", and the engine of [demo_added_engine] that has
    loaded it. *)
Definition demo_saved_data : gmap string (gmap string Q) :=
  {[ "s1" := {[ "pos" := 5%Q ]} ]}.

Definition demo_saved_engine : CtaEngine :=
  snd (load_strategy_data demo_saved_data demo_added_engine).

(** * Reasoning about computations *)

Lemma preserves_ret {A B} (f : CtaEngine → B) (a : A) : preserves f (ret a).
Proof. intros st. reflexivity. Qed.

Lemma preserves_raise {A B} (f : CtaEngine → B) (e : Exn) : preserves f (@raise A e).
Proof. intros st. reflexivity. Qed.

Lemma preserves_get {B} (f : CtaEngine → B) : preserves f get.
Proof. intros st. reflexivity. Qed.

Lemma preserves_bind {A A' B} (f : CtaEngine → B) (m : M A) (k : A → M A') :
  preserves f m → (∀ a, preserves f (k a)) → preserves f (bind m k).
Proof.
  intros Hm Hk st. unfold bind. specialize (Hm st).
  destruct (m st) as [[a|e] st']; simpl in *.
  - rewrite Hk. exact Hm.
  - exact Hm.
Qed.

Lemma preserves_for_each {A B} (f : CtaEngine → B) (l : list A) (body : A → M unit) :
  (∀ x, preserves f (body x)) → preserves f (for_each l body).
Proof.
  intros Hbody. induction l as [|x l IH]; simpl.
  - apply preserves_ret.
  - apply preserves_bind; auto.
Qed.

Create HintDb frame.

(** One step of a proof that a computation leaves a part of the state
    alone: split a sequence, a loop or a branch, or settle a primitive by
    unfolding it. *)
Ltac frame_prim :=
  let st := fresh "st" in
  intros st;
  cbv [emit deref update_object strategies_getitem symbol_strategy_map_getitem
       strategy_orderid_map_getitem strategy_orderid_map_store
       main_engine_send_order modify get ret raise];
  repeat case_match; reflexivity.

Ltac frame_step :=
  lazymatch goal with
  | |- preserves _ (bind _ _) => apply preserves_bind; [| intros ?]
  | |- preserves _ (ret _) => apply preserves_ret
  | |- preserves _ (raise _) => apply preserves_raise
  | |- preserves _ get => apply preserves_get
  | |- preserves _ (for_each _ _) => apply preserves_for_each; intros ?
  | |- preserves _ (match ?x with _ => _ end) => destruct x
  | |- preserves _ (let _ := _ in _) => cbv zeta
  | |- preserves _ _ => first [ solve [auto with frame] | frame_prim ]
  end.

Ltac frame := repeat frame_step.

(** ** The set of seen trade ids

    It is touched by [process_trade_event] alone. *)

Lemma write_log_tradeids msg strategy : preserves vt_tradeids (write_log msg strategy).
Proof. unfold write_log. frame. Qed.
#[local] Hint Resolve write_log_tradeids : frame.

Lemma put_strategy_event_tradeids r : preserves vt_tradeids (put_strategy_event r).
Proof. unfold put_strategy_event. frame. Qed.
#[local] Hint Resolve put_strategy_event_tradeids : frame.

Lemma call_strategy_func_tradeids E r c : preserves vt_tradeids (call_strategy_func E r c).
Proof. unfold call_strategy_func. frame. Qed.
#[local] Hint Resolve call_strategy_func_tradeids : frame.

Lemma sync_strategy_data_tradeids r : preserves vt_tradeids (sync_strategy_data r).
Proof. unfold sync_strategy_data. frame. Qed.
#[local] Hint Resolve sync_strategy_data_tradeids : frame.

Lemma send_requests_tradeids strategy name gw reqs acc :
  preserves vt_tradeids (send_requests strategy name gw reqs acc).
Proof.
  revert acc. induction reqs as [|req reqs IH]; intros acc; simpl; frame.
Qed.
#[local] Hint Resolve send_requests_tradeids : frame.

Lemma send_server_order_tradeids E strategy contract direction offset price volume type lock net :
  preserves vt_tradeids
    (send_server_order E strategy contract direction offset price volume type lock net).
Proof. unfold send_server_order. frame. Qed.
#[local] Hint Resolve send_server_order_tradeids : frame.

Lemma send_local_stop_order_tradeids E strategy direction offset price volume lock net :
  preserves vt_tradeids
    (send_local_stop_order E strategy direction offset price volume lock net).
Proof. unfold send_local_stop_order, put_stop_order_event. frame. Qed.
#[local] Hint Resolve send_local_stop_order_tradeids : frame.

Lemma send_order_tradeids E strategy direction offset price volume stop lock net :
  preserves vt_tradeids (send_order E strategy direction offset price volume stop lock net).
Proof.
  unfold send_order, send_server_stop_order, send_limit_order. frame.
Qed.

Lemma cancel_order_tradeids E strategy vt_orderid :
  preserves vt_tradeids (cancel_order E strategy vt_orderid).
Proof.
  unfold cancel_order, cancel_local_stop_order, cancel_server_order,
    put_stop_order_event. frame.
Qed.
#[local] Hint Resolve cancel_order_tradeids : frame.

Lemma cancel_all_tradeids E strategy : preserves vt_tradeids (cancel_all E strategy).
Proof. unfold cancel_all. frame. Qed.
#[local] Hint Resolve cancel_all_tradeids : frame.

Lemma check_one_stop_order_tradeids E tick so :
  preserves vt_tradeids (check_one_stop_order E tick so).
Proof.
  unfold check_one_stop_order, send_limit_order, put_stop_order_event. frame.
Qed.
#[local] Hint Resolve check_one_stop_order_tradeids : frame.

Lemma process_tick_event_tradeids E tick : preserves vt_tradeids (process_tick_event E tick).
Proof. unfold process_tick_event, check_stop_order. frame. Qed.

Lemma process_order_event_tradeids E order :
  preserves vt_tradeids (process_order_event E order).
Proof. unfold process_order_event. frame. Qed.

Lemma update_strategy_setting_tradeids name setting :
  preserves vt_tradeids (update_strategy_setting name setting).
Proof. unfold update_strategy_setting. frame. Qed.
#[local] Hint Resolve update_strategy_setting_tradeids : frame.

Lemma add_strategy_tradeids E class_name strategy_name vt_symbol setting :
  preserves vt_tradeids (add_strategy E class_name strategy_name vt_symbol setting).
Proof. unfold add_strategy. frame. Qed.

Lemma init_strategy_tradeids E name : preserves vt_tradeids (_init_strategy E name).
Proof. unfold _init_strategy. frame. Qed.

Lemma start_strategy_tradeids E name : preserves vt_tradeids (start_strategy E name).
Proof. unfold start_strategy. frame. Qed.

Lemma stop_strategy_tradeids E name : preserves vt_tradeids (stop_strategy E name).
Proof. unfold stop_strategy. frame. Qed.

Lemma edit_strategy_tradeids name setting : preserves vt_tradeids (edit_strategy name setting).
Proof. unfold edit_strategy. frame. Qed.

Lemma remove_strategy_tradeids name : preserves vt_tradeids (remove_strategy name).
Proof. unfold remove_strategy, remove_strategy_setting. frame. Qed.

(** What [process_trade_event] does to the set: it adds the trade's id. *)
Lemma process_trade_event_tradeids E trade st :
  vt_tradeids (snd (process_trade_event E trade st))
  = vt_tradeids st ∪ {[vt_tradeid trade]}.
Proof.
  unfold process_trade_event. unfold bind at 1. simpl.
  destruct (decide (vt_tradeid trade ∈ vt_tradeids st)) as [Hin|Hnin]; simpl.
  - set_solver.
  - unfold bind at 1. simpl. unfold bind at 1. simpl.
    match goal with
    | |- vt_tradeids (snd (?m ?st')) = _ =>
        assert (Hp : preserves vt_tradeids m) by frame; rewrite (Hp st')
    end.
    reflexivity.
Qed.

(** No operation takes an id out of the set of seen trade ids. *)
Lemma exec_keeps_tradeids E op st : vt_tradeids st ⊆ vt_tradeids (exec E op st).
Proof.
  destruct op; simpl;
    try (rewrite process_trade_event_tradeids; set_solver);
    match goal with
    | |- _ ⊆ vt_tradeids (snd (?m st)) =>
        assert (Hp : preserves vt_tradeids m)
          by eauto using process_tick_event_tradeids, process_order_event_tradeids,
               send_order_tradeids, cancel_order_tradeids, cancel_all_tradeids,
               add_strategy_tradeids, init_strategy_tradeids, start_strategy_tradeids,
               stop_strategy_tradeids, edit_strategy_tradeids, remove_strategy_tradeids;
        rewrite (Hp st); done
    end.
Qed.

Lemma run_keeps_tradeids steps st : vt_tradeids st ⊆ vt_tradeids (run steps st).
Proof.
  revert st. induction steps as [|[E op] steps IH]; intros st; simpl.
  - done.
  - etrans; [apply (exec_keeps_tradeids E op) | apply IH].
Qed.

(** * The trade de-duplication set *)

Lemma process_trade_event_seen E trade st :
  vt_tradeid trade ∈ vt_tradeids st → process_trade_event E trade st = (Ok tt, st).
Proof.
  intros Hin. unfold process_trade_event. unfold bind at 1. simpl.
  destruct (decide _); [reflexivity | contradiction].
Qed.

(** C6: a trade whose id is in the set of seen trade ids is dropped: the
    whole state is as before, so no position changes, no callback is
    called, nothing is saved and nothing is put on the event engine; and
    delivering a trade a second time leaves the state the first delivery
    left, whatever the strategies and the gateway do then. *)
Theorem seen_trade_is_dropped (E E' : Env) (trade : TradeData) (st : CtaEngine) :
  (vt_tradeid trade ∈ vt_tradeids st → process_trade_event E trade st = (Ok tt, st))
  ∧ process_trade_event E' trade (snd (process_trade_event E trade st))
    = (Ok tt, snd (process_trade_event E trade st)).
Proof.
  split; [apply process_trade_event_seen|].
  apply process_trade_event_seen. rewrite process_trade_event_tradeids. set_solver.
Qed.

Lemma seen_trade_is_dropped_witness :
  let st := snd (process_trade_event (demo_env false) demo_trade demo_engine) in
  process_trade_event (demo_env true) demo_trade st = (Ok tt, st).
Proof.
  exact (proj2 (seen_trade_is_dropped (demo_env false) (demo_env true)
                  demo_trade demo_engine)).
Defined.

(** C10: the id of a trade is put in the set of seen trade ids before the
    owning strategy is looked up. A trade of an order that no strategy
    owns changes nothing but that set, and whatever happens to the engine
    afterwards, a trade with that id is dropped, also when its order has
    got an owner by then. *)
Theorem unowned_trade_id_is_recorded (E : Env) (trade : TradeData) (st : CtaEngine) :
  vt_tradeid trade ∉ vt_tradeids st →
  orderid_strategy_map st !! trade_vt_orderid trade = None →
  process_trade_event E trade st
  = (Ok tt, with_vt_tradeids (vt_tradeids st ∪ {[vt_tradeid trade]}) st)
  ∧ ∀ (steps : list (Env * Op)) (E' : Env) (trade' : TradeData),
      vt_tradeid trade' = vt_tradeid trade →
      process_trade_event E' trade' (run steps (snd (process_trade_event E trade st)))
      = (Ok tt, run steps (snd (process_trade_event E trade st))).
Proof.
  intros Hnew Hnone.
  assert (Hfirst : process_trade_event E trade st
            = (Ok tt, with_vt_tradeids (vt_tradeids st ∪ {[vt_tradeid trade]}) st)).
  { unfold process_trade_event. unfold bind at 1. simpl.
    destruct (decide _); [contradiction|].
    unfold bind at 1. simpl. unfold bind at 1. simpl. rewrite Hnone. reflexivity. }
  split; [exact Hfirst|].
  intros steps E' trade' Hid.
  apply process_trade_event_seen.
  rewrite Hid. apply (run_keeps_tradeids steps).
  rewrite Hfirst. simpl. set_solver.
Qed.

(** The trade of "GW.1" arrives before the engine knows that order; the
    strategy then sends an order that the gateway names "GW.1"; the trade
    delivered again is dropped all the same. *)
Lemma unowned_trade_id_is_recorded_witness :
  let st1 := snd (process_trade_event (demo_env false) demo_trade demo_engine) in
  let st2 := run [(demo_env false, OpSendOrder 0 LONG OPEN 100 1 false false false)] st1 in
  orderid_strategy_map st2 !! "GW.1" = Some 0%nat
  ∧ process_trade_event (demo_env false) demo_trade st2 = (Ok tt, st2).
Proof.
  split; [vm_compute; reflexivity|].
  refine (proj2 (unowned_trade_id_is_recorded (demo_env false) demo_trade demo_engine _ _)
            [(demo_env false, OpSendOrder 0 LONG OPEN 100 1 false false false)]
            (demo_env false) demo_trade eq_refl).
  - apply (bool_decide_unpack _). vm_compute. reflexivity.
  - vm_compute. reflexivity.
Defined.

(** * Ticks of an instrument nobody subscribed to *)

Lemma with_symbol_strategy_map_id st :
  with_symbol_strategy_map (symbol_strategy_map st) st = st.
Proof. destruct st; reflexivity. Qed.

(** C7, as stated, fails: on a new engine, which holds no strategy, a
    tick of "X.E" leaves an entry for "X.E" in the instrument-to-strategies
    map, which had none. *)
Lemma tick_of_unseen_symbol_changes_map :
  let st := new_engine demo_classes [] in
  symbol_strategy_map st !! tick_vt_symbol demo_tick = None
  ∧ symbol_strategy_map (snd (process_tick_event (demo_env false) demo_tick st)) !! "X.E"
    = Some []
  ∧ snd (process_tick_event (demo_env false) demo_tick st) ≠ st.
Proof.
  split; [reflexivity|]. split; [vm_compute; reflexivity|].
  intros Heq. apply (f_equal (λ st, symbol_strategy_map st !! "X.E")) in Heq.
  vm_compute in Heq. discriminate.
Qed.

(** C7, amended: a tick whose instrument has no subscribed strategy
    returns at once. Nothing is sent out (no stop order is evaluated, no
    callback runs) and the state is as before but for the
    instrument-to-strategies map, which holds the empty list for the
    tick's instrument afterwards: the state is unchanged when the map
    held that entry, and every instrument has the subscribers it had. *)
Theorem tick_without_subscribers (E : Env) (tick : TickData) (st : CtaEngine) :
  default [] (symbol_strategy_map st !! tick_vt_symbol tick) = [] →
  ∃ st',
    process_tick_event E tick st = (Ok tt, st')
    ∧ st' = with_symbol_strategy_map
              (<[tick_vt_symbol tick := []]> (symbol_strategy_map st)) st
    ∧ trace st' = trace st
    ∧ (is_Some (symbol_strategy_map st !! tick_vt_symbol tick) → st' = st)
    ∧ ∀ symbol, default [] (symbol_strategy_map st' !! symbol)
                = default [] (symbol_strategy_map st !! symbol).
Proof.
  intros Hnone. eexists. split; [|split; [reflexivity|]].
  - unfold process_tick_event, bind, symbol_strategy_map_getitem.
    destruct (symbol_strategy_map st !! tick_vt_symbol tick) as [l|] eqn:Hl;
      simpl in *; [|reflexivity].
    subst l. rewrite insert_id by done.
    rewrite with_symbol_strategy_map_id. reflexivity.
  - split; [reflexivity|]. split.
    + intros [l Hl]. rewrite Hl in Hnone. simpl in Hnone. subst l.
      rewrite insert_id by done. apply with_symbol_strategy_map_id.
    + intros symbol. simpl.
      destruct (decide (symbol = tick_vt_symbol tick)) as [->|Hne].
      * rewrite lookup_insert_eq. simpl. symmetry. exact Hnone.
      * rewrite lookup_insert_ne by done. reflexivity.
Qed.

Lemma tick_without_subscribers_witness :
  ∃ st',
    process_tick_event (demo_env false) demo_tick (new_engine demo_classes [])
    = (Ok tt, st')
    ∧ trace st' = [].
Proof.
  destruct (tick_without_subscribers (demo_env false) demo_tick
              (new_engine demo_classes []) eq_refl) as (st' & Hrun & _ & Htrace & _).
  exists st'. split; [exact Hrun | exact Htrace].
Defined.

(** * Removing a strategy *)

Lemma forget_orderids_lookup ids m id :
  forget_orderids ids m !! id = if decide (id ∈ ids) then None else m !! id.
Proof.
  revert m. induction ids as [|x ids IH]; intros m.
  - case_decide; [set_solver | done].
  - change (forget_orderids (x :: ids) m) with (forget_orderids ids (delete x m)).
    rewrite IH. repeat case_decide; try done; try set_solver.
    + destruct (decide (id = x)) as [->|Hne]; [apply lookup_delete_eq | set_solver].
    + apply lookup_delete_ne. set_solver.
Qed.

Lemma remove_strategy_loop ids st :
  for_each ids (λ vt_orderid,
     st <- get ;;
     if decide (is_Some (orderid_strategy_map st !! vt_orderid)) then
       modify (λ st, with_orderid_strategy_map
                       (delete vt_orderid (orderid_strategy_map st)) st)
     else ret tt) st
  = (Ok tt, with_orderid_strategy_map (forget_orderids ids (orderid_strategy_map st)) st).
Proof.
  revert st. induction ids as [|id ids IH]; intros st; simpl.
  - unfold ret. f_equal. destruct st; reflexivity.
  - unfold bind at 1. unfold bind at 1. simpl.
    destruct (decide (is_Some (orderid_strategy_map st !! id))) as [Hs|Hn]; simpl.
    + rewrite IH. reflexivity.
    + rewrite IH. f_equal. unfold forget_orderids. simpl.
      rewrite (delete_id (orderid_strategy_map st) id); [reflexivity|].
      by apply eq_None_not_Some.
Qed.

Lemma list_remove_elem_of r l : r ∈ l → is_Some (list_remove r l).
Proof.
  induction l as [|y l IH]; intros Hin; simpl.
  - by apply elem_of_nil in Hin.
  - destruct (decide (r = y)); [eauto|].
    apply elem_of_cons in Hin as [?|Hin]; [done|].
    destruct (IH Hin) as [l' ->]. simpl. eauto.
Qed.

Lemma list_remove_NoDup r l l' : list_remove r l = Some l' → NoDup l → r ∉ l'.
Proof.
  revert l'. induction l as [|y l IH]; intros l' Hrm Hnd; simpl in Hrm; [done|].
  apply NoDup_cons in Hnd as [Hy Hnd].
  destruct (decide (r = y)) as [->|Hne].
  - by inversion Hrm; subst.
  - destruct (list_remove r l) as [l0|] eqn:Hl0; simpl in Hrm; [|done].
    inversion Hrm; subst. apply not_elem_of_cons. split; [done|]. by apply IH.
Qed.




(** * Adding a strategy *)

(** What [add_strategy] does with a request it rejects on one of its four
    checks: a log, and nothing else. *)
Lemma add_strategy_rejects (E : Env) (cname name symbol : string)
    (setting : gmap string Q) (st : CtaEngine) :
  (is_Some (strategies st !! name) →
   add_strategy E cname name symbol setting st
   = (Ok tt, with_trace (trace st ++ [log_of (LogAddDuplicate name)]) st))
  ∧ (strategies st !! name = None → classes st !! cname = None →
     add_strategy E cname name symbol setting st
     = (Ok tt, with_trace (trace st ++ [log_of (LogAddNoClass cname)]) st))
  ∧ (strategies st !! name = None → is_Some (classes st !! cname) →
     str_contains "." symbol = false →
     add_strategy E cname name symbol setting st
     = (Ok tt, with_trace (trace st ++ [log_of LogAddNoSuffix]) st))
  ∧ (strategies st !! name = None → is_Some (classes st !! cname) →
     ∀ prefix suffix, str_split "." symbol = [prefix; suffix] →
       suffix ∉ exchange_members E →
       add_strategy E cname name symbol setting st
       = (Ok tt, with_trace (trace st ++ [log_of LogAddBadSuffix]) st)).
Proof.
  unfold add_strategy. repeat split.
  - intros Hdup. unfold bind at 1. simpl. rewrite decide_True by done. reflexivity.
  - intros Hnew Hcls. unfold bind at 1. simpl.
    rewrite decide_False by (rewrite Hnew; apply is_Some_None).
    rewrite Hcls. reflexivity.
  - intros Hnew [cls Hcls] Hdot. unfold bind at 1. simpl.
    rewrite decide_False by (rewrite Hnew; apply is_Some_None).
    rewrite Hcls, Hdot. reflexivity.
  - intros Hnew [cls Hcls] prefix suffix Hsplit Hbad. unfold bind at 1. simpl.
    rewrite decide_False by (rewrite Hnew; apply is_Some_None).
    rewrite Hcls, Hsplit.
    assert (Hdot : str_contains "." symbol = true).
    { clear -Hsplit. revert prefix Hsplit.
      induction symbol as [|a symbol IH]; intros prefix Hsplit; simpl in *; [done|].
      destruct (Ascii.eqb a "."); [done|]. simpl.
      destruct (str_split "." symbol) as [|h t] eqn:Hs; [done|].
      inversion Hsplit; subst. by eapply IH. }
    rewrite Hdot. simpl. rewrite bool_decide_eq_false_2 by done. reflexivity.
Qed.

(** An instrument identifier with two separators or more gets past the
    check for a separator, and unpacking its parts into two names raises
    ValueError: no log, and the exception leaves the engine. *)
Lemma add_strategy_unpack_error (E : Env) (cname name symbol : string)
    (setting : gmap string Q) (st : CtaEngine) :
  strategies st !! name = None →
  is_Some (classes st !! cname) →
  str_contains "." symbol = true →
  length (str_split "." symbol) ≠ 2%nat →
  add_strategy E cname name symbol setting st = (Raise ValueError, st).
Proof.
  intros Hnew [cls Hcls] Hdot Hlen. unfold add_strategy. unfold bind at 1. simpl.
  rewrite decide_False by (rewrite Hnew; apply is_Some_None).
  rewrite Hcls, Hdot. simpl.
  destruct (str_split "." symbol) as [|p [|q [|x t]]]; try reflexivity.
  simpl in Hlen. done.
Qed.

(** C8, at a failing input: adding a strategy of the known class "StratA"
    under the new name "s2" for the instrument "X.E.Y", whose suffix "Y"
    is no exchange, raises ValueError. The engine is unchanged, and no log
    is put out. *)
Lemma add_strategy_two_separators_raises :
  strategies demo_engine !! "s2" = None
  ∧ is_Some (classes demo_engine !! "StratA")
  ∧ ("Y" ∉ exchange_members (demo_env false))
  ∧ add_strategy (demo_env false) "StratA" "s2" "X.E.Y" ∅ demo_engine
    = (Raise ValueError, demo_engine).
Proof.
  split; [vm_compute; reflexivity|]. split; [vm_compute; eauto|].
  split; [apply (bool_decide_unpack _); vm_compute; reflexivity|].
  apply add_strategy_unpack_error.
  - vm_compute. reflexivity.
  - vm_compute. eauto.
  - reflexivity.
  - vm_compute. discriminate.
Qed.

(** * The call guard *)

Lemma lookup_alter_eq (f : Strategy → Strategy) (l : list Strategy) (r : nat) (s : Strategy) :
  l !! r = Some s → alter f r l !! r = Some (f s).
Proof. intros H. rewrite list_lookup_alter_eq. rewrite H. reflexivity. Qed.

(** A callback that raises: [call_strategy_func] returns, the strategy's
    two flags are false, the log with the traceback is put out, and
    nothing else of the state changes, the other strategies included. *)
Lemma call_strategy_func_raised (E : Env) (r : nat) (c : Call) (s : Strategy)
    (traceback : string) (st : CtaEngine) :
  objects st !! r = Some s →
  raised (callback E s c) = Some traceback →
  call_strategy_func E r c st
  = (Ok tt,
     with_trace (trace st ++ [Called r c] ++ [exception_log s traceback])
       (with_objects
          (<[r := set_inited false (set_trading false
                    (set_values (new_values (callback E s c)) s))]> (objects st)) st)).
Proof.
  intros Ho Hraised. unfold call_strategy_func.
  unfold bind at 1. unfold deref. rewrite Ho.
  unfold bind at 1. simpl. unfold bind at 1. simpl. rewrite Hraised.
  unfold bind at 1. simpl. unfold bind at 1. simpl.
  unfold write_log. unfold bind at 1. unfold deref. simpl.
  rewrite !list_lookup_alter_eq, Ho. simpl.
  assert (Hl : alter (set_inited false) r (alter (set_trading false) r
                 (alter (set_values (new_values (callback E s c))) r (objects st)))
               = <[r := set_inited false (set_trading false
                    (set_values (new_values (callback E s c)) s))]> (objects st)).
  { apply list_eq. intros i. destruct (decide (i = r)) as [->|Hne].
    - rewrite !list_lookup_alter_eq, Ho. simpl.
      rewrite list_lookup_insert_eq; [done|]. by eapply lookup_lt_Some.
    - rewrite !list_lookup_alter_ne by done. by rewrite list_lookup_insert_ne. }
  unfold emit, modify. simpl. rewrite Hl, <- (assoc_L (++)). reflexivity.
Qed.

(** A callback that returns: the call is recorded and the callback's
    variables are stored; the flags stay. *)
Lemma call_strategy_func_returned (E : Env) (r : nat) (c : Call) (s : Strategy)
    (st : CtaEngine) :
  objects st !! r = Some s →
  raised (callback E s c) = None →
  call_strategy_func E r c st
  = (Ok tt,
     with_trace (trace st ++ [Called r c])
       (with_objects
          (<[r := set_values (new_values (callback E s c)) s]> (objects st)) st)).
Proof.
  intros Ho Hraised. unfold call_strategy_func.
  unfold bind at 1. unfold deref. rewrite Ho.
  unfold bind at 1. simpl. unfold bind at 1. simpl. rewrite Hraised.
  assert (Hl : alter (set_values (new_values (callback E s c))) r (objects st)
               = <[r := set_values (new_values (callback E s c)) s]> (objects st)).
  { apply list_eq. intros i. destruct (decide (i = r)) as [->|Hne].
    - erewrite lookup_alter_eq by eassumption.
      rewrite list_lookup_insert_eq; [done|]. by eapply lookup_lt_Some.
    - rewrite list_lookup_alter_ne by done. by rewrite list_lookup_insert_ne. }
  unfold ret. simpl. rewrite Hl. reflexivity.
Qed.

(** [start_strategy] of an initialized strategy whose [on_start] raises:
    the guard clears both flags, and the assignment that follows the call
    sets [trading] again. *)
Lemma start_strategy_after_fault (E : Env) (name : string) (r : nat) (s : Strategy)
    (traceback : string) (st : CtaEngine) :
  strategies st !! name = Some r →
  objects st !! r = Some s →
  inited s = true → trading s = false →
  raised (callback E s on_start) = Some traceback →
  ∃ st' s',
    start_strategy E name st = (Ok tt, st')
    ∧ objects st' !! r = Some s'
    ∧ inited s' = false ∧ trading s' = true.
Proof.
  intros Hs Ho Hi Ht Hraised. unfold start_strategy.
  unfold bind at 1. unfold strategies_getitem. rewrite Hs.
  unfold bind at 1. unfold deref. rewrite Ho, Hi, Ht. simpl.
  unfold bind at 1. erewrite call_strategy_func_raised by eassumption.
  unfold bind at 1. simpl. unfold put_strategy_event, bind, deref. simpl.
  assert (Hlt : (r < length (objects st))%nat) by (by eapply lookup_lt_Some).
  rewrite list_lookup_alter_eq, list_lookup_insert_eq by done. simpl.
  eexists _, _. split; [reflexivity|]. simpl.
  rewrite list_lookup_alter_eq, list_lookup_insert_eq by done. simpl.
  split; [reflexivity|]. split; reflexivity.
Qed.

(** [_init_strategy] of a strategy whose [on_init] raises ends with the
    strategy marked initialized. *)
Lemma init_strategy_after_fault (E : Env) (name : string) (r : nat) (s : Strategy)
    (traceback : string) (st : CtaEngine) :
  strategies st !! name = Some r →
  objects st !! r = Some s →
  inited s = false →
  strategy_data st !! name = None →
  raised (callback E s on_init) = Some traceback →
  ∃ st' s',
    _init_strategy E name st = (Ok tt, st')
    ∧ objects st' !! r = Some s'
    ∧ inited s' = true.
Proof.
  intros Hs Ho Hi Hdata Hraised. unfold _init_strategy.
  unfold bind at 1. unfold strategies_getitem. rewrite Hs.
  unfold bind at 1. unfold deref. rewrite Ho, Hi.
  unfold bind at 1. simpl.
  unfold bind at 1. erewrite call_strategy_func_raised by (simpl; eassumption).
  unfold bind at 1. simpl. unfold bind at 1. rewrite Hdata. simpl.
  assert (Hlt : (r < length (objects st))%nat) by (by eapply lookup_lt_Some).
  destruct (get_contract E (vt_symbol s)) as [contract|].
  - unfold bind at 1. simpl. unfold bind at 1. simpl.
    unfold bind at 1. unfold put_strategy_event, bind, deref. simpl.
    rewrite list_lookup_alter_eq, list_lookup_insert_eq by done. simpl.
    eexists _, _. split; [reflexivity|]. simpl.
    rewrite list_lookup_alter_eq, list_lookup_insert_eq by done. simpl.
    split; reflexivity.
  - unfold bind at 1. unfold write_log. unfold bind at 1. unfold deref. simpl.
    rewrite list_lookup_insert_eq by done. simpl.
    unfold bind at 1. simpl.
    unfold bind at 1. unfold put_strategy_event, bind, deref. simpl.
    rewrite list_lookup_alter_eq, list_lookup_insert_eq by done. simpl.
    eexists _, _. split; [reflexivity|]. simpl.
    rewrite list_lookup_alter_eq, list_lookup_insert_eq by done. simpl.
    split; reflexivity.
Qed.

(** C2, at a failing input: "s1" is initialized and not trading, and its
    [on_start] raises. [start_strategy] returns with the strategy trading
    and not initialized: the flags the guard cleared are not both false
    once the operation is over. *)
Lemma faulting_on_start_leaves_strategy_trading :
  let s := set_inited true
             (new_strategy {| cls_variables := ["pos"] |} "StratA" "s1" "X.E" ∅) in
  let st' := snd (start_strategy (demo_env true) "s1" demo_inited_engine) in
  strategies demo_inited_engine !! "s1" = Some 0%nat
  ∧ objects demo_inited_engine !! 0%nat = Some s
  ∧ inited s = true ∧ trading s = false
  ∧ raised (callback (demo_env true) s on_start) = Some "Traceback"
  ∧ fst (start_strategy (demo_env true) "s1" demo_inited_engine) = Ok tt
  ∧ inited <$> objects st' !! 0%nat = Some false
  ∧ trading <$> objects st' !! 0%nat = Some true.
Proof.
  repeat split; vm_compute; reflexivity.
Qed.

(** * Local stop orders *)

Lemma link_active_id {A} name id (k : M A) st :
  (ids <- strategy_orderid_map_getitem name ;;
   strategy_orderid_map_store name (ids ∪ {[id]}) ;; k) st
  = k (with_strategy_orderid_map
         (<[name := default ∅ (strategy_orderid_map st !! name) ∪ {[id]}]>
            (strategy_orderid_map st)) st).
Proof.
  unfold bind, strategy_orderid_map_getitem, strategy_orderid_map_store, modify.
  destruct (strategy_orderid_map st !! name) as [ids|] eqn:Hids; simpl.
  - reflexivity.
  - rewrite insert_insert_eq. reflexivity.
Qed.

Lemma stop_order_events_snoc tr e :
  (match e with Put (EVENT_CTA_STOPORDER _) => False | _ => True end) →
  stop_order_events (tr ++ [e]) = stop_order_events tr.
Proof.
  intros He. unfold stop_order_events. rewrite omap_app. simpl.
  destruct e as [| [] | | | | | | | ]; simpl; try done; by rewrite app_nil_r.
Qed.

Lemma send_requests_spec r name gw reqs acc st :
  ∃ new st',
    send_requests r name gw reqs acc st = (Ok (acc ++ new), st')
    ∧ same_but_links st st'
    ∧ stop_order_events (trace st') = stop_order_events (trace st)
    ∧ (∀ id, orderid_strategy_map st' !! id
             = if decide (id ∈ new) then Some r else orderid_strategy_map st !! id)
    ∧ (∀ n, strategy_orderid_map st' !! n
            = if decide (n = name ∧ new ≠ [])
              then Some (default ∅ (strategy_orderid_map st !! name) ∪ list_to_set new)
              else strategy_orderid_map st !! n)
    ∧ "" ∉ new.
Proof.
  revert acc st. induction reqs as [|req reqs IH]; intros acc st.
  - exists [], st. rewrite app_nil_r. split; [reflexivity|].
    split; [unfold same_but_links; by destruct st|]. split; [reflexivity|].
    split; [intros id; case_decide; [set_solver|done]|].
    split; [|set_solver].
    intros n. case_decide as Hn; [by destruct Hn|done].
  - cbn [send_requests]. unfold bind at 1. unfold main_engine_send_order.
    destruct (gateway_replies st) as [|reply replies] eqn:Hreplies;
      [|destruct (decide (reply = "")) as [->|Hreply]].
    + cbv beta iota. destruct (decide ("" = "")); [|done].
      destruct (IH acc (with_trace (trace st ++ [SendOrder req gw ""]) st))
        as (new & st' & Hrun & Hsame & Hev & Hosm & Hsom & Hne).
      exists new, st'. split; [exact Hrun|].
      split. { unfold same_but_links in *. rewrite Hsame at 1. reflexivity. }
      split. { rewrite Hev. simpl. by apply stop_order_events_snoc. }
      done.
    + cbv beta iota. destruct (decide ("" = "")); [|done].
      destruct (IH acc (with_trace (trace st ++ [SendOrder req gw ""])
                          (with_gateway_replies replies st)))
        as (new & st' & Hrun & Hsame & Hev & Hosm & Hsom & Hne).
      exists new, st'. split; [exact Hrun|].
      split. { unfold same_but_links in *. rewrite Hsame at 1. reflexivity. }
      split. { rewrite Hev. simpl. by apply stop_order_events_snoc. }
      done.
    + cbv beta iota. destruct (decide (reply = "")); [done|].
      unfold bind at 1. simpl. unfold bind at 1. simpl.
      rewrite link_active_id. simpl.
      match goal with
      | |- ∃ _ _, send_requests _ _ _ _ _ ?st2 = _ ∧ _ =>
          destruct (IH (acc ++ [reply]) st2)
            as (new & st' & Hrun & Hsame & Hev & Hosm & Hsom & Hne)
      end.
      simpl in Hev, Hosm, Hsom.
      exists (reply :: new), st'.
      split. { rewrite Hrun. by rewrite <- (assoc_L (++)). }
      split. { unfold same_but_links in *. rewrite Hsame at 1. reflexivity. }
      split.
      { rewrite Hev. rewrite stop_order_events_snoc by done.
        by apply stop_order_events_snoc. }
      split.
      { intros id. rewrite Hosm.
        destruct (decide (id = reply)) as [->|Hid].
        - rewrite lookup_insert_eq. rewrite (decide_True (P := reply ∈ reply :: new)) by set_solver.
          by case_decide.
        - rewrite lookup_insert_ne by done.
          repeat case_decide; try done; set_solver. }
      split.
      { intros m. rewrite Hsom. rewrite lookup_insert_eq. simpl.
        destruct (decide (m = name)) as [->|Hn].
        - rewrite (decide_True (P := name = name ∧ reply :: new ≠ [])) by done.
          case_decide as Hnew.
          + f_equal. set_solver.
          + rewrite lookup_insert_eq. f_equal.
            assert (new = []) as -> by (destruct new; [done|]; exfalso; apply Hnew; done).
            set_solver.
        - rewrite (decide_False (P := m = name ∧ reply :: new ≠ [])) by (intros [? _]; done).
          rewrite decide_False by (intros [? _]; done).
          by rewrite lookup_insert_ne. }
      set_solver.
Qed.

Lemma stable_ret {A} R `{!Reflexive R} (a : A) : stable R (ret a).
Proof. intros st. simpl. reflexivity. Qed.

Lemma stable_raise {A} R `{!Reflexive R} (e : Exn) : stable R (@raise A e).
Proof. intros st. simpl. reflexivity. Qed.

Lemma stable_get R `{!Reflexive R} : stable R get.
Proof. intros st. simpl. reflexivity. Qed.

Lemma stable_bind {A A'} R `{!Transitive R} (m : M A) (k : A → M A') :
  stable R m → (∀ a, stable R (k a)) → stable R (bind m k).
Proof.
  intros Hm Hk st. unfold bind. specialize (Hm st).
  destruct (m st) as [[a|e] st']; simpl in *.
  - etrans; [exact Hm | apply Hk].
  - exact Hm.
Qed.

Lemma stable_for_each {A} R `{!PreOrder R} (l : list A) (body : A → M unit) :
  (∀ x, stable R (body x)) → stable R (for_each l body).
Proof.
  intros Hbody. induction l as [|x l IH]; simpl.
  - apply stable_ret; apply _.
  - apply stable_bind; [apply _ | auto | auto].
Qed.

#[local] Instance trace_grows_preorder : PreOrder trace_grows.
Proof.
  split.
  - intros st. exists []. by rewrite app_nil_r.
  - intros st1 st2 st3 [e1 H1] [e2 H2]. exists (e1 ++ e2).
    by rewrite H2, H1, (assoc_L (++)).
Qed.

Ltac stable_step prim :=
  lazymatch goal with
  | |- stable _ (bind _ _) => apply stable_bind; [apply _ | | intros ?]
  | |- stable _ (ret _) => apply stable_ret; apply _
  | |- stable _ (raise _) => apply stable_raise; apply _
  | |- stable _ get => apply stable_get; apply _
  | |- stable _ (for_each _ _) => apply stable_for_each; [apply _ | intros ?]
  | |- stable _ (match ?x with _ => _ end) => destruct x
  | |- stable _ (let _ := _ in _) => cbv zeta
  | |- stable _ _ => first [ solve [auto with frame] | prim ]
  end.

Ltac trace_grows_prim :=
  let st := fresh "st" in
  intros st;
  cbv [emit deref update_object strategies_getitem symbol_strategy_map_getitem
       strategy_orderid_map_getitem strategy_orderid_map_store
       main_engine_send_order modify get ret raise];
  repeat case_match; cbn;
  first [ by exists [] ; rewrite app_nil_r | by eexists ].

Ltac trace_grows := repeat stable_step trace_grows_prim.

Lemma call_strategy_func_grows E r c : stable trace_grows (call_strategy_func E r c).
Proof. unfold call_strategy_func, write_log. trace_grows. Qed.

Lemma send_requests_grows r name gw reqs acc :
  stable trace_grows (send_requests r name gw reqs acc).
Proof.
  revert acc. induction reqs as [|req reqs IH]; intros acc; simpl; trace_grows.
Qed.

Lemma send_server_order_spec E r contract s direction offset price volume type lock net st :
  objects st !! r = Some s →
  ∃ ids st' evs,
    send_server_order E r (Some contract) direction offset price volume type lock net st
    = (Ok ids, st')
    ∧ same_but_links st st'
    ∧ trace st' = trace st
        ++ ConvertOrderRequest (original_request contract s direction offset price volume type)
             (contract_gateway_name contract) lock net :: evs
    ∧ stop_order_events (trace st') = stop_order_events (trace st)
    ∧ (∀ id, orderid_strategy_map st' !! id
             = if decide (id ∈ ids) then Some r else orderid_strategy_map st !! id)
    ∧ (∀ n, strategy_orderid_map st' !! n
            = if decide (n = strategy_name s ∧ ids ≠ [])
              then Some (default ∅ (strategy_orderid_map st !! strategy_name s)
                         ∪ list_to_set ids)
              else strategy_orderid_map st !! n)
    ∧ "" ∉ ids.
Proof.
  intros Ho. unfold send_server_order.
  unfold bind at 1. unfold deref. rewrite Ho.
  unfold bind at 1. simpl.
  match goal with
  | |- ∃ _ _ _, send_requests ?r ?n ?g ?reqs [] ?st0 = _ ∧ _ =>
      destruct (send_requests_spec r n g reqs [] st0)
        as (new & st' & Hrun & Hsame & Hev & Hosm & Hsom & Hne);
      destruct (send_requests_grows r n g reqs [] st0) as [evs Hevs]
  end.
  rewrite Hrun in Hevs. simpl in *.
  exists new, st', evs. split; [exact Hrun|].
  split. { unfold same_but_links in *. rewrite Hsame at 1. reflexivity. }
  split. { rewrite Hevs. by rewrite <- (assoc_L (++)). }
  split. { rewrite Hev. by apply stop_order_events_snoc. }
  done.
Qed.

#[local] Hint Resolve call_strategy_func_grows : frame.

Lemma stop_triggered_bool so tick :
  long_triggered so tick || short_triggered so tick = true ↔ stop_triggered so tick.
Proof.
  unfold long_triggered, short_triggered, stop_triggered.
  destruct (so_direction so); simpl; rewrite ?orb_false_r, ?Qle_bool_iff;
    intuition congruence.
Qed.

Lemma truthy_known x p : known x p → truthy x = true ∧ float_of x = p.
Proof.
  intros [-> Hp]. simpl. split; [|done].
  apply negb_true_iff. apply not_true_is_false. by rewrite Qeq_bool_iff.
Qed.

Lemma truthy_unknown x : unknown x → truthy x = false.
Proof.
  intros [->|(p & -> & Hp)]; simpl; [done|].
  apply negb_false_iff. by apply Qeq_bool_iff.
Qed.

(** The trigger rule of one iteration of the loop of [check_stop_order],
    when the iteration is reached, the strategy of the stop order is in
    the collection and the instrument has a contract. A stop order of the
    tick's instrument triggers exactly when it is long and the last price
    is at or above its price, or short and the last price is at or below
    it. When it does not, nothing happens. When it does, the first thing
    sent out is the limit order handed to the offset converter: for the
    full volume of the stop order, at the limit-up price of the tick if it
    has one (not None, not 0) and ask_price_5 otherwise for a long stop
    order, and at limit-down or bid_price_5 for a short one. *)
Theorem stop_order_trigger (E : Env) (tick : TickData) (so : StopOrder)
    (st : CtaEngine) (r : nat) (s : Strategy) (contract : ContractData) :
  so_vt_symbol so = tick_vt_symbol tick →
  strategies st !! so_strategy_name so = Some r →
  objects st !! r = Some s →
  get_contract E (so_vt_symbol so) = Some contract →
  (¬ stop_triggered so tick → check_one_stop_order E tick so st = (Ok tt, st))
  ∧ (stop_triggered so tick →
     ∃ price evs,
       trace (snd (check_one_stop_order E tick so st))
       = trace st
           ++ ConvertOrderRequest
                (original_request contract s (so_direction so) (so_offset so)
                   price (so_volume so) LIMIT)
                (contract_gateway_name contract) (so_lock so) (so_net so) :: evs
       ∧ (so_direction so = LONG →
          (∀ p, known (limit_up tick) p → price = p)
          ∧ (unknown (limit_up tick) → price = ask_price_5 tick))
       ∧ (so_direction so = SHORT →
          (∀ p, known (limit_down tick) p → price = p)
          ∧ (unknown (limit_down tick) → price = bid_price_5 tick))).
Proof.
  intros Hsym Hs Ho Hc. unfold check_one_stop_order.
  rewrite Hsym, String.eqb_refl. simpl. split.
  - intros Hno. destruct (long_triggered so tick || short_triggered so tick) eqn:Hb;
      [|reflexivity].
    by apply stop_triggered_bool in Hb.
  - intros Hyes. apply stop_triggered_bool in Hyes as Hb. rewrite Hb.
    unfold bind at 1. unfold strategies_getitem. rewrite Hs.
    rewrite <- Hsym, Hc. unfold send_limit_order.
    destruct (send_server_order_spec E r contract s (so_direction so) (so_offset so)
                (execution_price so tick) (so_volume so) LIMIT (so_lock so) (so_net so)
                st Ho) as (ids & st1 & evs & Hrun & _ & Htrace & _).
    unfold bind at 1. rewrite Hrun.
    match goal with
    | |- ∃ _ _, trace (snd (?k st1)) = _ ∧ _ =>
        assert (Hk : stable trace_grows k)
          by (unfold put_stop_order_event; trace_grows);
        destruct (Hk st1) as [evs' Hevs']
    end.
    exists (execution_price so tick), (evs ++ evs').
    split. { rewrite Hevs', Htrace. by rewrite <- (assoc_L (++)). }
    unfold execution_price. split; intros ->.
    + split.
      * intros p Hp. apply truthy_known in Hp as [-> ->]. done.
      * intros Hu. by rewrite (truthy_unknown _ Hu).
    + split.
      * intros p Hp. apply truthy_known in Hp as [-> ->]. done.
      * intros Hu. by rewrite (truthy_unknown _ Hu).
Qed.

Lemma dict_get_pop_eq {V} k (d : list (string * V)) :
  NoDup d.*1 → dict_get k (dict_pop k d) = None.
Proof.
  induction d as [|[k' v] d IH]; intros Hnd; simpl; [done|].
  apply NoDup_cons in Hnd as [Hk' Hnd].
  destruct (decide (k = k')) as [->|Hne].
  - clear IH. induction d as [|[k'' v''] d IH]; simpl; [done|].
    simpl in Hk'. apply not_elem_of_cons in Hk' as [? ?].
    rewrite decide_False by done. apply IH; [done|]. by apply NoDup_cons in Hnd as [_ ?].
  - simpl. rewrite decide_False by done. by apply IH.
Qed.

Lemma dict_get_pop_ne {V} k k' (d : list (string * V)) :
  k ≠ k' → dict_get k (dict_pop k' d) = dict_get k d.
Proof.
  intros Hne. induction d as [|[k'' v] d IH]; simpl; [done|].
  destruct (decide (k' = k'')) as [->|Hne'].
  - by rewrite decide_False.
  - simpl. by rewrite IH.
Qed.

Lemma dict_get_values {V} k (d : list (string * V)) v :
  dict_get k d = Some v → v ∈ dict_values d.
Proof.
  unfold dict_values. induction d as [|[k' v'] d IH]; simpl; [done|].
  destruct (decide (k = k')); intros H.
  - inversion H; subst. left.
  - right. by apply IH.
Qed.

Lemma same_but_links_fields st st' :
  same_but_links st st' →
  stop_orders st' = stop_orders st ∧ objects st' = objects st
  ∧ strategies st' = strategies st ∧ stop_order_count st' = stop_order_count st
  ∧ symbol_strategy_map st' = symbol_strategy_map st
  ∧ vt_tradeids st' = vt_tradeids st
  ∧ strategy_setting st' = strategy_setting st
  ∧ strategy_data st' = strategy_data st.
Proof. intros ->. repeat split. Qed.

Lemma stop_order_events_app tr1 tr2 :
  stop_order_events (tr1 ++ tr2) = stop_order_events tr1 ++ stop_order_events tr2.
Proof. apply omap_app. Qed.



(** ** The stop order of the scenario: long, at 100, volume 1 *)

Lemma demo_tick_triggers : stop_triggered demo_stop_order demo_tick.
Proof. left. split; [reflexivity|]. apply Qle_refl. Defined.

Lemma stop_order_trigger_witness :
  ∃ evs,
    trace (snd (check_one_stop_order (demo_env false) demo_tick demo_stop_order
                  demo_stop_engine))
    = trace demo_stop_engine
        ++ ConvertOrderRequest
             (original_request demo_contract demo_strategy LONG OPEN 100.5 1 LIMIT)
             "GW" false false :: evs.
Proof.
  destruct (proj2 (stop_order_trigger (demo_env false) demo_tick demo_stop_order
                     demo_stop_engine 0 demo_strategy demo_contract
                     eq_refl eq_refl eq_refl eq_refl) demo_tick_triggers)
    as (price & evs & Htrace & Hlong & _).
  destruct (Hlong eq_refl) as [_ Hask].
  rewrite (Hask (or_introl eq_refl)) in Htrace.
  exists evs. exact Htrace.
Defined.



(** C3: a waiting stop order of the tick's instrument that meets the
    trigger condition does not trigger when the loop of [check_stop_order]
    does not get to it. "s1" placed the stop order "STOP.1" and was
    removed, which leaves "STOP.1" in the registry; "s2", registered,
    initialized and trading, placed "STOP.2", long at 100. The tick with
    last price 100 meets the condition of both, and the contract of the
    instrument is known. The loop takes "STOP.1" first, and
    [self.strategies["s1"]] raises KeyError: [process_tick_event] ends
    with that exception and the state as it was, so "STOP.2" is still
    waiting in the registry, no order was made for it and no strategy got
    the tick. A second tick does the same. *)
Theorem orphaned_stop_order_blocks_trigger :
  let E := demo_env false in
  let st := demo_blocked_engine in
  stop_orders st = [("STOP.1", demo_orphan_order); ("STOP.2", demo_blocked_order)]
  ∧ waiting demo_blocked_order
  ∧ so_vt_symbol demo_blocked_order = tick_vt_symbol demo_tick
  ∧ stop_triggered demo_blocked_order demo_tick
  ∧ strategies st !! "s1" = None
  ∧ strategies st !! "s2" = Some 1
  ∧ objects st !! 1 = Some demo_second_strategy
  ∧ get_contract E (so_vt_symbol demo_blocked_order) = Some demo_contract
  ∧ process_tick_event E demo_tick st = (Raise KeyError, st)
  ∧ exec E (OpTick demo_tick) (exec E (OpTick demo_tick) st) = st.
Proof.
  cbv zeta.
  split; [vm_compute; reflexivity|].
  split; [split; vm_compute; reflexivity|].
  split; [vm_compute; reflexivity|].
  split; [left; split; [vm_compute; reflexivity | apply Qle_refl]|].
  split; [vm_compute; reflexivity|].
  split; [vm_compute; reflexivity|].
  split; [vm_compute; reflexivity|].
  split; [vm_compute; reflexivity|].
  split; vm_compute; reflexivity.
Qed.

(** The stop order that was refused triggers on the next tick, when the
    gateway takes the order. *)
Example refused_stop_order_triggers_later :
  let st1 := exec (demo_env false) (OpTick demo_tick) demo_refused_engine in
  let st2 := exec (demo_env false) (OpTick demo_tick) st1 in
  dict_get "STOP.1" (stop_orders st1) = Some demo_stop_order
  ∧ dict_get "STOP.1" (stop_orders st2) = None
  ∧ stop_order_events (trace st2)
    = stop_order_events (trace st1) ++ [triggered_stop_order demo_stop_order ["GW.1"]].
Proof. repeat split; vm_compute; reflexivity. Qed.

(** * The order-id maps *)

Lemma stop_id_is_stop_id k : is_stop_id (stop_id k) = true.
Proof. reflexivity. Qed.

Lemma stop_id_inj k k' : stop_id k = stop_id k' → k = k'.
Proof.
  unfold stop_id. intros H. simpl in H.
  injection H as H. change (pretty k = pretty k') in H.
  by apply (inj (pretty : nat → string)) in H.
Qed.

(** ** Dictionaries in insertion order *)

Lemma dict_get_Some_keys {V} k (d : list (string * V)) v :
  dict_get k d = Some v → k ∈ d.*1.
Proof.
  induction d as [|[k' v'] d IH]; simpl; [done|].
  destruct (decide (k = k')) as [->|Hne]; intros H; [left | right; auto].
Qed.

Lemma dict_get_None_keys {V} k (d : list (string * V)) :
  dict_get k d = None ↔ k ∉ d.*1.
Proof.
  induction d as [|[k' v'] d IH]; simpl; [set_solver|].
  destruct (decide (k = k')) as [->|Hne]; [set_solver|].
  rewrite IH. set_solver.
Qed.

Lemma dict_get_set {V} k k' (v : V) d :
  dict_get k (dict_set k' v d) = if decide (k = k') then Some v else dict_get k d.
Proof.
  induction d as [|[k'' v''] d IH]; simpl.
  - by destruct (decide (k = k')).
  - destruct (decide (k' = k'')) as [->|Hne]; simpl.
    + destruct (decide (k = k'')); done.
    + rewrite IH. destruct (decide (k = k'')) as [->|?]; [|done].
      by rewrite decide_False.
Qed.

Lemma dict_set_keys_fresh {V} k (v : V) d :
  k ∉ d.*1 → (dict_set k v d).*1 = d.*1 ++ [k].
Proof.
  induction d as [|[k' v'] d IH]; simpl; [done|]. intros Hk.
  apply not_elem_of_cons in Hk as [Hne Hk].
  rewrite decide_False by done. rewrite !fmap_cons. simpl. f_equal. by apply IH.
Qed.

Lemma dict_pop_keys_NoDup {V} k (d : list (string * V)) :
  NoDup d.*1 → NoDup (dict_pop k d).*1.
Proof.
  induction d as [|[k' v'] d IH]; simpl; [done|]. intros Hnd.
  apply NoDup_cons in Hnd as [Hk' Hnd].
  destruct (decide (k = k')); [done|]. simpl. apply NoDup_cons. split; [|auto].
  intros Hin. apply Hk'. clear -Hin.
  induction d as [|[k'' v''] d IH]; simpl in *; [done|].
  destruct (decide (k = k'')); [by right|].
  simpl in Hin. apply elem_of_cons in Hin as [->|Hin]; [left | right; auto].
Qed.

Lemma dict_get_pop_Some {V} k k' (d : list (string * V)) v :
  NoDup d.*1 → dict_get k (dict_pop k' d) = Some v → dict_get k d = Some v ∧ k ≠ k'.
Proof.
  intros Hnd H. destruct (decide (k = k')) as [->|Hne].
  - by rewrite dict_get_pop_eq in H.
  - by rewrite dict_get_pop_ne in H.
Qed.

(** ** Changes of the state that keep the invariant *)

(** Nothing the invariant reads has changed, except that objects may
    have been added, strategies dropped, active ids dropped, the count of
    stop orders raised and answers of the gateway used up. *)
Lemma engine_inv_mono st st' :
  engine_inv st →
  (∀ r n, name_of st r = Some n → name_of st' r = Some n) →
  (∀ n r, strategies st' !! n = Some r → strategies st !! n = Some r) →
  orderid_strategy_map st' = orderid_strategy_map st →
  stop_orders st' = stop_orders st →
  (stop_order_count st ≤ stop_order_count st')%nat →
  (∀ n ids', strategy_orderid_map st' !! n = Some ids' →
             ids' ⊆ default ∅ (strategy_orderid_map st !! n)) →
  gateway_replies st' `suffix_of` gateway_replies st →
  engine_inv st'.
Proof.
  intros (J1 & J2 & J3 & J4 & J5 & [J6 J6'] & J7) Hnames Hstr Hosm Hso Hcount Hsom
    [used Hrep].
  assert (Hin : ∀ id, id ∈ gateway_replies st' → id ∈ gateway_replies st).
  { intros id Hid. rewrite Hrep. apply elem_of_app. by right. }
  unfold engine_inv. rewrite Hosm, Hso. repeat split.
  - intros n r Hn. auto.
  - intros name ids' id Hids' Hid. specialize (Hsom _ _ Hids').
    destruct (strategy_orderid_map st !! name) as [ids|] eqn:Hids; simpl in Hsom;
      [|set_solver].
    destruct (J2 name ids id Hids) as [(r & Hr & Hname)|Hstop]; [set_solver| |].
    + left. exists r. rewrite Hosm. eauto.
    + right. by rewrite Hso.
  - done.
  - by apply J4.
  - destruct (J4 id so H) as (_ & k & -> & Hk). exists k. split; [done|lia].
  - done.
  - rewrite Hrep, filter_app in J6. by apply NoDup_app in J6 as (_ & _ & ?).
  - intros id Hid. apply J6'. auto.
  - apply J7; auto.
  - intros n ids' Hids' Hid'. specialize (Hsom _ _ Hids').
    destruct (strategy_orderid_map st !! n) as [ids|] eqn:Hids; simpl in Hsom;
      [|set_solver].
    eapply (proj2 (J7 id (Hin _ H) H0)); [exact Hids|set_solver].
Qed.

Ltac split_inv :=
  unfold engine_inv; split; [|split; [|split; [|split; [|split; [|split]]]]]; simpl.

(** The same, when only active ids have been dropped and answers of the
    gateway used up. *)
Lemma engine_inv_shrink st st' :
  engine_inv st →
  objects st' = objects st →
  strategies st' = strategies st →
  orderid_strategy_map st' = orderid_strategy_map st →
  stop_orders st' = stop_orders st →
  stop_order_count st' = stop_order_count st →
  (∀ n ids', strategy_orderid_map st' !! n = Some ids' →
             ids' ⊆ default ∅ (strategy_orderid_map st !! n)) →
  gateway_replies st' `suffix_of` gateway_replies st →
  engine_inv st'.
Proof.
  intros HJ Ho Hs Hosm Hso Hc Hsom Hrep.
  eapply engine_inv_mono; [exact HJ| | |done|done| |done|done].
  - intros r n. unfold name_of. by rewrite Ho.
  - intros n r. by rewrite Hs.
  - by rewrite Hc.
Qed.

Lemma shrinks_refl (som : gmap string (gset string)) :
  ∀ n ids', som !! n = Some ids' → ids' ⊆ default ∅ (som !! n).
Proof. intros n ids' ->. done. Qed.

(** [self.strategies[name] = strategy] *)
Lemma engine_inv_strategies_insert st name r :
  engine_inv st → name_of st r = Some name →
  engine_inv (with_strategies (<[name := r]> (strategies st)) st).
Proof.
  intros (J1 & J2 & J3 & J4 & J5 & J6 & J7) Hr. split_inv; try done.
  intros n r' Hn. destruct (decide (n = name)) as [->|Hne].
  - rewrite lookup_insert_eq in Hn. by inversion Hn; subst.
  - rewrite lookup_insert_ne in Hn by done. by apply J1.
Qed.

(** [self.orderid_strategy_map[vt_orderid] = strategy], for an id that is
    new to the engine. *)
Lemma engine_inv_orderid_insert st id r :
  engine_inv st →
  is_stop_id id = false →
  id ∉ gateway_replies st →
  (∀ n ids, strategy_orderid_map st !! n = Some ids → id ∉ ids) →
  engine_inv (with_orderid_strategy_map (<[id := r]> (orderid_strategy_map st)) st).
Proof.
  intros (J1 & J2 & J3 & J4 & J5 & J6 & J7) Hstop Hrep Hnew. split_inv; try done.
  - intros name ids id' Hids Hid'. simpl in Hids.
    assert (id' ≠ id) by (intros ->; by eapply Hnew).
    destruct (J2 name ids id' Hids Hid') as [(r' & Hr' & Hname)|Hso]; [left|by right].
    exists r'. simpl. by rewrite lookup_insert_ne.
  - intros id' [r' Hr']. destruct (decide (id' = id)) as [->|Hne]; [done|].
    rewrite lookup_insert_ne in Hr' by done. apply J5. eauto.
  - intros id' Hid' Hne. split; [|by apply J7].
    rewrite lookup_insert_ne; [by apply J7|]. by intros ->.
Qed.

(** [self.strategy_orderid_map[name].add(id)], for an id attributed to
    [name]. *)
Lemma engine_inv_active_add st name id :
  engine_inv st →
  attributed st name id →
  id ∉ gateway_replies st →
  engine_inv (with_strategy_orderid_map
                (<[name := default ∅ (strategy_orderid_map st !! name) ∪ {[id]}]>
                   (strategy_orderid_map st)) st).
Proof.
  intros (J1 & J2 & J3 & J4 & J5 & J6 & J7) Hattr Hrep. split_inv; try done.
  - intros n ids id' Hids Hid'. simpl in Hids.
    destruct (decide (n = name)) as [->|Hne].
    + rewrite lookup_insert_eq in Hids. inversion Hids; subst ids; clear Hids.
      apply elem_of_union in Hid' as [Hid'|Hid'].
      * destruct (strategy_orderid_map st !! name) as [ids|] eqn:Hids;
          simpl in Hid'; [|set_solver].
        by apply (J2 name ids).
      * apply elem_of_singleton in Hid' as ->. exact Hattr.
    + rewrite lookup_insert_ne in Hids by done. by apply (J2 n ids).
  - intros id' Hid' Hne. split; [by apply J7|].
    intros n ids Hids Hin.
    destruct (decide (n = name)) as [->|Hn].
    + rewrite lookup_insert_eq in Hids. inversion Hids; subst ids; clear Hids.
      apply elem_of_union in Hin as [Hin|Hin].
      * destruct (strategy_orderid_map st !! name) as [ids|] eqn:Hids;
          simpl in Hin; [|set_solver].
        by eapply (proj2 (J7 id' Hid' Hne)).
      * apply elem_of_singleton in Hin as ->. done.
    + rewrite lookup_insert_ne in Hids by done. by eapply (proj2 (J7 id' Hid' Hne)).
Qed.

(** [self.stop_order_count += 1] and
    [self.stop_orders[stop_orderid] = stop_order] *)
Lemma engine_inv_stop_order_add st so :
  engine_inv st →
  stop_orderid so = stop_id (S (stop_order_count st)) →
  engine_inv (with_stop_orders (dict_set (stop_orderid so) so (stop_orders st))
                (with_stop_order_count (S (stop_order_count st)) st)).
Proof.
  intros (J1 & J2 & J3 & J4 & J5 & J6 & J7) Hid.
  assert (Hfresh : stop_orderid so ∉ (stop_orders st).*1).
  { apply dict_get_None_keys.
    destruct (dict_get (stop_orderid so) (stop_orders st)) as [so'|] eqn:Hso'; [|done].
    exfalso. destruct (J4 _ _ Hso') as (_ & k & Hk & Hle).
    rewrite Hid in Hk. apply stop_id_inj in Hk. lia. }
  split_inv; try done.
  - intros name ids id Hids Hin. simpl in Hids.
    destruct (J2 name ids id Hids Hin) as [Hosm|(so' & Hso' & Hname)]; [by left|right].
    exists so'. split; [|done]. simpl. rewrite dict_get_set.
    rewrite decide_False; [done|]. intros ->.
    apply dict_get_Some_keys in Hso'. done.
  - rewrite dict_set_keys_fresh by done. apply NoDup_app. split; [done|].
    split; [|apply NoDup_singleton]. intros x Hx Hx'. apply list_elem_of_singleton in Hx'.
    by subst.
  - intros id so' Hso'. rewrite dict_get_set in Hso'.
    destruct (decide (id = stop_orderid so)) as [->|Hne].
    + inversion Hso'; subst so'. split; [done|].
      exists (S (stop_order_count st)). split; [done|lia].
    + destruct (J4 _ _ Hso') as (? & k & -> & Hk). split; [done|].
      exists k. split; [done|lia].
Qed.

(** [self.stop_orders.pop(stop_orderid)] and the removal of the id from
    the active ids of the stop order's strategy name. *)
Lemma engine_inv_stop_order_pop st id so som' :
  engine_inv st →
  dict_get id (stop_orders st) = Some so →
  (∀ n ids', som' !! n = Some ids' →
             ids' ⊆ default ∅ (strategy_orderid_map st !! n)) →
  id ∉ default ∅ (som' !! so_strategy_name so) →
  engine_inv (with_strategy_orderid_map som'
                (with_stop_orders (dict_pop id (stop_orders st)) st)).
Proof.
  intros (J1 & J2 & J3 & J4 & J5 & J6 & J7) Hso Hsom Hgone. split_inv; try done.
  - intros name ids' id' Hids' Hid'. simpl in Hids'. specialize (Hsom _ _ Hids') as Hsub.
    destruct (strategy_orderid_map st !! name) as [ids|] eqn:Hids; simpl in Hsub;
      [|set_solver].
    destruct (J2 name ids id' Hids) as [Hosm|(so' & Hso' & Hname)];
      [set_solver|by left|right].
    exists so'. split; [|done]. simpl. rewrite dict_get_pop_ne; [done|].
    intros ->. rewrite Hso in Hso'. inversion Hso'; subst so'.
    rewrite Hname, Hids' in Hgone. simpl in Hgone. done.
  - by apply dict_pop_keys_NoDup.
  - intros id' so' Hso'. apply dict_get_pop_Some in Hso' as [Hso' _]; [|done].
    by apply J4.
  - intros id' Hid' Hne. split; [by apply J7|].
    intros n ids' Hids' Hin. specialize (Hsom _ _ Hids') as Hsub.
    destruct (strategy_orderid_map st !! n) as [ids|] eqn:Hids; simpl in Hsub;
      [|set_solver].
    eapply (proj2 (J7 id' Hid' Hne)); [exact Hids|set_solver].
Qed.

(** [remove_strategy]: the active ids of the name are popped, and each of
    them is popped from the order-id-to-strategy map. *)
Lemma engine_inv_remove st name :
  engine_inv st →
  engine_inv
    (with_orderid_strategy_map
       (forget_orderids (elements (default ∅ (strategy_orderid_map st !! name)))
          (orderid_strategy_map st))
       (with_strategy_orderid_map (delete name (strategy_orderid_map st)) st)).
Proof.
  intros (J1 & J2 & J3 & J4 & J5 & J6 & J7). split_inv; try done.
  - intros n ids id Hids Hid. simpl in Hids.
    destruct (decide (n = name)) as [->|Hne]; [by rewrite lookup_delete_eq in Hids|].
    rewrite lookup_delete_ne in Hids by done.
    destruct (J2 n ids id Hids Hid) as [(r & Hr & Hname)|Hso]; [left|by right].
    exists r. split; [|done]. simpl. rewrite forget_orderids_lookup.
    rewrite decide_False; [done|]. intros Hin. apply elem_of_elements in Hin.
    destruct (strategy_orderid_map st !! name) as [ids0|] eqn:Hids0; simpl in Hin;
      [|set_solver].
    destruct (J2 name ids0 id Hids0 Hin) as [(r' & Hr' & Hname')|(so & Hso & _)].
    + rewrite Hr in Hr'. inversion Hr'; subst r'. rewrite Hname in Hname'.
      by inversion Hname'.
    + destruct (J4 _ _ Hso) as (_ & k & -> & _).
      assert (Hk : is_stop_id (stop_id k) = false) by (apply J5; eauto).
      by rewrite stop_id_is_stop_id in Hk.
  - intros id [r Hr]. rewrite forget_orderids_lookup in Hr.
    case_decide; [done|]. apply J5. eauto.
  - intros id Hid Hne. split.
    + rewrite forget_orderids_lookup. case_decide; [done|]. by apply J7.
    + intros n ids Hids.
      destruct (decide (n = name)) as [->|Hn]; [by rewrite lookup_delete_eq in Hids|].
      rewrite lookup_delete_ne in Hids by done. by eapply (proj2 (J7 id Hid Hne)).
Qed.

(** ** Every operation keeps the invariant *)

#[local] Instance carried_preorder I : PreOrder (carried I).
Proof.
  split.
  - intros st H. exact H.
  - intros st1 st2 st3 H1 H2 H. apply H2, H1, H.
Qed.

Abbreviation keeps m := (stable (carried engine_inv) m).

Lemma keeps_apply {A} (m : M A) st : keeps m → engine_inv st → engine_inv (snd (m st)).
Proof. intros Hm. apply Hm. Qed.

Create HintDb inv.

Ltac inv_prim :=
  let st := fresh "st" in
  let HJ := fresh "HJ" in
  intros st; unfold carried;
  cbv [emit deref strategies_getitem symbol_strategy_map_getitem modify get ret raise];
  repeat case_match; intros HJ; exact HJ.

Ltac inv_step :=
  lazymatch goal with
  | |- stable _ (bind _ _) => apply stable_bind; [apply _ | | intros ?]
  | |- stable _ (ret _) => apply stable_ret; apply _
  | |- stable _ (raise _) => apply stable_raise; apply _
  | |- stable _ get => apply stable_get; apply _
  | |- stable _ (for_each _ _) => apply stable_for_each; [apply _ | intros ?]
  | |- stable _ (match ?x with _ => _ end) => destruct x
  | |- stable _ (let _ := _ in _) => cbv zeta
  | |- stable _ _ => first [ solve [auto with inv] | inv_prim ]
  end.

Ltac keeps_auto := repeat inv_step.

Lemma update_object_keeps r f :
  (∀ s, strategy_name (f s) = strategy_name s) → keeps (update_object r f).
Proof.
  intros Hf st. unfold carried. intros HJ. unfold update_object, modify. simpl.
  eapply engine_inv_mono;
    [exact HJ| |done|done|done|done|apply shrinks_refl|done].
  intros r' n. unfold name_of. simpl.
  destruct (decide (r = r')) as [->|Hne].
  - rewrite list_lookup_alter_eq. destruct (objects st !! r') as [s|]; simpl; [|done].
    by rewrite Hf.
  - by rewrite list_lookup_alter_ne.
Qed.

Lemma setattr_name name value s : strategy_name (setattr name value s) = strategy_name s.
Proof. unfold setattr. by case_decide. Qed.

#[local] Hint Extern 1 (stable _ (update_object _ _)) =>
  apply update_object_keeps; first [ intros ?; reflexivity | apply setattr_name ] : inv.

Lemma strategy_orderid_map_getitem_keeps name :
  keeps (strategy_orderid_map_getitem name).
Proof.
  intros st. unfold carried. intros HJ. unfold strategy_orderid_map_getitem.
  destruct (strategy_orderid_map st !! name) as [ids|] eqn:Hids; [done|]. simpl.
  eapply engine_inv_shrink; [exact HJ|done..| |done].
  simpl. intros n ids' Hids'. destruct (decide (n = name)) as [->|Hne].
  - rewrite lookup_insert_eq in Hids'. inversion Hids'. set_solver.
  - rewrite lookup_insert_ne in Hids' by done. by rewrite Hids'.
Qed.
#[local] Hint Resolve strategy_orderid_map_getitem_keeps : inv.

Lemma write_log_keeps msg strategy : keeps (write_log msg strategy).
Proof. unfold write_log. keeps_auto. Qed.
#[local] Hint Resolve write_log_keeps : inv.

Lemma put_strategy_event_keeps r : keeps (put_strategy_event r).
Proof. unfold put_strategy_event. keeps_auto. Qed.
#[local] Hint Resolve put_strategy_event_keeps : inv.

Lemma put_stop_order_event_keeps so : keeps (put_stop_order_event so).
Proof. unfold put_stop_order_event. keeps_auto. Qed.
#[local] Hint Resolve put_stop_order_event_keeps : inv.

Lemma call_strategy_func_keeps E r c : keeps (call_strategy_func E r c).
Proof. unfold call_strategy_func. keeps_auto. Qed.
#[local] Hint Resolve call_strategy_func_keeps : inv.

Lemma sync_strategy_data_keeps r : keeps (sync_strategy_data r).
Proof. unfold sync_strategy_data. keeps_auto. Qed.
#[local] Hint Resolve sync_strategy_data_keeps : inv.

Lemma update_strategy_setting_keeps name setting :
  keeps (update_strategy_setting name setting).
Proof. unfold update_strategy_setting. keeps_auto. Qed.
#[local] Hint Resolve update_strategy_setting_keeps : inv.

Lemma remove_strategy_setting_keeps name : keeps (remove_strategy_setting name).
Proof. unfold remove_strategy_setting. keeps_auto. Qed.
#[local] Hint Resolve remove_strategy_setting_keeps : inv.

Lemma cancel_server_order_keeps E r id : keeps (cancel_server_order E r id).
Proof. unfold cancel_server_order. keeps_auto. Qed.
#[local] Hint Resolve cancel_server_order_keeps : inv.

Lemma process_trade_event_keeps E trade : keeps (process_trade_event E trade).
Proof. unfold process_trade_event. keeps_auto. Qed.

Lemma init_strategy_keeps E name : keeps (_init_strategy E name).
Proof. unfold _init_strategy. keeps_auto. Qed.

Lemma start_strategy_keeps E name : keeps (start_strategy E name).
Proof. unfold start_strategy. keeps_auto. Qed.

Lemma edit_strategy_keeps name setting : keeps (edit_strategy name setting).
Proof. unfold edit_strategy. keeps_auto. Qed.

Lemma engine_inv_reply_used st reply rest :
  engine_inv st → gateway_replies st = reply :: rest →
  engine_inv (with_gateway_replies rest st)
  ∧ (reply ≠ "" →
     is_stop_id reply = false ∧ (reply ∉ rest)
     ∧ ∀ n ids, strategy_orderid_map st !! n = Some ids → reply ∉ ids).
Proof.
  intros HJ Hrep. split.
  - eapply engine_inv_shrink; [exact HJ|done..|apply shrinks_refl|].
    simpl. rewrite Hrep. by exists [reply].
  - destruct HJ as (_ & _ & _ & _ & _ & [J6 J6'] & J7). intros Hne.
    rewrite Hrep in J6, J6', J7. split; [apply J6'; left|]. split.
    + rewrite filter_cons_True in J6 by done. apply NoDup_cons in J6 as [Hnin _].
      intros Hin. apply Hnin. apply list_elem_of_filter. done.
    + apply J7; [left|done].
Qed.

Lemma send_requests_keeps r name gw reqs acc st :
  engine_inv st → name_of st r = Some name →
  engine_inv (snd (send_requests r name gw reqs acc st)).
Proof.
  revert acc st. induction reqs as [|req reqs IH]; intros acc st HJ Hr; [done|].
  cbn [send_requests]. unfold bind at 1. unfold main_engine_send_order.
  destruct (gateway_replies st) as [|reply replies] eqn:Hreplies;
    [|destruct (decide (reply = "")) as [->|Hreply]].
  - cbv beta iota. destruct (decide ("" = "")); [|done]. by apply IH.
  - cbv beta iota. destruct (decide ("" = "")); [|done].
    apply IH; [|done].
    by apply (engine_inv_reply_used st "" replies).
  - cbv beta iota. destruct (decide (reply = "")); [done|].
    unfold bind at 1. simpl. unfold bind at 1. simpl.
    rewrite link_active_id. simpl.
    destruct (engine_inv_reply_used st reply replies HJ Hreplies) as [HJ1 Hfresh].
    destruct (Hfresh Hreply) as (Hstop & Hnin & Hsets).
    apply IH; [|done].
    pose proof (engine_inv_orderid_insert _ reply r HJ1 Hstop Hnin Hsets) as HJ2.
    apply (engine_inv_active_add _ name reply) in HJ2; [exact HJ2| |done].
    left. exists r. simpl. by rewrite lookup_insert_eq.
Qed.

Lemma send_server_order_keeps E r contract direction offset price volume type lock net :
  keeps (send_server_order E r contract direction offset price volume type lock net).
Proof.
  intros st. unfold carried. intros HJ. unfold send_server_order.
  destruct contract as [contract|]; [|done].
  unfold bind at 1. unfold deref.
  destruct (objects st !! r) as [s|] eqn:Ho; [|done].
  unfold bind at 1. simpl.
  apply send_requests_keeps; [done|].
  unfold name_of. simpl. by rewrite Ho.
Qed.
#[local] Hint Resolve send_server_order_keeps : inv.

Lemma tape_has_no_stop_id st k :
  engine_inv st → stop_id k ∉ gateway_replies st.
Proof.
  intros (_ & _ & _ & _ & _ & [_ J6'] & _) Hin.
  apply J6' in Hin. by rewrite stop_id_is_stop_id in Hin.
Qed.

Lemma send_local_stop_order_keeps E r direction offset price volume lock net :
  keeps (send_local_stop_order E r direction offset price volume lock net).
Proof.
  intros st. unfold carried. intros HJ. unfold send_local_stop_order.
  unfold bind at 1. simpl. unfold bind at 1. simpl.
  unfold bind at 1. unfold deref. simpl.
  destruct (objects st !! r) as [s|] eqn:Ho.
  2:{ simpl. eapply engine_inv_mono;
        [exact HJ|done|done|done|done|simpl; lia|apply shrinks_refl|done]. }
  unfold bind at 1. simpl. rewrite link_active_id. simpl.
  match goal with
  | |- engine_inv (snd (?m ?st2)) => apply (keeps_apply m st2); [keeps_auto|]
  end.
  set (so := mkStopOrder (vt_symbol s) direction offset price volume
               (STOPORDER_PREFIX +:+ "." +:+ pretty (S (stop_order_count st)))
               (strategy_name s) (now E (length (trace st))) lock net).
  pose proof (engine_inv_stop_order_add st so HJ eq_refl) as HJ1.
  apply (engine_inv_active_add _ (strategy_name s) (stop_orderid so)) in HJ1.
  - exact HJ1.
  - right. exists so. simpl. rewrite dict_get_set. by rewrite decide_True.
  - simpl. apply (tape_has_no_stop_id st). done.
Qed.
#[local] Hint Resolve send_local_stop_order_keeps : inv.

Lemma send_order_keeps E r direction offset price volume stop lock net :
  keeps (send_order E r direction offset price volume stop lock net).
Proof.
  unfold send_order, send_server_stop_order, send_limit_order. keeps_auto.
Qed.

(** The pop of a stop order and the removal of its id from the active ids
    of its strategy, in [check_stop_order] and [cancel_local_stop_order]:
    [ids] is the set read from the map, which is stored again without the
    id when it held it. *)
Lemma engine_inv_retire st id so name :
  engine_inv st →
  dict_get id (stop_orders st) = Some so →
  so_strategy_name so = name →
  engine_inv
    (snd ((vt_orderids <- strategy_orderid_map_getitem name ;;
           if decide (id ∈ vt_orderids)
           then strategy_orderid_map_store name (vt_orderids ∖ {[id]})
           else ret tt)
            (with_stop_orders (dict_pop id (stop_orders st)) st))).
Proof.
  intros HJ Hso Hname.
  unfold bind, strategy_orderid_map_getitem, strategy_orderid_map_store, modify. simpl.
  destruct (strategy_orderid_map st !! name) as [ids|] eqn:Hids; simpl.
  - destruct (decide (id ∈ ids)) as [Hin|Hnin]; simpl.
    + pose proof (engine_inv_stop_order_pop st id so
                    (<[name := ids ∖ {[id]}]> (strategy_orderid_map st)) HJ Hso) as H.
      apply H.
      * intros n ids' Hids'. destruct (decide (n = name)) as [->|Hne].
        -- rewrite lookup_insert_eq in Hids'. inversion Hids'. rewrite Hids. set_solver.
        -- rewrite lookup_insert_ne in Hids' by done. by rewrite Hids'.
      * rewrite Hname, lookup_insert_eq. set_solver.
    + pose proof (engine_inv_stop_order_pop st id so (strategy_orderid_map st) HJ Hso) as H.
      apply H; [apply shrinks_refl|]. by rewrite Hname, Hids.
  - rewrite decide_False by set_solver. simpl.
    pose proof (engine_inv_stop_order_pop st id so
                  (<[name := ∅]> (strategy_orderid_map st)) HJ Hso) as H.
    apply H.
    + intros n ids' Hids'. destruct (decide (n = name)) as [->|Hne].
      * rewrite lookup_insert_eq in Hids'. inversion Hids'. set_solver.
      * rewrite lookup_insert_ne in Hids' by done. by rewrite Hids'.
    + rewrite Hname, lookup_insert_eq. set_solver.
Qed.

Lemma bind_assoc {A B C} (m : M A) (f : A → M B) (g : B → M C) st :
  bind m (λ a, bind (f a) g) st = bind (bind m f) g st.
Proof. unfold bind. by destruct (m st) as [[a|e] st']. Qed.

Lemma engine_inv_bind {A B} (m : M A) (k : A → M B) st :
  engine_inv (snd (m st)) → (∀ a, keeps (k a)) → engine_inv (snd (bind m k st)).
Proof.
  intros Hm Hk. unfold bind. destruct (m st) as [[a|e] st']; simpl in *; [|done].
  by apply keeps_apply.
Qed.

Lemma engine_inv_retire_then {A} st id so name (k : M A) :
  engine_inv st →
  dict_get id (stop_orders st) = Some so →
  so_strategy_name so = name →
  keeps k →
  engine_inv
    (snd ((vt_orderids <- strategy_orderid_map_getitem name ;;
           (if decide (id ∈ vt_orderids)
            then strategy_orderid_map_store name (vt_orderids ∖ {[id]})
            else ret tt) ;;
           k)
            (with_stop_orders (dict_pop id (stop_orders st)) st))).
Proof.
  intros HJ Hso Hname Hk.
  rewrite (bind_assoc (strategy_orderid_map_getitem name)
             (λ vt_orderids, if decide (id ∈ vt_orderids)
                             then strategy_orderid_map_store name (vt_orderids ∖ {[id]})
                             else ret tt)
             (λ _, k)).
  apply engine_inv_bind; [|done]. by eapply engine_inv_retire.
Qed.

Lemma cancel_local_stop_order_keeps E r id : keeps (cancel_local_stop_order E r id).
Proof.
  intros st. unfold carried. intros HJ. unfold cancel_local_stop_order.
  unfold bind at 1. simpl.
  destruct (dict_get id (stop_orders st)) as [so|] eqn:Hso; [|done].
  unfold bind at 1. unfold strategies_getitem.
  destruct (strategies st !! so_strategy_name so) as [r'|] eqn:Hr'; [|done].
  unfold bind at 1. simpl. unfold bind at 1. unfold deref. simpl.
  destruct HJ as (J1 & HJ'). pose proof (J1 _ _ Hr') as Hname.
  unfold name_of in Hname. destruct (objects st !! r') as [s|] eqn:Ho; [|done].
  simpl in Hname. inversion Hname as [Hs].
  eapply (engine_inv_retire_then st id so); [by split|done|done|keeps_auto].
Qed.
#[local] Hint Resolve cancel_local_stop_order_keeps : inv.

Lemma cancel_order_keeps E r id : keeps (cancel_order E r id).
Proof. unfold cancel_order. keeps_auto. Qed.
#[local] Hint Resolve cancel_order_keeps : inv.

Lemma cancel_all_keeps E r : keeps (cancel_all E r).
Proof. unfold cancel_all. keeps_auto. Qed.
#[local] Hint Resolve cancel_all_keeps : inv.

Lemma stop_strategy_keeps E name : keeps (stop_strategy E name).
Proof. unfold stop_strategy. keeps_auto. Qed.

Lemma process_order_event_keeps E order : keeps (process_order_event E order).
Proof.
  intros st. unfold carried. intros HJ. unfold process_order_event.
  unfold bind at 1. simpl.
  destruct (orderid_strategy_map st !! order_vt_orderid order) as [r|]; [|done].
  unfold bind at 1. unfold deref.
  destruct (objects st !! r) as [s|] eqn:Ho; [|done].
  rewrite (bind_assoc (strategy_orderid_map_getitem (strategy_name s))).
  apply engine_inv_bind; [|intros ?; keeps_auto].
  unfold bind, strategy_orderid_map_getitem, strategy_orderid_map_store, modify. simpl.
  destruct (strategy_orderid_map st !! strategy_name s) as [ids|] eqn:Hids; simpl.
  - destruct (bool_decide (order_vt_orderid order ∈ ids) && negb (is_active order));
      simpl; [|done].
    eapply engine_inv_shrink; [exact HJ|done..| |done]. simpl.
    intros n ids' Hids'. destruct (decide (n = strategy_name s)) as [->|Hne].
    + rewrite lookup_insert_eq in Hids'. inversion Hids'. rewrite Hids. set_solver.
    + rewrite lookup_insert_ne in Hids' by done. by rewrite Hids'.
  - assert (HJ1 : engine_inv (with_strategy_orderid_map
                    (<[strategy_name s := ∅]> (strategy_orderid_map st)) st)).
    { eapply engine_inv_shrink; [exact HJ|done..| |done]. simpl.
      intros n ids' Hids'. destruct (decide (n = strategy_name s)) as [->|Hne].
      - rewrite lookup_insert_eq in Hids'. inversion Hids'. set_solver.
      - rewrite lookup_insert_ne in Hids' by done. by rewrite Hids'. }
    destruct (bool_decide (order_vt_orderid order ∈ ∅) && negb (is_active order));
      simpl; [|done].
    eapply engine_inv_shrink; [exact HJ1|done..| |done]. simpl.
    intros n ids' Hids'. destruct (decide (n = strategy_name s)) as [->|Hne].
    + rewrite lookup_insert_eq in Hids'. inversion Hids'. set_solver.
    + rewrite !lookup_insert_ne in Hids' by done.
      rewrite lookup_insert_ne by done. by rewrite Hids'.
Qed.

#[local] Instance registry_within_preorder : PreOrder registry_within.
Proof.
  split.
  - intros st Hnd. done.
  - intros st1 st2 st3 H12 H23 Hnd. destruct (H12 Hnd) as [Hnd2 H2].
    destruct (H23 Hnd2) as [Hnd3 H3]. split; [done|]. auto.
Qed.

Lemma stop_orders_pop_within k :
  stable registry_within
    (modify (λ st, with_stop_orders (dict_pop k (stop_orders st)) st)).
Proof.
  intros st Hnd. simpl. split; [by apply dict_pop_keys_NoDup|].
  intros id so Hso. by apply dict_get_pop_Some in Hso as [? _].
Qed.

Create HintDb within.
#[local] Hint Resolve stop_orders_pop_within : within.

Ltac within_prim :=
  let st := fresh "st" in
  intros st;
  cbv [emit deref update_object strategies_getitem symbol_strategy_map_getitem
       strategy_orderid_map_getitem strategy_orderid_map_store
       main_engine_send_order modify get ret raise];
  repeat case_match; intros ?; done.

Ltac within_step :=
  lazymatch goal with
  | |- stable _ (bind _ _) => apply stable_bind; [apply _ | | intros ?]
  | |- stable _ (ret _) => apply stable_ret; apply _
  | |- stable _ (raise _) => apply stable_raise; apply _
  | |- stable _ get => apply stable_get; apply _
  | |- stable _ (for_each _ _) => apply stable_for_each; [apply _ | intros ?]
  | |- stable _ (match ?x with _ => _ end) => destruct x
  | |- stable _ (let _ := _ in _) => cbv zeta
  | |- stable _ _ => first [ solve [auto with within] | within_prim ]
  end.

Ltac within := repeat within_step.

Lemma send_requests_within r name gw reqs acc :
  stable registry_within (send_requests r name gw reqs acc).
Proof. revert acc. induction reqs as [|req reqs IH]; intros acc; simpl; within. Qed.
#[local] Hint Resolve send_requests_within : within.

Lemma check_one_stop_order_within E tick so :
  stable registry_within (check_one_stop_order E tick so).
Proof.
  unfold check_one_stop_order, send_limit_order, send_server_order, call_strategy_func,
    write_log, put_stop_order_event.
  within.
Qed.

Lemma send_server_order_stop_orders E r contract direction offset price volume type lock net :
  preserves stop_orders
    (send_server_order E r contract direction offset price volume type lock net).
Proof.
  assert (Hreqs : ∀ name gw reqs acc, preserves stop_orders (send_requests r name gw reqs acc)).
  { intros name gw reqs. induction reqs as [|req reqs IH]; intros acc; simpl; frame. }
  unfold send_server_order. frame.
Qed.

Lemma send_server_order_strategies E r contract direction offset price volume type lock net :
  preserves strategies
    (send_server_order E r contract direction offset price volume type lock net).
Proof.
  assert (Hreqs : ∀ name gw reqs acc, preserves strategies (send_requests r name gw reqs acc)).
  { intros name gw reqs. induction reqs as [|req reqs IH]; intros acc; simpl; frame. }
  unfold send_server_order. frame.
Qed.

Lemma check_one_stop_order_keeps E tick so st0 st :
  dict_get (stop_orderid so) (stop_orders st0) = Some so →
  NoDup (stop_orders st0).*1 →
  registry_within st0 st →
  engine_inv st →
  engine_inv (snd (check_one_stop_order E tick so st)).
Proof.
  intros Hso0 Hnd Hwithin HJ. unfold check_one_stop_order.
  destruct (negb _); [done|].
  destruct (long_triggered so tick || short_triggered so tick); [|done].
  unfold bind at 1. unfold strategies_getitem.
  destruct (strategies st !! so_strategy_name so) as [r|] eqn:Hr; [|done].
  cbv zeta. unfold send_limit_order. unfold bind at 1.
  match goal with
  | |- context [send_server_order ?E ?r ?c ?d ?o ?p ?v ?t ?l ?n st] =>
      pose proof (send_server_order_keeps E r c d o p v t l n st HJ) as HJ1;
      pose proof (send_server_order_stop_orders E r c d o p v t l n st) as Hso1;
      pose proof (send_server_order_strategies E r c d o p v t l n st) as Hstr1;
      destruct (send_server_order E r c d o p v t l n st) as [[ids|e] st1]
  end; simpl in HJ1, Hso1, Hstr1; [|done].
  destruct ids as [|id ids]; [done|].
  unfold bind at 1. simpl. rewrite Hso1.
  destruct (dict_get (stop_orderid so) (stop_orders st)) as [so'|] eqn:Hso'; [|done].
  assert (so' = so) as ->.
  { destruct (Hwithin Hnd) as [_ Hsub]. apply Hsub in Hso'. congruence. }
  unfold bind at 1. simpl. unfold bind at 1. unfold deref. simpl.
  rewrite <- Hstr1 in Hr. pose proof (proj1 HJ1 _ _ Hr) as Hname.
  unfold name_of in Hname. destruct (objects st1 !! r) as [s|] eqn:Ho; [|done].
  simpl in Hname. inversion Hname as [Hs].
  rewrite <- Hso1 in Hso'.
  eapply (engine_inv_retire_then st1 (stop_orderid so) so); [done|done|done|keeps_auto].
Qed.

Lemma for_each_inv {A} (I : CtaEngine → Prop) (l : list A) (body : A → M unit) :
  (∀ x, x ∈ l → ∀ st, I st → I (snd (body x st))) →
  ∀ st, I st → I (snd (for_each l body st)).
Proof.
  induction l as [|x l IH]; intros Hbody st HI; [done|].
  cbn [for_each]. unfold bind.
  pose proof (Hbody x ltac:(left) st HI) as Hx.
  destruct (body x st) as [[[]|e] st']; simpl in *; [|done].
  apply IH; [|done]. intros y Hy. apply Hbody. by right.
Qed.

Lemma dict_values_get {V} (d : list (string * V)) v :
  v ∈ dict_values d → NoDup d.*1 → ∃ k, dict_get k d = Some v.
Proof.
  unfold dict_values. induction d as [|[k' v'] d IH]; simpl; intros Hin Hnd.
  - by apply elem_of_nil in Hin.
  - apply NoDup_cons in Hnd as [Hk' Hnd].
    apply elem_of_cons in Hin as [->|Hin].
    + exists k'. by rewrite decide_True.
    + destruct (IH Hin Hnd) as [k Hk]. exists k.
      rewrite decide_False; [done|]. intros ->.
      by apply dict_get_Some_keys in Hk.
Qed.

Lemma check_stop_order_keeps E tick : keeps (check_stop_order E tick).
Proof.
  intros st0. unfold carried. intros HJ. unfold check_stop_order.
  unfold bind at 1. simpl.
  pose proof HJ as (_ & _ & Hnd & J4 & _).
  enough (H : engine_inv (snd (for_each (dict_values (stop_orders st0))
                                 (check_one_stop_order E tick) st0))
              ∧ registry_within st0
                  (snd (for_each (dict_values (stop_orders st0))
                          (check_one_stop_order E tick) st0))) by apply H.
  apply (for_each_inv (λ st, engine_inv st ∧ registry_within st0 st)).
  - intros so Hso st [HJst Hw]. split.
    + destruct (dict_values_get _ _ Hso Hnd) as [k Hk].
      destruct (J4 _ _ Hk) as [<- _].
      by apply (check_one_stop_order_keeps E tick so st0).
    + etrans; [exact Hw|]. apply check_one_stop_order_within.
  - split; [done|reflexivity].
Qed.
#[local] Hint Resolve check_stop_order_keeps : inv.

Lemma process_tick_event_keeps E tick : keeps (process_tick_event E tick).
Proof. unfold process_tick_event. keeps_auto. Qed.

Ltac by_keeps :=
  lazymatch goal with
  | |- engine_inv (snd (?m ?st)) => apply (keeps_apply m st); [keeps_auto|]
  end.

Lemma add_strategy_keeps E cname name symbol setting :
  keeps (add_strategy E cname name symbol setting).
Proof.
  intros st. unfold carried. intros HJ. unfold add_strategy.
  unfold bind at 1. simpl.
  destruct (decide (is_Some (strategies st !! name))); [by by_keeps|].
  destruct (classes st !! cname) as [cls|]; [|by by_keeps].
  destruct (negb (str_contains "." symbol)); [by by_keeps|].
  destruct (str_split "." symbol) as [|p [|suffix [|x t]]]; try done.
  destruct (negb (bool_decide (suffix ∈ exchange_members E)));
    [by by_keeps|].
  cbv zeta. unfold bind at 1. simpl. unfold bind at 1. simpl.
  by_keeps.
  set (s := new_strategy cls cname name symbol setting).
  assert (HJ1 : engine_inv (with_objects (objects st ++ [s]) st)).
  { eapply engine_inv_mono;
      [exact HJ| |done|done|done|done|apply shrinks_refl|done].
    intros r m. unfold name_of. simpl. intros Hr.
    destruct (objects st !! r) as [s'|] eqn:Ho; [|done].
    by rewrite (lookup_app_l_Some _ _ _ _ Ho). }
  apply (engine_inv_strategies_insert _ name (length (objects st))) in HJ1; [exact HJ1|].
  unfold name_of. simpl. by rewrite lookup_app_r, Nat.sub_diag.
Qed.

Lemma remove_strategy_keeps name : keeps (remove_strategy name).
Proof.
  intros st. unfold carried. intros HJ. unfold remove_strategy.
  unfold bind at 1. unfold strategies_getitem.
  destruct (strategies st !! name) as [r|] eqn:Hr; [|done].
  unfold bind at 1. unfold deref.
  destruct (objects st !! r) as [s|] eqn:Ho; [|done].
  destruct (trading s); [by by_keeps|].
  unfold bind at 1.
  pose proof (remove_strategy_setting_keeps name st HJ) as HJ1.
  assert (Hsom1 : preserves strategy_orderid_map (remove_strategy_setting name))
    by (unfold remove_strategy_setting; frame).
  assert (Hosm1 : preserves orderid_strategy_map (remove_strategy_setting name))
    by (unfold remove_strategy_setting; frame).
  specialize (Hsom1 st). specialize (Hosm1 st).
  destruct (remove_strategy_setting name st) as [[[]|e] st1]; simpl in *; [|done].
  unfold bind at 1. unfold symbol_strategy_map_getitem.
  destruct (symbol_strategy_map st1 !! vt_symbol s) as [l|].
  - destruct (list_remove r l) as [l'|]; [|done].
    unfold bind at 1. simpl. unfold bind at 1. unfold bind at 1. simpl.
    destruct (strategy_orderid_map st1 !! name) as [ids|] eqn:Hids.
    + unfold bind at 1. simpl. rewrite remove_strategy_loop. simpl.
      pose proof (engine_inv_remove st1 name HJ1) as HJ2. rewrite Hids in HJ2.
      eapply engine_inv_mono;
        [exact HJ2|done| |done|done|done|apply shrinks_refl|done].
      simpl. intros m r' Hn. destruct (decide (m = name)) as [->|Hne].
      * by rewrite lookup_delete_eq in Hn.
      * by rewrite lookup_delete_ne in Hn.
    + simpl.
      eapply engine_inv_mono;
        [exact HJ1|done| |done|done|done|apply shrinks_refl|done].
      simpl. intros m r' Hn. destruct (decide (m = name)) as [->|Hne].
      * by rewrite lookup_delete_eq in Hn.
      * by rewrite lookup_delete_ne in Hn.
  - simpl. done.
Qed.

Lemma exec_keeps E op st : engine_inv st → engine_inv (exec E op st).
Proof.
  intros HJ. destruct op; simpl.
  - by apply process_tick_event_keeps.
  - by apply process_order_event_keeps.
  - by apply process_trade_event_keeps.
  - by apply send_order_keeps.
  - by apply cancel_order_keeps.
  - by apply cancel_all_keeps.
  - by apply add_strategy_keeps.
  - by apply init_strategy_keeps.
  - by apply start_strategy_keeps.
  - by apply stop_strategy_keeps.
  - by apply edit_strategy_keeps.
  - by apply remove_strategy_keeps.
Qed.

Lemma run_keeps steps st : engine_inv st → engine_inv (run steps st).
Proof.
  revert st. induction steps as [|[E op] steps IH]; intros st HJ; simpl; [done|].
  apply IH. by apply exec_keeps.
Qed.

Lemma new_engine_inv classes replies :
  gateway_ok replies → engine_inv (new_engine classes replies).
Proof.
  intros Hgw. split_inv.
  - intros n r Hn. by rewrite lookup_empty in Hn.
  - intros name ids id Hids. simpl in Hids. by rewrite lookup_empty in Hids.
  - apply NoDup_nil_2.
  - intros id so Hso. done.
  - intros id [r Hr]. by rewrite lookup_empty in Hr.
  - exact Hgw.
  - intros id _ _. split; [apply lookup_empty|].
    intros n ids Hids. by rewrite lookup_empty in Hids.
Qed.

(** C1, as stated, fails in both directions, in states between
    operations. After the strategy of [demo_engine] has placed a local stop
    order, "STOP.1" is among its active ids and the order-id-to-strategy
    map has no entry for it. After its limit order "GW.1" has been filled,
    the order-id-to-strategy map has an entry for "GW.1" and the id is not
    among the active ids of the strategy. *)
Lemma order_id_maps_do_not_mirror :
  ("STOP.1" ∈ default ∅ (strategy_orderid_map demo_stop_engine !! "s1")
   ∧ orderid_strategy_map demo_stop_engine !! "STOP.1" = None)
  ∧ (orderid_strategy_map demo_stopped_engine !! "GW.1" = Some 0%nat
     ∧ "GW.1" ∉ default ∅ (strategy_orderid_map demo_stopped_engine !! "s1")).
Proof.
  split; split.
  - apply (bool_decide_unpack _). vm_compute. reflexivity.
  - vm_compute. reflexivity.
  - vm_compute. reflexivity.
  - apply (bool_decide_unpack _). vm_compute. reflexivity.
Qed.

(** C1, amended: take an engine that starts empty, with a gateway whose
    order ids are different from one another and do not start with the
    prefix of the local stop orders. In every state it gets into by
    events, by orders sent and cancelled and by strategies added,
    initialized, started, stopped, edited and removed, every id among the
    active ids of a strategy name is attributed to that name: by the
    order-id-to-strategy map, which gives a strategy object of that name
    for it, or by the stop-order registry, which holds a local stop order
    of that name under it. *)
Theorem active_ids_are_attributed (classes : gmap string StrategyClass)
    (replies : list string) (steps : list (Env * Op)) :
  gateway_ok replies →
  links_ok (run steps (new_engine classes replies)).
Proof.
  intros Hgw. apply (run_keeps steps (new_engine classes replies)).
  by apply new_engine_inv.
Qed.

Lemma demo_gateway_ok : gateway_ok ["GW.1"; "GW.2"].
Proof.
  split.
  - apply (bool_decide_unpack _). vm_compute. reflexivity.
  - intros id Hid. apply list_elem_of_In in Hid.
    destruct Hid as [<-|[<-|[]]]; reflexivity.
Defined.

Lemma active_ids_are_attributed_witness :
  attributed (run demo_steps (new_engine demo_classes ["GW.1"; "GW.2"])) "s1" "STOP.1".
Proof.
  apply (active_ids_are_attributed demo_classes ["GW.1"; "GW.2"] demo_steps
           demo_gateway_ok "s1" {[ "STOP.1" ]}).
  - vm_compute. reflexivity.
  - apply (bool_decide_unpack _). vm_compute. reflexivity.
Defined.

(** * Orders sent and cancelled *)

Lemma calls_app tr1 tr2 : calls (tr1 ++ tr2) = calls tr1 ++ calls tr2.
Proof. apply omap_app. Qed.

Lemma sent_orders_app tr1 tr2 : sent_orders (tr1 ++ tr2) = sent_orders tr1 ++ sent_orders tr2.
Proof. apply omap_app. Qed.

(** What [call_strategy_func] leaves, whether the callback returns or
    raises: the call on record, followed by the log of the exception if
    there was one, and the strategy with the variables the callback left,
    its name and instrument as they were. *)
Lemma call_strategy_func_spec (E : Env) (r : nat) (c : Call) (s : Strategy) (st : CtaEngine) :
  objects st !! r = Some s →
  ∃ s' evs,
    call_strategy_func E r c st
    = (Ok tt, with_trace (trace st ++ Called r c :: evs)
                (with_objects (<[r := s']> (objects st)) st))
    ∧ strategy_name s' = strategy_name s
    ∧ vt_symbol s' = vt_symbol s
    ∧ (trading s = false → trading s' = false)
    ∧ (raised (callback E s c) = None → s' = set_values (new_values (callback E s c)) s)
    ∧ Forall (λ e, is_log_event e = true) evs.
Proof.
  intros Ho. destruct (raised (callback E s c)) as [tb|] eqn:Hraised.
  - eexists _, [exception_log s tb].
    split; [by apply call_strategy_func_raised|].
    repeat split; try done. by repeat constructor.
  - eexists _, [].
    split; [by apply call_strategy_func_returned|].
    repeat split; try done.
Qed.

(** X1: [send_order] for a strategy whose instrument the main engine has
    no contract for returns the empty list. The only thing it does is put
    out the log of the failure, tagged with the strategy's name: nothing
    is rounded, nothing goes to the gateway and the engine's own state is
    as before. *)
Theorem send_order_without_contract (E : Env) (r : nat) (s : Strategy)
    (direction : Direction) (offset : Offset) (price volume : Q) (stop lock net : bool)
    (st : CtaEngine) :
  objects st !! r = Some s →
  get_contract E (vt_symbol s) = None →
  send_order E r direction offset price volume stop lock net st
  = (Ok [], with_trace (trace st ++ [strategy_log s (LogSendNoContract (vt_symbol s))]) st).
Proof.
  intros Ho Hc. unfold send_order.
  unfold bind at 1. unfold deref. rewrite Ho, Hc.
  unfold bind at 1. unfold write_log. unfold bind at 1. unfold deref. rewrite Ho.
  reflexivity.
Qed.

Lemma demo_engine_object : objects demo_engine !! 0%nat = Some demo_strategy.
Proof. vm_compute. reflexivity. Defined.

Lemma demo_engine_strategy : strategies demo_engine !! "s1" = Some 0%nat.
Proof. vm_compute. reflexivity. Defined.

Lemma send_order_without_contract_witness :
  send_order demo_env_no_contract 0 LONG OPEN 100 1 false false false demo_engine
  = (Ok [], with_trace
              (trace demo_engine
               ++ [strategy_log demo_strategy (LogSendNoContract (vt_symbol demo_strategy))])
              demo_engine).
Proof.
  exact (send_order_without_contract demo_env_no_contract 0 demo_strategy LONG OPEN 100 1
           false false false demo_engine demo_engine_object eq_refl).
Defined.

Lemma stop_order_events_put tr so :
  stop_order_events (tr ++ [Put (EVENT_CTA_STOPORDER so)]) = stop_order_events tr ++ [so].
Proof. by rewrite stop_order_events_app. Qed.

Lemma stop_order_events_logs tr evs :
  Forall (λ e, is_log_event e = true) evs →
  stop_order_events (tr ++ evs) = stop_order_events tr.
Proof.
  intros Hevs. rewrite stop_order_events_app.
  assert (stop_order_events evs = []) as ->; [|by rewrite app_nil_r].
  induction Hevs as [|e evs He _ IH]; [done|].
  destruct e as [|[]| | | | | | |]; try done.
Qed.

Lemma calls_logs tr evs :
  Forall (λ e, is_log_event e = true) evs → calls (tr ++ evs) = calls tr.
Proof.
  intros Hevs. rewrite calls_app.
  assert (calls evs = []) as ->; [|by rewrite app_nil_r].
  induction Hevs as [|e evs He _ IH]; [done|].
  destruct e as [|[]| | | | | | |]; try done.
Qed.

Lemma sent_orders_logs tr evs :
  Forall (λ e, is_log_event e = true) evs → sent_orders (tr ++ evs) = sent_orders tr.
Proof.
  intros Hevs. rewrite sent_orders_app.
  assert (sent_orders evs = []) as ->; [|by rewrite app_nil_r].
  induction Hevs as [|e evs He _ IH]; [done|].
  destruct e as [|[]| | | | | | |]; try done.
Qed.

Lemma filter_main_engine_logs tr evs :
  Forall (λ e, is_log_event e = true) evs →
  filter (λ e, to_main_engine e = true) (tr ++ evs) = filter (λ e, to_main_engine e = true) tr.
Proof.
  intros Hevs. rewrite filter_app.
  assert (filter (λ e, to_main_engine e = true) evs = []) as ->; [|by rewrite app_nil_r].
  induction Hevs as [|e evs He _ IH]; [done|].
  destruct e as [|[]| | | | | | |]; try done.
Qed.

Lemma filter_main_engine_snoc tr e :
  to_main_engine e = false →
  filter (λ e, to_main_engine e = true) (tr ++ [e]) = filter (λ e, to_main_engine e = true) tr.
Proof.
  intros He. rewrite filter_app, filter_cons_False by (by rewrite He).
  by rewrite filter_nil, app_nil_r.
Qed.

(** X2: a stop order for an instrument whose contract does not support
    stop orders is kept by the engine. [send_order] returns the one id
    "STOP.<n>", with <n> the count of stop orders raised by one; the
    registry holds under that id a waiting stop order with the rounded
    price and volume; the id is among the active ids of the strategy;
    the strategy's [on_stop_order] is called and a stop-order event is put
    out. With an [on_stop_order] that changes the variables of its
    strategy only and does not call the engine (as every callback here),
    nothing is handed to the main engine, no answer of the gateway is
    used up, and the order-id-to-strategy map is as before. *)
Theorem send_order_keeps_stop_order_locally (E : Env) (r : nat) (s : Strategy)
    (contract : ContractData) (direction : Direction) (offset : Offset)
    (price volume : Q) (lock net : bool) (st : CtaEngine) :
  objects st !! r = Some s →
  get_contract E (vt_symbol s) = Some contract →
  stop_supported contract = false →
  let id := stop_id (S (stop_order_count st)) in
  let so := mkStopOrder (vt_symbol s) direction offset
              (round_to E price (pricetick contract))
              (round_to E volume (min_volume contract))
              id (strategy_name s) (now E (length (trace st))) lock net in
  ∃ st',
    send_order E r direction offset price volume true lock net st = (Ok [id], st')
    ∧ stop_order_count st' = S (stop_order_count st)
    ∧ stop_orders st' = dict_set id so (stop_orders st)
    ∧ dict_get id (stop_orders st') = Some so
    ∧ strategy_orderid_map st'
      = <[strategy_name s := default ∅ (strategy_orderid_map st !! strategy_name s) ∪ {[id]}]>
          (strategy_orderid_map st)
    ∧ orderid_strategy_map st' = orderid_strategy_map st
    ∧ gateway_replies st' = gateway_replies st
    ∧ filter (λ e, to_main_engine e = true) (trace st')
      = filter (λ e, to_main_engine e = true) (trace st)
    ∧ calls (trace st') = calls (trace st) ++ [(r, on_stop_order so)]
    ∧ stop_order_events (trace st') = stop_order_events (trace st) ++ [so].
Proof.
  intros Ho Hc Hstop id so. unfold send_order.
  unfold bind at 1. unfold deref. rewrite Ho, Hc, Hstop.
  unfold send_local_stop_order.
  unfold bind at 1. simpl. unfold bind at 1. simpl.
  unfold bind at 1. unfold deref. simpl. rewrite Ho.
  unfold bind at 1. simpl. rewrite link_active_id. simpl.
  fold id. fold so. unfold bind at 1.
  match goal with
  | |- context [call_strategy_func E r ?c ?st1] =>
      destruct (call_strategy_func_spec E r c s st1 Ho)
        as (s' & evs & Hcall & _ & _ & _ & _ & Hevs)
  end.
  rewrite Hcall. unfold bind at 1. simpl.
  eexists. split; [reflexivity|]. simpl.
  repeat split.
  - by rewrite dict_get_set, decide_True.
  - rewrite filter_main_engine_snoc by done.
    rewrite cons_middle, (assoc_L (++)), filter_main_engine_logs by done.
    by rewrite filter_main_engine_snoc.
  - rewrite calls_app. simpl. rewrite app_nil_r.
    rewrite cons_middle, (assoc_L (++)), calls_logs by done.
    by rewrite calls_app.
  - rewrite stop_order_events_put. f_equal.
    rewrite cons_middle, (assoc_L (++)), stop_order_events_logs by done.
    by rewrite stop_order_events_snoc.
Qed.

Lemma send_order_keeps_stop_order_locally_witness :
  ∃ st',
    send_order (demo_env false) 0 LONG OPEN 100 1 true false false demo_engine
    = (Ok [stop_id (S (stop_order_count demo_engine))], st')
    ∧ gateway_replies st' = gateway_replies demo_engine.
Proof.
  destruct (send_order_keeps_stop_order_locally (demo_env false) 0 demo_strategy
              demo_contract LONG OPEN 100 1 false false demo_engine
              demo_engine_object eq_refl eq_refl)
    as (st' & Hrun & _ & _ & _ & _ & _ & Hreplies & _).
  exists st'. split; [exact Hrun | exact Hreplies].
Defined.

(** The loop of [send_server_order] takes one answer of the gateway for
    each request, sends the requests in their order, and returns the ids
    among the answers. *)
Lemma send_requests_tape r name gw reqs acc st :
  ∃ st',
    send_requests r name gw reqs acc st
    = (Ok (acc ++ filter (λ id, id ≠ "") (take (length reqs) (gateway_replies st))), st')
    ∧ gateway_replies st' = drop (length reqs) (gateway_replies st)
    ∧ sent_orders (trace st') = sent_orders (trace st) ++ ((λ req, (req, gw)) <$> reqs).
Proof.
  revert acc st. induction reqs as [|req reqs IH]; intros acc st.
  - exists st. simpl. rewrite take_0, filter_nil, !app_nil_r. done.
  - cbn [send_requests]. unfold bind at 1. unfold main_engine_send_order.
    destruct (gateway_replies st) as [|reply replies] eqn:Hreplies;
      [|destruct (decide (reply = "")) as [->|Hreply]].
    + cbv beta iota. destruct (decide ("" = "")); [|done].
      destruct (IH acc (with_trace (trace st ++ [SendOrder req gw ""]) st))
        as (st' & Hrun & Htape & Hsent).
      exists st'. rewrite Hrun, Htape, Hsent. simpl. rewrite Hreplies.
      rewrite take_nil, drop_nil, sent_orders_app. simpl.
      by rewrite <- (assoc_L (++)).
    + cbv beta iota. destruct (decide ("" = "")); [|done].
      destruct (IH acc (with_trace (trace st ++ [SendOrder req gw ""])
                          (with_gateway_replies replies st)))
        as (st' & Hrun & Htape & Hsent).
      exists st'. rewrite Hrun, Htape, Hsent. simpl.
      rewrite filter_cons_False by (intros H; by apply H).
      rewrite sent_orders_app. simpl. by rewrite <- (assoc_L (++)).
    + cbv beta iota. destruct (decide (reply = "")); [done|].
      unfold bind at 1. simpl. unfold bind at 1. simpl.
      rewrite link_active_id. simpl.
      match goal with
      | |- context [send_requests _ _ _ _ _ ?st2] =>
          destruct (IH (acc ++ [reply]) st2) as (st' & Hrun & Htape & Hsent)
      end.
      exists st'. rewrite Hrun, Htape, Hsent. simpl.
      rewrite filter_cons_True by done.
      rewrite !sent_orders_app. simpl. rewrite app_nil_r.
      by rewrite <- !(assoc_L (++)).
Qed.

(** X3: a limit order, or a stop order for an instrument whose contract
    supports stop orders, goes to the gateway. The request built from the
    rounded price and volume is converted; each converted request is sent,
    in order, to the contract's gateway, which answers once for each; the
    ids returned are the answers that are not empty, in order, and each
    of them is mapped to the strategy and is among its active ids. The
    registry and the count of local stop orders stay as they were. *)
Theorem send_order_to_gateway (E : Env) (r : nat) (s : Strategy)
    (contract : ContractData) (direction : Direction) (offset : Offset)
    (price volume : Q) (stop lock net : bool) (st : CtaEngine) :
  objects st !! r = Some s →
  get_contract E (vt_symbol s) = Some contract →
  (stop = true → stop_supported contract = true) →
  let req := original_request contract s direction offset
               (round_to E price (pricetick contract))
               (round_to E volume (min_volume contract))
               (if stop then STOP else LIMIT) in
  let reqs := convert_order_request E req (contract_gateway_name contract) lock net in
  let answers := take (length reqs) (gateway_replies st) in
  ∃ st',
    send_order E r direction offset price volume stop lock net st
    = (Ok (filter (λ id, id ≠ "") answers), st')
    ∧ gateway_replies st' = drop (length reqs) (gateway_replies st)
    ∧ sent_orders (trace st')
      = sent_orders (trace st) ++ ((λ req, (req, contract_gateway_name contract)) <$> reqs)
    ∧ (∀ id, orderid_strategy_map st' !! id
             = if decide (id ∈ answers ∧ id ≠ "") then Some r
               else orderid_strategy_map st !! id)
    ∧ (∀ id, id ∈ answers → id ≠ "" →
             id ∈ default ∅ (strategy_orderid_map st' !! strategy_name s))
    ∧ stop_orders st' = stop_orders st
    ∧ stop_order_count st' = stop_order_count st
    ∧ objects st' = objects st.
Proof.
  intros Ho Hc Hstop req reqs answers.
  assert (Hsend : send_order E r direction offset price volume stop lock net st
                  = send_server_order E r (Some contract) direction offset
                      (round_to E price (pricetick contract))
                      (round_to E volume (min_volume contract))
                      (if stop then STOP else LIMIT) lock net st).
  { unfold send_order. unfold bind at 1. unfold deref. rewrite Ho, Hc.
    destruct stop; [|done]. by rewrite Hstop. }
  rewrite Hsend.
  destruct (send_server_order_spec E r contract s direction offset
              (round_to E price (pricetick contract))
              (round_to E volume (min_volume contract))
              (if stop then STOP else LIMIT) lock net st Ho)
    as (ids & st' & evs & Hrun & Hsame & _ & _ & Hosm & Hsom & _).
  assert (Htape : ids = filter (λ id, id ≠ "") answers
                  ∧ gateway_replies st' = drop (length reqs) (gateway_replies st)
                  ∧ sent_orders (trace st')
                    = sent_orders (trace st)
                      ++ ((λ req, (req, contract_gateway_name contract)) <$> reqs)).
  { revert Hrun. unfold send_server_order.
    unfold bind at 1. unfold deref. rewrite Ho. unfold bind at 1. simpl.
    fold req. fold reqs. intros Hrun.
    destruct (send_requests_tape r (strategy_name s) (contract_gateway_name contract)
                reqs []
                (with_trace (trace st ++ [ConvertOrderRequest req
                               (contract_gateway_name contract) lock net]) st))
      as (st2 & Hids & Hrep & Hsent).
    pose proof (eq_trans (eq_sym Hrun) Hids) as Heq.
    inversion Heq; subst st2. simpl in Hrep, Hsent.
    split; [done|]. split; [done|].
    rewrite Hsent, sent_orders_app. simpl. by rewrite app_nil_r. }
  destruct Htape as (-> & Hrep & Hsent).
  apply same_but_links_fields in Hsame as (Hso & Hobj & _ & Hcount & _).
  exists st'. split; [done|]. split; [done|]. split; [done|]. split.
  { intros id. rewrite Hosm. repeat case_decide; try done.
    - exfalso. rewrite list_elem_of_filter in *. tauto.
    - exfalso. rewrite list_elem_of_filter in *. tauto. }
  split; [|done].
  intros id Hid Hne. rewrite Hsom.
  assert (Hin : id ∈ filter (λ id, id ≠ "") answers) by (by apply list_elem_of_filter).
  rewrite decide_True; [simpl; set_solver|].
  split; [done|]. intros Hnil. rewrite Hnil in Hin. by apply elem_of_nil in Hin.
Qed.

Lemma send_order_to_gateway_witness :
  ∃ st',
    send_order (demo_env false) 0 LONG OPEN 100 1 false false false demo_engine
    = (Ok (filter (λ id, id ≠ "")
             (take (length (convert_order_request (demo_env false)
                              (original_request demo_contract demo_strategy LONG OPEN
                                 (round_to (demo_env false) 100 (pricetick demo_contract))
                                 (round_to (demo_env false) 1 (min_volume demo_contract))
                                 LIMIT)
                              (contract_gateway_name demo_contract) false false))
                (gateway_replies demo_engine))), st').
Proof.
  destruct (send_order_to_gateway (demo_env false) 0 demo_strategy demo_contract
              LONG OPEN 100 1 false false false demo_engine
              demo_engine_object eq_refl ltac:(discriminate))
    as (st' & Hrun & _).
  exists st'. exact Hrun.
Defined.

(** X4: [cancel_order] for an id that does not start with "STOP" asks the
    main engine for the order. If it knows the order, the cancel request
    made from the order goes to the order's gateway; if not, a log of the
    failure, tagged with the strategy's name, is put out. Either way the
    engine's own state is as before: the id stays among the active ids
    until an order event reports the order inactive. *)
Theorem cancel_order_of_server_order (E : Env) (r : nat) (s : Strategy) (id : string)
    (st : CtaEngine) :
  is_stop_id id = false →
  objects st !! r = Some s →
  cancel_order E r id st
  = (Ok tt,
     with_trace
       (trace st
        ++ [match get_order E id with
            | Some order =>
                CancelOrder (create_cancel_request order) (order_gateway_name order)
            | None => strategy_log s (LogCancelNoOrder id)
            end]) st).
Proof.
  intros Hid Ho. unfold cancel_order. unfold is_stop_id in Hid. rewrite Hid.
  unfold cancel_server_order. destruct (get_order E id) as [order|]; [done|].
  unfold write_log. unfold bind at 1. unfold deref. by rewrite Ho.
Qed.

Lemma cancel_order_of_server_order_witness :
  cancel_order (demo_env false) 0 "GW.1" demo_engine
  = (Ok tt,
     with_trace
       (trace demo_engine
        ++ [match get_order (demo_env false) "GW.1" with
            | Some order =>
                CancelOrder (create_cancel_request order) (order_gateway_name order)
            | None => strategy_log demo_strategy (LogCancelNoOrder "GW.1")
            end]) demo_engine).
Proof.
  exact (cancel_order_of_server_order (demo_env false) 0 demo_strategy "GW.1" demo_engine
           eq_refl demo_engine_object).
Defined.

Lemma with_strategy_orderid_map_id st :
  with_strategy_orderid_map (strategy_orderid_map st) st = st.
Proof. by destruct st. Qed.

(** The removal of an id from the active ids of a strategy name, as
    [check_stop_order], [cancel_local_stop_order] and [process_order_event]
    write it: the set is looked up, and stored without the id. *)
Lemma unlink_active_id {A} name id (k : M A) st :
  (vt_orderids <- strategy_orderid_map_getitem name ;;
   (if decide (id ∈ vt_orderids)
    then strategy_orderid_map_store name (vt_orderids ∖ {[id]})
    else ret tt) ;;
   k) st
  = k (with_strategy_orderid_map
         (<[name := default ∅ (strategy_orderid_map st !! name) ∖ {[id]}]>
            (strategy_orderid_map st)) st).
Proof.
  unfold bind, strategy_orderid_map_getitem, strategy_orderid_map_store, modify.
  destruct (strategy_orderid_map st !! name) as [ids|] eqn:Hids; simpl.
  - destruct (decide (id ∈ ids)) as [Hin|Hnin]; simpl; [done|].
    assert (ids ∖ {[id]} = ids) as -> by set_solver.
    by rewrite insert_id, with_strategy_orderid_map_id.
  - rewrite decide_False by set_solver. simpl.
    assert ((∅ : gset string) ∖ {[id]} = ∅) as -> by set_solver. done.
Qed.

(** What [cancel_local_stop_order] does with a stop order of the registry
    whose strategy is in the collection. *)
Lemma cancel_local_stop_order_spec (E : Env) (r : nat) (id : string) (so : StopOrder)
    (owner : nat) (s : Strategy) (st : CtaEngine) :
  dict_get id (stop_orders st) = Some so →
  strategies st !! so_strategy_name so = Some owner →
  objects st !! owner = Some s →
  ∃ st',
    cancel_local_stop_order E r id st = (Ok tt, st')
    ∧ stop_orders st' = dict_pop id (stop_orders st)
    ∧ strategy_orderid_map st'
      = <[strategy_name s := default ∅ (strategy_orderid_map st !! strategy_name s)
                             ∖ {[id]}]> (strategy_orderid_map st)
    ∧ calls (trace st')
      = calls (trace st)
        ++ [(owner, on_stop_order (so_set_status StopOrderStatus.CANCELLED so))]
    ∧ stop_order_events (trace st')
      = stop_order_events (trace st) ++ [so_set_status StopOrderStatus.CANCELLED so]
    ∧ filter (λ e, to_main_engine e = true) (trace st')
      = filter (λ e, to_main_engine e = true) (trace st)
    ∧ orderid_strategy_map st' = orderid_strategy_map st
    ∧ gateway_replies st' = gateway_replies st
    ∧ strategies st' = strategies st.
Proof.
  intros Hso Hs Ho. unfold cancel_local_stop_order.
  unfold bind at 1. simpl. rewrite Hso.
  unfold bind at 1. unfold strategies_getitem. rewrite Hs.
  unfold bind at 1. simpl. unfold bind at 1. unfold deref. simpl. rewrite Ho.
  rewrite unlink_active_id. simpl. unfold bind at 1.
  match goal with
  | |- context [call_strategy_func E owner ?c ?st1] =>
      destruct (call_strategy_func_spec E owner c s st1 Ho)
        as (s' & evs & Hcall & _ & _ & _ & _ & Hevs)
  end.
  rewrite Hcall. simpl.
  eexists. split; [reflexivity|]. simpl. repeat split.
  - rewrite calls_app. simpl. rewrite app_nil_r.
    rewrite cons_middle, (assoc_L (++)), calls_logs by done.
    by rewrite calls_app.
  - rewrite stop_order_events_put. f_equal.
    rewrite cons_middle, (assoc_L (++)), stop_order_events_logs by done.
    by rewrite stop_order_events_snoc.
  - rewrite filter_main_engine_snoc by done.
    rewrite cons_middle, (assoc_L (++)), filter_main_engine_logs by done.
    by rewrite filter_main_engine_snoc.
Qed.


Lemma demo_stop_engine_registry :
  dict_get "STOP.1" (stop_orders demo_stop_engine) = Some demo_stop_order.
Proof. vm_compute. reflexivity. Defined.

Lemma demo_stop_engine_strategy :
  strategies demo_stop_engine !! so_strategy_name demo_stop_order = Some 0%nat.
Proof. vm_compute. reflexivity. Defined.

Lemma demo_stop_engine_object : objects demo_stop_engine !! 0%nat = Some demo_strategy.
Proof. vm_compute. reflexivity. Defined.


(** The loop of [cancel_all] over ids that are among the active ids of
    the strategy. *)
Lemma cancel_all_loop (E : Env) (name : string) (r : nat) (l : list string) (st : CtaEngine) :
  engine_inv st →
  strategies st !! name = Some r →
  NoDup l →
  (∀ id, id ∈ l → id ∈ default ∅ (strategy_orderid_map st !! name)) →
  ∃ st',
    for_each l (cancel_order E r) st = (Ok tt, st')
    ∧ engine_inv st'
    ∧ strategies st' = strategies st
    ∧ orderid_strategy_map st' = orderid_strategy_map st
    ∧ (∀ id, id ∈ default ∅ (strategy_orderid_map st' !! name)
             ↔ id ∈ default ∅ (strategy_orderid_map st !! name)
               ∧ ¬ (id ∈ l ∧ is_stop_id id = true))
    ∧ (∀ id so, dict_get id (stop_orders st') = Some so →
                dict_get id (stop_orders st) = Some so ∧ id ∉ l).
Proof.
  revert st. induction l as [|id l IH]; intros st HJ Hs Hnd Hin.
  - exists st. split; [done|]. split; [done|]. split; [done|]. split; [done|].
    split; [set_solver|]. intros id so Hso. split; [done|]. set_solver.
  - apply NoDup_cons in Hnd as [Hid Hnd].
    pose proof (cancel_order_keeps E r id st HJ) as HJ1.
    pose proof HJ as (J1 & J2 & J3 & J4 & J5 & _).
    pose proof (J1 _ _ Hs) as Hname. unfold name_of in Hname.
    destruct (objects st !! r) as [s|] eqn:Ho; [|done].
    simpl in Hname. injection Hname as Hsname.
    assert (Hactive : id ∈ default ∅ (strategy_orderid_map st !! name)) by (apply Hin; left).
    destruct (strategy_orderid_map st !! name) as [ids|] eqn:Hids; [|set_solver].
    simpl in Hactive.
    cbn [for_each]. unfold bind at 1.
    destruct (is_stop_id id) eqn:Hstop.
    + destruct (J2 name ids id Hids Hactive) as [(r' & Hr' & _)|(so & Hso & Hso_name)].
      { assert (is_stop_id id = false) by (apply J5; eauto). congruence. }
      rewrite <- Hso_name in Hs.
      destruct (cancel_local_stop_order_spec E r id so r s st Hso Hs Ho)
        as (st1 & Hrun & Hreg & Hsom & _ & _ & _ & Hosm & _ & Hstr).
      assert (Hcancel : cancel_order E r id st = (Ok tt, st1)).
      { unfold cancel_order. unfold is_stop_id in Hstop. by rewrite Hstop. }
      rewrite Hcancel in HJ1 |- *. simpl in HJ1.
      rewrite Hso_name in Hs.
      destruct (IH st1 HJ1) as (st' & Hloop & HJ' & Hstr' & Hosm' & Hsom' & Hreg').
      { by rewrite Hstr. }
      { done. }
      { intros id' Hid'. rewrite Hsom, Hsname, lookup_insert_eq, Hids. simpl.
        apply elem_of_difference. split; [apply (Hin id'); by right|].
        set_solver. }
      exists st'. split; [done|]. split; [done|]. split; [congruence|].
      split; [congruence|]. split.
      * intros x. rewrite Hsom'. rewrite Hsom, Hsname, lookup_insert_eq, Hids. simpl.
        rewrite elem_of_difference, elem_of_singleton, elem_of_cons.
        split.
        -- intros [[Hx Hne] Hno]. split; [done|]. intros [[->|Hx'] Hxs]; [done|].
           apply Hno. done.
        -- intros [Hx Hno]. split; [split; [done|]|].
           ++ intros ->. apply Hno. split; [by left|done].
           ++ intros [Hx' Hxs]. apply Hno. split; [by right|done].
      * intros x so' Hx. destruct (Hreg' x so' Hx) as [Hx1 Hxl].
        rewrite Hreg in Hx1. apply dict_get_pop_Some in Hx1 as [Hx1 Hne]; [|done].
        split; [done|]. apply not_elem_of_cons. done.
    + assert (Hcancel : ∃ e, cancel_order E r id st
                             = (Ok tt, with_trace (trace st ++ [e]) st)).
      { unfold cancel_order. unfold is_stop_id in Hstop. rewrite Hstop.
        unfold cancel_server_order. destruct (get_order E id) as [order|]; [by eexists|].
        unfold write_log. unfold bind at 1. unfold deref. rewrite Ho. by eexists. }
      destruct Hcancel as [e Hcancel]. rewrite Hcancel in HJ1 |- *. simpl in HJ1.
      destruct (IH (with_trace (trace st ++ [e]) st) HJ1)
        as (st' & Hloop & HJ' & Hstr' & Hosm' & Hsom' & Hreg'); [done|done| |].
      { intros id' Hid'. simpl. rewrite Hids. simpl.
        specialize (Hin id' ltac:(by right)). done. }
      simpl in Hstr', Hosm', Hsom', Hreg'. rewrite Hids in Hsom'. simpl in Hsom'.
      exists st'. split; [done|]. split; [done|]. split; [done|]. split; [done|]. split.
      * intros x. rewrite Hsom'. simpl. rewrite elem_of_cons. split.
        -- intros [Hx Hno]. split; [done|]. intros [[->|Hx'] Hxs]; [congruence|].
           apply Hno. done.
        -- intros [Hx Hno]. split; [done|]. intros [Hx' Hxs]. apply Hno.
           split; [by right|done].
      * intros x so' Hx. destruct (Hreg' x so' Hx) as [Hx1 Hxl].
        split; [done|]. apply not_elem_of_cons. split; [|done].
        intros ->. destruct (J4 _ _ Hx1) as (_ & k & -> & _).
        by rewrite stop_id_is_stop_id in Hstop.
Qed.

(** [cancel_all] for a strategy of the collection, in a state that has
    the invariant of the order-id maps. *)
Lemma cancel_all_spec (E : Env) (name : string) (r : nat) (st : CtaEngine) :
  engine_inv st →
  strategies st !! name = Some r →
  ∃ st',
    cancel_all E r st = (Ok tt, st')
    ∧ engine_inv st'
    ∧ strategies st' = strategies st
    ∧ orderid_strategy_map st' = orderid_strategy_map st
    ∧ (∀ id, id ∈ active_ids st' name ↔ id ∈ active_ids st name ∧ is_stop_id id = false)
    ∧ (∀ id so, dict_get id (stop_orders st') = Some so →
                dict_get id (stop_orders st) = Some so ∧ id ∉ active_ids st name).
Proof.
  intros HJ Hs. unfold active_ids.
  pose proof (proj1 HJ _ _ Hs) as Hname. unfold name_of in Hname.
  destruct (objects st !! r) as [s|] eqn:Ho; [|done].
  simpl in Hname. injection Hname as Hsname.
  unfold cancel_all. unfold bind at 1. unfold deref. rewrite Ho, Hsname.
  unfold bind at 1.
  pose proof (strategy_orderid_map_getitem_keeps name st HJ) as HJ0.
  assert (H0 : ∃ st0, strategy_orderid_map_getitem name st
                      = (Ok (default ∅ (strategy_orderid_map st !! name)), st0)
                 ∧ strategies st0 = strategies st
                 ∧ orderid_strategy_map st0 = orderid_strategy_map st
                 ∧ stop_orders st0 = stop_orders st
                 ∧ default ∅ (strategy_orderid_map st0 !! name)
                   = default ∅ (strategy_orderid_map st !! name)).
  { unfold strategy_orderid_map_getitem.
    destruct (strategy_orderid_map st !! name) as [ids|] eqn:Hids.
    - exists st. by rewrite Hids.
    - eexists. split; [reflexivity|]. simpl. by rewrite lookup_insert_eq. }
  destruct H0 as (st0 & Hget & Hstr0 & Hosm0 & Hreg0 & Hsom0).
  rewrite Hget in HJ0 |- *. simpl in HJ0.
  set (ids := default ∅ (strategy_orderid_map st !! name)) in *.
  destruct (decide (ids = ∅)) as [Hempty|Hne].
  - exists st0. split; [done|]. split; [done|]. split; [done|]. split; [done|].
    rewrite Hsom0, Hreg0, Hempty. split; [set_solver|]. intros id so Hso. set_solver.
  - destruct (cancel_all_loop E name r (elements ids) st0 HJ0)
      as (st' & Hloop & HJ' & Hstr' & Hosm' & Hsom' & Hreg').
    + by rewrite Hstr0.
    + apply NoDup_elements.
    + intros id Hid. rewrite Hsom0. by apply elem_of_elements.
    + exists st'. split; [done|]. split; [done|]. split; [congruence|].
      split; [congruence|]. split.
      * intros id. rewrite Hsom', Hsom0. rewrite elem_of_elements.
        destruct (is_stop_id id); split; intros [? ?]; split; try done.
        -- exfalso. tauto.
        -- intros [_ ?]. done.
      * intros id so Hso. destruct (Hreg' id so Hso) as [H1 H2].
        rewrite Hreg0 in H1. split; [done|]. by rewrite elem_of_elements in H2.
Qed.

(** X6: in every state an engine gets into from a new one (the gateway's
    ids being distinct and not starting with "STOP"), [cancel_all] for a
    strategy of the collection returns without an exception. The
    [on_stop_order] that each cancelled stop order calls changes the
    variables of its strategy only and does not call the engine (as every
    callback here): no order is sent from inside [cancel_all]. Then,
    afterwards, the active ids of the strategy are those it had that are
    not local stop-order ids, none of the ids it had is in the registry,
    the registry has lost entries only, and the order-id-to-strategy map
    is as before. *)
Theorem cancel_all_cancels_local_stop_orders (E : Env) (classes : gmap string StrategyClass)
    (replies : list string) (steps : list (Env * Op)) (name : string) (r : nat) :
  gateway_ok replies →
  let st := run steps (new_engine classes replies) in
  strategies st !! name = Some r →
  ∃ st',
    cancel_all E r st = (Ok tt, st')
    ∧ (∀ id, id ∈ active_ids st' name ↔ id ∈ active_ids st name ∧ is_stop_id id = false)
    ∧ (∀ id, id ∈ active_ids st name → dict_get id (stop_orders st') = None)
    ∧ (∀ id so, dict_get id (stop_orders st') = Some so →
                dict_get id (stop_orders st) = Some so)
    ∧ orderid_strategy_map st' = orderid_strategy_map st.
Proof.
  intros Hgw st Hs.
  assert (HJ : engine_inv st) by (apply run_keeps; by apply new_engine_inv).
  destruct (cancel_all_spec E name r st HJ Hs)
    as (st' & Hrun & _ & _ & Hosm & Hsom & Hreg).
  exists st'. split; [done|]. split; [done|]. split; [|split; [|done]].
  - intros id Hid. destruct (dict_get id (stop_orders st')) as [so|] eqn:Hso; [|done].
    by destruct (Hreg id so Hso).
  - intros id so Hso. by destruct (Hreg id so Hso).
Qed.

Lemma demo_steps_strategy :
  strategies (run demo_steps (new_engine demo_classes ["GW.1"; "GW.2"])) !! "s1"
  = Some 0%nat.
Proof. vm_compute. reflexivity. Defined.

Lemma cancel_all_cancels_local_stop_orders_witness :
  ∃ st',
    cancel_all (demo_env false) 0
      (run demo_steps (new_engine demo_classes ["GW.1"; "GW.2"])) = (Ok tt, st')
    ∧ ∀ id, id ∈ active_ids (run demo_steps (new_engine demo_classes ["GW.1"; "GW.2"])) "s1" →
            dict_get id (stop_orders st') = None.
Proof.
  destruct (cancel_all_cancels_local_stop_orders (demo_env false) demo_classes
              ["GW.1"; "GW.2"] demo_steps "s1" 0 demo_gateway_ok demo_steps_strategy)
    as (st' & Hrun & _ & Hgone & _).
  exists st'. split; [exact Hrun | exact Hgone].
Defined.

(** * The trading flag *)

Lemma update_object_not_trading r r' f :
  (∀ s, trading s = false → trading (f s) = false) →
  stable (carried (not_trading r)) (update_object r' f).
Proof.
  intros Hf st. unfold carried. intros (s & Ho & Ht). unfold update_object, modify.
  unfold not_trading. simpl. destruct (decide (r' = r)) as [->|Hne].
  - exists (f s). rewrite list_lookup_alter_eq, Ho. auto.
  - exists s. by rewrite list_lookup_alter_ne.
Qed.

Lemma setattr_trading name value s : trading (setattr name value s) = trading s.
Proof. unfold setattr. by case_decide. Qed.

Create HintDb quiet.

#[local] Hint Extern 1 (stable _ (update_object _ _)) =>
  apply update_object_not_trading;
  first [ intros ? ?; assumption | intros ? ?; reflexivity
        | intros ? ?; by rewrite setattr_trading ] : quiet.

Ltac quiet_prim :=
  let st := fresh "st" in
  let HJ := fresh "HJ" in
  intros st; unfold carried;
  cbv [emit deref strategies_getitem symbol_strategy_map_getitem
       strategy_orderid_map_getitem strategy_orderid_map_store
       main_engine_send_order modify get ret raise];
  repeat case_match; intros HJ; exact HJ.

Ltac quiet_step :=
  lazymatch goal with
  | |- stable _ (bind _ _) => apply stable_bind; [apply _ | | intros ?]
  | |- stable _ (ret _) => apply stable_ret; apply _
  | |- stable _ (raise _) => apply stable_raise; apply _
  | |- stable _ get => apply stable_get; apply _
  | |- stable _ (for_each _ _) => apply stable_for_each; [apply _ | intros ?]
  | |- stable _ (match ?x with _ => _ end) => destruct x
  | |- stable _ (let _ := _ in _) => cbv zeta
  | |- stable _ _ => first [ solve [auto with quiet] | quiet_prim ]
  end.

Ltac quiet := repeat quiet_step.

Lemma call_strategy_func_not_trading E r r' c :
  stable (carried (not_trading r)) (call_strategy_func E r' c).
Proof. unfold call_strategy_func, write_log. quiet. Qed.
#[local] Hint Resolve call_strategy_func_not_trading : quiet.

Lemma send_requests_not_trading r r' name gw reqs acc :
  stable (carried (not_trading r)) (send_requests r' name gw reqs acc).
Proof. revert acc. induction reqs as [|req reqs IH]; intros acc; simpl; quiet. Qed.
#[local] Hint Resolve send_requests_not_trading : quiet.

Lemma send_order_not_trading E r r' direction offset price volume stop lock net :
  stable (carried (not_trading r))
    (send_order E r' direction offset price volume stop lock net).
Proof.
  unfold send_order, send_server_stop_order, send_limit_order, send_server_order,
    send_local_stop_order, write_log, put_stop_order_event.
  quiet.
Qed.

Lemma cancel_order_not_trading E r r' id :
  stable (carried (not_trading r)) (cancel_order E r' id).
Proof.
  unfold cancel_order, cancel_local_stop_order, cancel_server_order, write_log,
    put_stop_order_event.
  quiet.
Qed.
#[local] Hint Resolve cancel_order_not_trading : quiet.

Lemma cancel_all_not_trading E r r' :
  stable (carried (not_trading r)) (cancel_all E r').
Proof. unfold cancel_all. quiet. Qed.
#[local] Hint Resolve cancel_all_not_trading : quiet.

Lemma process_tick_event_not_trading E r tick :
  stable (carried (not_trading r)) (process_tick_event E tick).
Proof.
  unfold process_tick_event, check_stop_order, check_one_stop_order, send_limit_order,
    send_server_order, put_stop_order_event.
  quiet.
Qed.

Lemma process_order_event_not_trading E r order :
  stable (carried (not_trading r)) (process_order_event E order).
Proof. unfold process_order_event. quiet. Qed.

Lemma process_trade_event_not_trading E r trade :
  stable (carried (not_trading r)) (process_trade_event E trade).
Proof. unfold process_trade_event, sync_strategy_data, put_strategy_event. quiet. Qed.

Lemma init_strategy_not_trading E r name :
  stable (carried (not_trading r)) (_init_strategy E name).
Proof. unfold _init_strategy, write_log, put_strategy_event. quiet. Qed.

Lemma stop_strategy_not_trading E r name :
  stable (carried (not_trading r)) (stop_strategy E name).
Proof. unfold stop_strategy, sync_strategy_data, put_strategy_event. quiet. Qed.

Lemma edit_strategy_not_trading r name setting :
  stable (carried (not_trading r)) (edit_strategy name setting).
Proof. unfold edit_strategy, update_strategy_setting, put_strategy_event. quiet. Qed.

Lemma remove_strategy_not_trading r name :
  stable (carried (not_trading r)) (remove_strategy name).
Proof. unfold remove_strategy, remove_strategy_setting, write_log. quiet. Qed.

Lemma add_strategy_not_trading E r cname name symbol setting :
  stable (carried (not_trading r)) (add_strategy E cname name symbol setting).
Proof.
  assert (Happend : ∀ s, stable (carried (not_trading r))
                           (modify (λ st, with_objects (objects st ++ [s]) st))).
  { intros s st. unfold carried. intros (s0 & Ho & Ht). exists s0. simpl.
    by rewrite (lookup_app_l_Some _ _ _ _ Ho). }
  unfold add_strategy, update_strategy_setting, write_log, put_strategy_event.
  quiet.
Qed.

Lemma update_object_other_not_trading r r' f :
  r' ≠ r → stable (carried (not_trading r)) (update_object r' f).
Proof.
  intros Hne st. unfold carried. intros (s & Ho & Ht). exists s.
  unfold update_object, modify. simpl. by rewrite list_lookup_alter_ne.
Qed.

Lemma start_strategy_not_trading E r name st :
  strategies st !! name ≠ Some r →
  not_trading r st → not_trading r (snd (start_strategy E name st)).
Proof.
  intros Hname. unfold start_strategy. unfold bind at 1. unfold strategies_getitem.
  destruct (strategies st !! name) as [r'|] eqn:Hr'; [|done].
  assert (Hne : r' ≠ r) by congruence.
  pose proof (update_object_other_not_trading r r' (set_trading true) Hne) as Hup.
  match goal with
  | |- _ → not_trading r (snd (?m st)) =>
      assert (Hm : stable (carried (not_trading r)) m);
      [unfold put_strategy_event, write_log; quiet | apply Hm]
  end.
Qed.

(** X7: the engine sets the trading flag of a strategy in
    [start_strategy] and nowhere else. A strategy object that is not
    trading is still not trading after any operation other than
    [start_strategy] on the name it is registered under (the callbacks of
    the strategies change their variables only). *)
Theorem trading_starts_with_start_strategy (E : Env) (op : Op) (r : nat) (st : CtaEngine) :
  (∀ name, op = OpStart name → strategies st !! name ≠ Some r) →
  not_trading r st →
  not_trading r (exec E op st).
Proof.
  intros Hop. destruct op; simpl.
  - apply process_tick_event_not_trading.
  - apply process_order_event_not_trading.
  - apply process_trade_event_not_trading.
  - apply send_order_not_trading.
  - apply cancel_order_not_trading.
  - apply cancel_all_not_trading.
  - apply add_strategy_not_trading.
  - apply init_strategy_not_trading.
  - apply start_strategy_not_trading. by apply Hop.
  - apply stop_strategy_not_trading.
  - apply edit_strategy_not_trading.
  - apply remove_strategy_not_trading.
Qed.

Lemma demo_inited_engine_not_trading : not_trading 0 demo_inited_engine.
Proof. exists demo_inited_strategy. split; vm_compute; reflexivity. Defined.

Lemma trading_starts_with_start_strategy_witness :
  not_trading 0 (exec (demo_env true) (OpTick demo_tick) demo_inited_engine).
Proof.
  apply (trading_starts_with_start_strategy (demo_env true) (OpTick demo_tick) 0
           demo_inited_engine).
  - intros name Hop. discriminate Hop.
  - exact demo_inited_engine_not_trading.
Defined.

Lemma cancel_all_grows E r : stable trace_grows (cancel_all E r).
Proof.
  unfold cancel_all, cancel_order, cancel_local_stop_order, cancel_server_order,
    write_log, put_stop_order_event.
  trace_grows.
Qed.

(** [stop_strategy] for a strategy of the collection, in a state that has
    the invariant of the order-id maps. *)
Lemma stop_strategy_spec (E : Env) (name : string) (r : nat) (s : Strategy) (st : CtaEngine) :
  engine_inv st →
  strategies st !! name = Some r →
  objects st !! r = Some s →
  (trading s = false → stop_strategy E name st = (Ok tt, st))
  ∧ (trading s = true →
     ∃ st' s' evs,
       stop_strategy E name st = (Ok tt, st')
       ∧ engine_inv st'
       ∧ strategies st' = strategies st
       ∧ objects st' !! r = Some s'
       ∧ trading s' = false
       ∧ strategy_data st' = <[name := get_variables s']> (strategy_data st)
       ∧ (∀ id, id ∈ active_ids st' name ↔ id ∈ active_ids st name ∧ is_stop_id id = false)
       ∧ trace st' = trace st ++ Called r on_stop :: evs
                       ++ [SaveData (strategy_data st'); Put (EVENT_CTA_STRATEGY s')]).
Proof.
  intros HJ Hs Ho.
  split; intros Ht; unfold stop_strategy;
    (unfold bind at 1; unfold strategies_getitem; rewrite Hs;
     unfold bind at 1; unfold deref; rewrite Ho; cbv beta iota; rewrite Ht); [done|].
  cbn [negb]. unfold bind at 1.
  pose proof (call_strategy_func_keeps E r on_stop st HJ) as HJ1.
  destruct (call_strategy_func_spec E r on_stop s st Ho)
    as (s1 & evs1 & Hcall & _ & _ & _ & _ & _).
  rewrite Hcall in HJ1 |- *. simpl in HJ1.
  set (st1 := with_trace (trace st ++ Called r on_stop :: evs1)
                (with_objects (<[r:=s1]> (objects st)) st)) in *.
  unfold bind at 1. cbn [update_object modify fst snd].
  set (st2 := with_objects (alter (set_trading false) r (objects st1)) st1).
  assert (HJ2 : engine_inv st2).
  { apply (update_object_keeps r (set_trading false) ltac:(done) st1 HJ1). }
  assert (Hlt : (r < length (objects st))%nat) by (by eapply lookup_lt_Some).
  assert (Hq2 : not_trading r st2).
  { exists (set_trading false s1). split; [|done]. simpl.
    by rewrite list_lookup_alter_eq, list_lookup_insert_eq. }
  destruct (cancel_all_spec E name r st2 HJ2 Hs)
    as (st3 & Hcancel & HJ3 & Hstr3 & _ & Hsom3 & _).
  pose proof (cancel_all_not_trading E r r st2 Hq2) as Hq3.
  pose proof (cancel_all_grows E r st2) as [evs3 Htr3].
  assert (Hdata3 : preserves strategy_data (cancel_all E r)).
  { unfold cancel_all, cancel_order, cancel_local_stop_order, cancel_server_order,
      call_strategy_func, write_log, put_stop_order_event. frame. }
  specialize (Hdata3 st2).
  rewrite Hcancel in Hq3, Htr3, Hdata3. simpl in Hq3, Htr3, Hdata3.
  unfold bind at 1. rewrite Hcancel.
  destruct Hq3 as (s3 & Ho3 & Ht3).
  assert (Hname3 : strategy_name s3 = name).
  { assert (Hs3 : strategies st3 !! name = Some r) by (rewrite Hstr3; exact Hs).
    pose proof (proj1 HJ3 _ _ Hs3) as Hn.
    unfold name_of in Hn. rewrite Ho3 in Hn. simpl in Hn. congruence. }
  unfold bind at 1. unfold sync_strategy_data.
  unfold bind at 1. unfold deref. rewrite Ho3.
  unfold bind at 1. simpl. unfold put_strategy_event.
  unfold bind at 1. unfold deref. simpl. rewrite Ho3. simpl.
  exists (with_trace
            ((trace st3 ++ [SaveData (<[strategy_name s3:=get_variables s3]> (strategy_data st3))])
             ++ [Put (EVENT_CTA_STRATEGY s3)])
            (with_strategy_data (<[strategy_name s3:=get_variables s3]> (strategy_data st3)) st3)),
    s3, (evs1 ++ evs3).
  split; [done|]. split.
  { apply (put_strategy_event_keeps r), (sync_strategy_data_keeps r) in HJ3.
    unfold put_strategy_event, sync_strategy_data, bind, deref in HJ3.
    rewrite Ho3 in HJ3. simpl in HJ3. rewrite Ho3 in HJ3. exact HJ3. }
  simpl. split; [done|]. split; [done|]. split; [done|].
  split; [by rewrite Hname3, Hdata3|]. split; [done|].
  rewrite Hname3, Hdata3, Htr3. simpl.
  rewrite <- !(assoc_L (++)). simpl. by rewrite <- ?(assoc_L (++)).
Qed.


Lemma demo_start_steps_strategy :
  strategies (run demo_start_steps (new_engine demo_classes ["GW.1"; "GW.2"])) !! "s1"
  = Some 0%nat.
Proof. vm_compute. reflexivity. Defined.

Lemma demo_start_steps_object :
  objects (run demo_start_steps (new_engine demo_classes ["GW.1"; "GW.2"])) !! 0%nat
  = Some demo_strategy.
Proof. vm_compute. reflexivity. Defined.


(** The loop of [stop_all_strategies] over names of the collection. *)
Lemma stop_all_strategies_spec (E : Env) (keys : list string) (st : CtaEngine) :
  engine_inv st →
  (∀ n, n ∈ keys → is_Some (strategies st !! n)) →
  ∃ st',
    stop_all_strategies E keys st = (Ok tt, st')
    ∧ engine_inv st'
    ∧ strategies st' = strategies st
    ∧ (∀ r, not_trading r st → not_trading r st')
    ∧ (∀ n r, n ∈ keys → strategies st !! n = Some r → not_trading r st').
Proof.
  unfold stop_all_strategies. revert st.
  induction keys as [|n keys IH]; intros st HJ Hkeys.
  - exists st. split; [done|]. split; [done|]. split; [done|]. split; [done|].
    intros n r Hn. by apply elem_of_nil in Hn.
  - destruct (Hkeys n ltac:(left)) as [r Hr].
    pose proof (proj1 HJ _ _ Hr) as Hname. unfold name_of in Hname.
    destruct (objects st !! r) as [s|] eqn:Ho; [|done].
    destruct (stop_strategy_spec E n r s st HJ Hr Ho) as [Hidle Hstop].
    assert (H1 : ∃ st1, stop_strategy E n st = (Ok tt, st1)
                        ∧ engine_inv st1 ∧ strategies st1 = strategies st
                        ∧ not_trading r st1).
    { destruct (trading s) eqn:Ht.
      - destruct (Hstop eq_refl) as (st1 & s1 & evs & Hrun & HJ1 & Hstr1 & Ho1 & Ht1 & _).
        exists st1. split; [done|]. split; [done|]. split; [done|]. by exists s1.
      - exists st. split; [by apply Hidle|]. split; [done|]. split; [done|]. by exists s. }
    destruct H1 as (st1 & Hrun1 & HJ1 & Hstr1 & Hq1).
    pose proof (stop_strategy_not_trading E) as Hkeep.
    destruct (IH st1 HJ1) as (st' & Hloop & HJ' & Hstr' & Hkeep' & Hall').
    { intros m Hm. rewrite Hstr1. apply Hkeys. by right. }
    exists st'. cbn [for_each]. unfold bind at 1. rewrite Hrun1.
    split; [done|]. split; [done|]. split; [congruence|]. split.
    + intros r' Hr'. apply Hkeep'. specialize (Hkeep r' n st Hr').
      by rewrite Hrun1 in Hkeep.
    + intros m r' Hm Hr'. apply elem_of_cons in Hm as [->|Hm].
      * assert (r' = r) as -> by congruence. by apply Hkeep'.
      * apply (Hall' m); [done|]. by rewrite Hstr1.
Qed.


Lemma demo_start_steps_keys (n : string) :
  n ∈ ["s1"]
  ↔ is_Some (strategies (run demo_start_steps (new_engine demo_classes ["GW.1"; "GW.2"]))
             !! n).
Proof.
  assert (Hmap : strategies (run demo_start_steps (new_engine demo_classes ["GW.1"; "GW.2"]))
                 = {[ "s1" := 0%nat ]}) by (vm_compute; reflexivity).
  rewrite Hmap. split.
  - intros Hn. apply list_elem_of_singleton in Hn as ->.
    exists 0%nat. apply lookup_singleton_eq.
  - intros [r Hr]. apply lookup_singleton_Some in Hr as [<- _]. left.
Defined.


(** * Starting strategies *)

Lemma list_insert_alter_eq (l : list Strategy) (r : nat) (s : Strategy) (f : Strategy → Strategy) :
  alter f r (<[r := s]> l) = <[r := f s]> l.
Proof.
  apply list_eq. intros i. destruct (decide (i = r)) as [->|Hne].
  - rewrite list_lookup_alter_eq. destruct (decide (r < length l)%nat) as [Hlt|Hge].
    + by rewrite !list_lookup_insert_eq.
    + by rewrite !(lookup_ge_None_2 _ r) by (rewrite ?length_insert; lia).
  - rewrite list_lookup_alter_ne by done. by rewrite !list_lookup_insert_ne.
Qed.

(** What [start_strategy] does, case by case. *)
Lemma start_strategy_spec (E : Env) (name : string) (r : nat) (s : Strategy) (st : CtaEngine) :
  strategies st !! name = Some r →
  objects st !! r = Some s →
  (inited s = false →
   start_strategy E name st
   = (Ok tt, with_trace (trace st ++ [log_of (LogStartNotInited (strategy_name s))]) st))
  ∧ (inited s = true → trading s = true →
     start_strategy E name st
     = (Ok tt, with_trace (trace st ++ [log_of (LogAlreadyStarted name)]) st))
  ∧ (inited s = true → trading s = false →
     ∃ s' evs,
       start_strategy E name st
       = (Ok tt, with_trace (trace st ++ Called r on_start :: evs
                               ++ [Put (EVENT_CTA_STRATEGY s')])
                   (with_objects (<[r := s']> (objects st)) st))
       ∧ trading s' = true
       ∧ strategy_name s' = strategy_name s
       ∧ Forall (λ e, is_log_event e = true) evs
       ∧ (raised (callback E s on_start) = None →
          evs = []
          ∧ s' = set_trading true (set_values (new_values (callback E s on_start)) s))).
Proof.
  intros Hs Ho. split; [|split].
  - intros Hi. unfold start_strategy.
    unfold bind at 1. unfold strategies_getitem. rewrite Hs.
    unfold bind at 1. unfold deref. rewrite Ho. cbv beta iota. by rewrite Hi.
  - intros Hi Ht. unfold start_strategy.
    unfold bind at 1. unfold strategies_getitem. rewrite Hs.
    unfold bind at 1. unfold deref. rewrite Ho. cbv beta iota. by rewrite Hi, Ht.
  - intros Hi Ht. unfold start_strategy.
    unfold bind at 1. unfold strategies_getitem. rewrite Hs.
    unfold bind at 1. unfold deref. rewrite Ho. cbv beta iota. rewrite Hi, Ht.
    cbn [negb]. unfold bind at 1.
    destruct (call_strategy_func_spec E r on_start s st Ho)
      as (s1 & evs & Hcall & Hname & _ & _ & Hret & Hevs).
    rewrite Hcall. unfold bind at 1. cbn [update_object modify fst snd].
    assert (Hlt : (r < length (objects st))%nat) by (by eapply lookup_lt_Some).
    unfold put_strategy_event. unfold bind at 1. unfold deref. simpl.
    rewrite list_insert_alter_eq, list_lookup_insert_eq by done. simpl.
    exists (set_trading true s1), evs. split.
    { unfold emit, modify. simpl. by rewrite <- !(assoc_L (++)). }
    split; [done|]. split; [done|]. split; [done|].
    intros Hnone. specialize (Hret Hnone). subst s1. split; [|done].
    revert Hcall. erewrite call_strategy_func_returned by done.
    intros Heq. apply (f_equal (λ p, trace (snd p))) in Heq. simpl in Heq.
    apply app_inv_head in Heq. by injection Heq.
Qed.

(** X10: [start_strategy] refuses a strategy that is not initialized and
    one that is trading already: it puts out a log and nothing else
    happens, no callback is called. For an initialized strategy that is
    not trading, whose [on_start] returns, the call is recorded, the
    strategy holds the variables [on_start] left and is trading, and the
    strategy event is put out; with an [on_start] that changes the
    variables of its strategy only and does not call the engine (as every
    callback here), nothing else of the state changes. *)
Theorem start_strategy_guards (E : Env) (name : string) (r : nat) (s : Strategy)
    (st : CtaEngine) :
  strategies st !! name = Some r →
  objects st !! r = Some s →
  (inited s = false →
   start_strategy E name st
   = (Ok tt, with_trace (trace st ++ [log_of (LogStartNotInited (strategy_name s))]) st))
  ∧ (inited s = true → trading s = true →
     start_strategy E name st
     = (Ok tt, with_trace (trace st ++ [log_of (LogAlreadyStarted name)]) st))
  ∧ (inited s = true → trading s = false →
     raised (callback E s on_start) = None →
     start_strategy E name st
     = (Ok tt,
        let s' := set_trading true (set_values (new_values (callback E s on_start)) s) in
        with_trace (trace st ++ [Called r on_start; Put (EVENT_CTA_STRATEGY s')])
          (with_objects (<[r := s']> (objects st)) st))).
Proof.
  intros Hs Ho. destruct (start_strategy_spec E name r s st Hs Ho) as (H1 & H2 & H3).
  split; [done|]. split; [done|]. intros Hi Ht Hnone.
  destruct (H3 Hi Ht) as (s' & evs & Hrun & _ & _ & _ & Hret).
  destruct (Hret Hnone) as [-> ->]. exact Hrun.
Qed.

Lemma demo_inited_engine_strategy : strategies demo_inited_engine !! "s1" = Some 0%nat.
Proof. vm_compute. reflexivity. Defined.

Lemma demo_inited_engine_object :
  objects demo_inited_engine !! 0%nat = Some demo_inited_strategy.
Proof. vm_compute. reflexivity. Defined.

Lemma start_strategy_guards_witness :
  start_strategy (demo_env false) "s1" demo_inited_engine
  = (Ok tt,
     let s' := set_trading true
                 (set_values (new_values (callback (demo_env false) demo_inited_strategy
                                            on_start)) demo_inited_strategy) in
     with_trace (trace demo_inited_engine ++ [Called 0 on_start; Put (EVENT_CTA_STRATEGY s')])
       (with_objects (<[0%nat := s']> (objects demo_inited_engine)) demo_inited_engine)).
Proof.
  exact (proj2 (proj2 (start_strategy_guards (demo_env false) "s1" 0 demo_inited_strategy
                         demo_inited_engine demo_inited_engine_strategy
                         demo_inited_engine_object))
           eq_refl eq_refl eq_refl).
Defined.

Lemma start_strategy_frame (E : Env) (name : string) (r : nat) (s : Strategy) (st : CtaEngine) :
  strategies st !! name = Some r →
  objects st !! r = Some s →
  ∃ st' s',
    start_strategy E name st = (Ok tt, st')
    ∧ strategies st' = strategies st
    ∧ objects st' = <[r := s']> (objects st)
    ∧ (inited s = true → trading s' = true)
    ∧ (inited s = false → s' = s)
    ∧ (trading s = true → trading s' = true).
Proof.
  intros Hs Ho. destruct (start_strategy_spec E name r s st Hs Ho) as (H1 & H2 & H3).
  destruct (inited s) eqn:Hi; [destruct (trading s) eqn:Ht|].
  - eexists _, s. split; [by apply H2|]. simpl.
    split; [done|]. split; [by rewrite list_insert_id|]. done.
  - destruct (H3 eq_refl eq_refl) as (s' & evs & Hrun & Ht' & _).
    eexists _, s'. split; [exact Hrun|]. simpl. repeat split; try done; auto.
  - eexists _, s. split; [by apply H1|]. simpl.
    split; [done|]. split; [by rewrite list_insert_id|]. done.
Qed.

Lemma start_all_strategies_spec (E : Env) (keys : list string) (st : CtaEngine) :
  (∀ n, n ∈ keys → ∃ r, strategies st !! n = Some r ∧ is_Some (objects st !! r)) →
  ∃ st',
    start_all_strategies E keys st = (Ok tt, st')
    ∧ strategies st' = strategies st
    ∧ (∀ r s, objects st !! r = Some s →
              ∃ s', objects st' !! r = Some s'
                    ∧ (s' = s ∨ (inited s = true ∧ trading s' = true)))
    ∧ (∀ n r s, n ∈ keys → strategies st !! n = Some r → objects st !! r = Some s →
                inited s = true →
                ∃ s', objects st' !! r = Some s' ∧ trading s' = true).
Proof.
  unfold start_all_strategies. revert st.
  induction keys as [|n keys IH]; intros st Hkeys.
  - exists st. split; [done|]. split; [done|]. split; [eauto|].
    intros n r s Hn. by apply elem_of_nil in Hn.
  - destruct (Hkeys n ltac:(left)) as (r & Hr & [s Ho]).
    destruct (start_strategy_frame E n r s st Hr Ho)
      as (st1 & s1 & Hrun1 & Hstr1 & Hobj1 & Hi1 & Hn1 & Ht1).
    assert (Hlt : (r < length (objects st))%nat) by (by eapply lookup_lt_Some).
    destruct (IH st1) as (st' & Hloop & Hstr' & Hobj' & Hall').
    { intros m Hm. destruct (Hkeys m ltac:(by right)) as (r' & Hr' & [s' Ho']).
      exists r'. rewrite Hstr1. split; [done|]. rewrite Hobj1.
      destruct (decide (r' = r)) as [->|Hne].
      - rewrite list_lookup_insert_eq by done. eauto.
      - rewrite list_lookup_insert_ne by done. eauto. }
    exists st'. cbn [for_each]. unfold bind at 1. rewrite Hrun1.
    split; [done|]. split; [congruence|].
    assert (Hstep : ∀ r' s', objects st !! r' = Some s' →
              ∃ s1', objects st1 !! r' = Some s1'
                     ∧ (inited s' = true → trading s1' = true ∨ s1' = s')
                     ∧ (inited s' = false → s1' = s')
                     ∧ (r' = r → inited s' = true → trading s1' = true)).
    { intros r' s' Ho'. rewrite Hobj1. destruct (decide (r' = r)) as [->|Hne].
      - rewrite list_lookup_insert_eq by done. exists s1.
        assert (s' = s) as -> by congruence.
        split; [done|]. split; [intros; left; auto|]. split; auto.
      - rewrite list_lookup_insert_ne by done. exists s'. split; [done|].
        split; [intros; by right|]. split; [done|]. done. }
    split.
    + intros r' s' Ho'. destruct (Hstep r' s' Ho') as (s1' & Ho1' & Ha & Hb & _).
      destruct (Hobj' r' s1' Ho1') as (s2 & Ho2 & Hrel).
      exists s2. split; [done|].
      destruct (inited s') eqn:Hi'.
      * destruct Hrel as [->|[_ Ht2]]; [|by right].
        destruct (Ha eq_refl) as [Ht| ->]; [by right|by left].
      * rewrite (Hb eq_refl) in Hrel. destruct Hrel as [->|[? _]]; [by left|congruence].
    + intros m r' s' Hm Hr' Ho' Hi'.
      destruct (Hstep r' s' Ho') as (s1' & Ho1' & Ha & _ & Hc).
      destruct (Hobj' r' s1' Ho1') as (s2 & Ho2 & Hrel).
      apply elem_of_cons in Hm as [->|Hm].
      * assert (r' = r) as -> by congruence.
        exists s2. split; [done|]. destruct Hrel as [->|[_ ?]]; [|done]. by apply Hc.
      * destruct (Ha Hi') as [Ht| ->].
        -- exists s2. split; [done|]. destruct Hrel as [->|[_ ?]]; done.
        -- apply (Hall' m r' s'); try done. by rewrite Hstr1.
Qed.

(** X11: [start_all_strategies] over names of the collection returns
    without an exception and leaves the collection as it is. Every
    strategy it went through that was initialized is trading afterwards;
    one that was not initialized is exactly as it was. *)
Theorem start_all_strategies_starts_initialized (E : Env) (keys : list string)
    (st : CtaEngine) :
  (∀ n, n ∈ keys → ∃ r, strategies st !! n = Some r ∧ is_Some (objects st !! r)) →
  ∃ st',
    start_all_strategies E keys st = (Ok tt, st')
    ∧ strategies st' = strategies st
    ∧ ∀ n r s, n ∈ keys → strategies st !! n = Some r → objects st !! r = Some s →
        ∃ s', objects st' !! r = Some s'
              ∧ (inited s = true → trading s' = true)
              ∧ (inited s = false → s' = s).
Proof.
  intros Hkeys.
  destruct (start_all_strategies_spec E keys st Hkeys) as (st' & Hrun & Hstr & Hobj & Hall).
  exists st'. split; [done|]. split; [done|].
  intros n r s Hn Hr Ho. destruct (Hobj r s Ho) as (s' & Ho' & Hrel).
  exists s'. split; [done|]. split.
  - intros Hi. destruct (Hall n r s Hn Hr Ho Hi) as (s'' & Ho'' & Ht). congruence.
  - intros Hi. destruct Hrel as [->|[? _]]; [done|congruence].
Qed.

Lemma start_all_strategies_starts_initialized_witness :
  ∃ st',
    start_all_strategies (demo_env false) ["s1"] demo_inited_engine = (Ok tt, st')
    ∧ ∃ s', objects st' !! 0%nat = Some s' ∧ trading s' = true.
Proof.
  destruct (start_all_strategies_starts_initialized (demo_env false) ["s1"]
              demo_inited_engine) as (st' & Hrun & _ & Hall).
  - intros n Hn. apply list_elem_of_singleton in Hn as ->.
    exists 0%nat. split; [exact demo_inited_engine_strategy|].
    exists demo_inited_strategy. exact demo_inited_engine_object.
  - exists st'. split; [exact Hrun|].
    destruct (Hall "s1" 0%nat demo_inited_strategy ltac:(left)
                demo_inited_engine_strategy demo_inited_engine_object)
      as (s' & Ho & Hi & _).
    exists s'. split; [exact Ho | exact (Hi eq_refl)].
Defined.

(** * Adding and removing strategies *)

Lemma str_split_contains symbol prefix suffix :
  str_split "." symbol = [prefix; suffix] → str_contains "." symbol = true.
Proof.
  revert prefix. induction symbol as [|a symbol IH]; intros prefix Hsplit; simpl in *; [done|].
  destruct (Ascii.eqb a "."); [done|]. simpl.
  destruct (str_split "." symbol) as [|h t] eqn:Hs; [done|].
  inversion Hsplit; subst. by eapply IH.
Qed.

(** [add_strategy] with a new name, a loaded class and an instrument
    identifier of two parts whose second is an exchange. *)
Lemma add_strategy_done (E : Env) (cname name symbol : string) (setting : gmap string Q)
    (cls : StrategyClass) (prefix suffix : string) (st : CtaEngine) :
  strategies st !! name = None →
  classes st !! cname = Some cls →
  str_split "." symbol = [prefix; suffix] →
  suffix ∈ exchange_members E →
  add_strategy E cname name symbol setting st
  = (Ok tt,
     strategy_added name symbol (new_strategy cls cname name symbol setting)
       {| cfg_class_name := cname; cfg_vt_symbol := symbol; cfg_setting := setting |} st).
Proof.
  intros Hnew Hcls Hsplit Hex. unfold add_strategy, strategy_added.
  set (s := new_strategy cls cname name symbol setting).
  unfold bind at 1. simpl.
  rewrite decide_False by (rewrite Hnew; apply is_Some_None).
  rewrite Hcls, (str_split_contains _ _ _ Hsplit), Hsplit. simpl.
  rewrite bool_decide_eq_true_2 by done. simpl.
  unfold bind at 1. simpl. unfold bind at 1. simpl.
  unfold bind at 1. unfold symbol_strategy_map_getitem. simpl.
  assert (Hlast : (objects st ++ [s]) !! length (objects st) = Some s).
  { by rewrite lookup_app_r, Nat.sub_diag. }
  destruct (symbol_strategy_map st !! symbol) as [l|] eqn:Hl; simpl.
  - unfold update_strategy_setting, put_strategy_event, bind, strategies_getitem, deref,
      emit, modify, get. simpl.
    rewrite lookup_insert_eq. simpl. fold s. rewrite Hlast. simpl. rewrite Hlast.
    simpl. by rewrite <- (assoc_L (++)).
  - unfold update_strategy_setting, put_strategy_event, bind, strategies_getitem, deref,
      emit, modify, get. simpl.
    rewrite lookup_insert_eq. simpl. fold s. rewrite Hlast. simpl. rewrite Hlast.
    simpl. by rewrite insert_insert_eq, <- (assoc_L (++)).
Qed.

(** X12: [add_strategy] with a name that is new, a class that is loaded and
    an instrument identifier of two parts, the second an exchange, makes a
    strategy that is neither initialized nor trading, registers it under
    the name, appends it to the list of its instrument, stores its
    configuration in the settings and saves them, and puts out the
    strategy event. The order-id maps and the registry are untouched. *)
Theorem add_strategy_registers (E : Env) (cname name symbol : string)
    (setting : gmap string Q) (cls : StrategyClass) (prefix suffix : string)
    (st : CtaEngine) :
  strategies st !! name = None →
  classes st !! cname = Some cls →
  str_split "." symbol = [prefix; suffix] →
  suffix ∈ exchange_members E →
  let r := length (objects st) in
  let s := new_strategy cls cname name symbol setting in
  ∃ st',
    add_strategy E cname name symbol setting st = (Ok tt, st')
    ∧ strategies st' = <[name := r]> (strategies st)
    ∧ objects st' = objects st ++ [s]
    ∧ objects st' !! r = Some s
    ∧ inited s = false ∧ trading s = false
    ∧ symbol_strategy_map st'
      = <[symbol := default [] (symbol_strategy_map st !! symbol) ++ [r]]>
          (symbol_strategy_map st)
    ∧ strategy_setting st'
      = <[name := {| cfg_class_name := cname; cfg_vt_symbol := symbol;
                     cfg_setting := setting |}]> (strategy_setting st)
    ∧ trace st'
      = trace st ++ [SaveSetting (strategy_setting st'); Put (EVENT_CTA_STRATEGY s)]
    ∧ orderid_strategy_map st' = orderid_strategy_map st
    ∧ strategy_orderid_map st' = strategy_orderid_map st
    ∧ stop_orders st' = stop_orders st.
Proof.
  intros Hnew Hcls Hsplit Hex r s. eexists. split; [by eapply add_strategy_done|].
  simpl. repeat split. by rewrite lookup_app_r, Nat.sub_diag.
Qed.

Lemma add_strategy_registers_witness :
  ∃ st',
    add_strategy (demo_env false) "StratA" "s2" "Y.SSE" ∅ demo_engine = (Ok tt, st')
    ∧ strategies st' = <[ "s2" := length (objects demo_engine) ]> (strategies demo_engine).
Proof.
  destruct (add_strategy_registers (demo_env false) "StratA" "s2" "Y.SSE" ∅
              {| cls_variables := ["pos"] |} "Y" "SSE" demo_engine)
    as (st' & Hrun & Hstr & _).
  - vm_compute. reflexivity.
  - vm_compute. reflexivity.
  - reflexivity.
  - apply (bool_decide_unpack _). vm_compute. reflexivity.
  - exists st'. split; [exact Hrun | exact Hstr].
Defined.

(** ** The collection and the lists of the instruments agree *)

Lemma subscriptions_ok_objects st (objs : list Strategy) :
  subscriptions_ok st →
  (∀ r s, objects st !! r = Some s →
          ∃ s', objs !! r = Some s' ∧ strategy_name s' = strategy_name s
                ∧ vt_symbol s' = vt_symbol s) →
  subscriptions_ok (with_objects objs st).
Proof.
  intros [H1 H2] Hobjs. split.
  - intros n r Hr. destruct (H1 n r Hr) as (s & Ho & Hn & Hin & Hcfg).
    destruct (Hobjs r s Ho) as (s' & Ho' & Hn' & Hsym'). exists s'. simpl.
    rewrite Hn', Hsym'. done.
  - intros symbol l Hl. destruct (H2 symbol l Hl) as [Hnd Hall]. split; [done|].
    intros r Hr. destruct (Hall r Hr) as (s & Ho & Hsym & Hs).
    destruct (Hobjs r s Ho) as (s' & Ho' & Hn' & Hsym'). exists s'. simpl.
    rewrite Hn', Hsym'. done.
Qed.

Lemma update_object_subs r f :
  (∀ s, strategy_name (f s) = strategy_name s) →
  (∀ s, vt_symbol (f s) = vt_symbol s) →
  stable (carried subscriptions_ok) (update_object r f).
Proof.
  intros Hname Hsym st. unfold carried. intros HJ. unfold update_object, modify. simpl.
  apply subscriptions_ok_objects; [done|]. intros r' s Ho.
  destruct (decide (r' = r)) as [->|Hne].
  - exists (f s). by rewrite list_lookup_alter_eq, Ho.
  - exists s. by rewrite list_lookup_alter_ne.
Qed.

Lemma setattr_vt_symbol name value s : vt_symbol (setattr name value s) = vt_symbol s.
Proof. unfold setattr. by case_decide. Qed.

Lemma symbol_strategy_map_getitem_subs symbol :
  stable (carried subscriptions_ok) (symbol_strategy_map_getitem symbol).
Proof.
  intros st. unfold carried. intros [H1 H2]. unfold symbol_strategy_map_getitem.
  destruct (symbol_strategy_map st !! symbol) as [l|] eqn:Hl; [done|]. simpl. split.
  - intros n r Hr. destruct (H1 n r Hr) as (s & Ho & Hn & Hin & Hcfg).
    exists s. simpl. split; [done|]. split; [done|]. split; [|done].
    destruct (decide (vt_symbol s = symbol)) as [<-|Hne].
    + rewrite Hl in Hin. by apply elem_of_nil in Hin.
    + by rewrite lookup_insert_ne.
  - intros sym l Hsym. simpl in Hsym. destruct (decide (sym = symbol)) as [->|Hne].
    + rewrite lookup_insert_eq in Hsym. injection Hsym as <-. split; [constructor|].
      intros r Hr. by apply elem_of_nil in Hr.
    + rewrite lookup_insert_ne in Hsym by done. by apply H2.
Qed.

Lemma update_strategy_setting_subs name setting :
  stable (carried subscriptions_ok) (update_strategy_setting name setting).
Proof.
  intros st. unfold carried. intros [H1 H2].
  unfold update_strategy_setting, bind, strategies_getitem, deref.
  destruct (strategies st !! name) as [r|]; [|done].
  destruct (objects st !! r) as [s|]; [|done]. simpl. split; [|done].
  intros n r' Hr'. destruct (H1 n r' Hr') as (s' & Ho & Hn & Hin & Hcfg).
  exists s'. simpl. split; [done|]. split; [done|]. split; [done|].
  destruct (decide (n = name)) as [->|Hne].
  - rewrite lookup_insert_eq. eauto.
  - by rewrite lookup_insert_ne.
Qed.

Create HintDb subs.

#[local] Hint Resolve symbol_strategy_map_getitem_subs update_strategy_setting_subs : subs.

#[local] Hint Extern 1 (stable _ (update_object _ _)) =>
  apply update_object_subs;
  first [ intros ?; reflexivity | apply setattr_name | apply setattr_vt_symbol ] : subs.

Ltac subs_prim :=
  let st := fresh "st" in
  let HJ := fresh "HJ" in
  intros st; unfold carried;
  cbv [emit deref strategies_getitem strategy_orderid_map_getitem
       strategy_orderid_map_store main_engine_send_order modify get ret raise];
  repeat case_match; intros HJ; exact HJ.

Ltac subs_step :=
  lazymatch goal with
  | |- stable _ (bind _ _) => apply stable_bind; [apply _ | | intros ?]
  | |- stable _ (ret _) => apply stable_ret; apply _
  | |- stable _ (raise _) => apply stable_raise; apply _
  | |- stable _ get => apply stable_get; apply _
  | |- stable _ (for_each _ _) => apply stable_for_each; [apply _ | intros ?]
  | |- stable _ (match ?x with _ => _ end) => destruct x
  | |- stable _ (let _ := _ in _) => cbv zeta
  | |- stable _ _ => first [ solve [auto with subs] | subs_prim ]
  end.

Ltac subs := repeat subs_step.

Lemma call_strategy_func_subs E r c :
  stable (carried subscriptions_ok) (call_strategy_func E r c).
Proof. unfold call_strategy_func, write_log. subs. Qed.
#[local] Hint Resolve call_strategy_func_subs : subs.

Lemma send_requests_subs r name gw reqs acc :
  stable (carried subscriptions_ok) (send_requests r name gw reqs acc).
Proof. revert acc. induction reqs as [|req reqs IH]; intros acc; simpl; subs. Qed.
#[local] Hint Resolve send_requests_subs : subs.

Lemma send_order_subs E r direction offset price volume stop lock net :
  stable (carried subscriptions_ok)
    (send_order E r direction offset price volume stop lock net).
Proof.
  unfold send_order, send_server_stop_order, send_limit_order, send_server_order,
    send_local_stop_order, write_log, put_stop_order_event.
  subs.
Qed.

Lemma cancel_order_subs E r id : stable (carried subscriptions_ok) (cancel_order E r id).
Proof.
  unfold cancel_order, cancel_local_stop_order, cancel_server_order, write_log,
    put_stop_order_event.
  subs.
Qed.
#[local] Hint Resolve cancel_order_subs : subs.

Lemma cancel_all_subs E r : stable (carried subscriptions_ok) (cancel_all E r).
Proof. unfold cancel_all. subs. Qed.
#[local] Hint Resolve cancel_all_subs : subs.

Lemma process_tick_event_subs E tick :
  stable (carried subscriptions_ok) (process_tick_event E tick).
Proof.
  unfold process_tick_event, check_stop_order, check_one_stop_order, send_limit_order,
    send_server_order, put_stop_order_event.
  subs.
Qed.

Lemma process_order_event_subs E order :
  stable (carried subscriptions_ok) (process_order_event E order).
Proof. unfold process_order_event. subs. Qed.

Lemma process_trade_event_subs E trade :
  stable (carried subscriptions_ok) (process_trade_event E trade).
Proof. unfold process_trade_event, sync_strategy_data, put_strategy_event. subs. Qed.

Lemma init_strategy_subs E name : stable (carried subscriptions_ok) (_init_strategy E name).
Proof. unfold _init_strategy, write_log, put_strategy_event. subs. Qed.

Lemma start_strategy_subs E name : stable (carried subscriptions_ok) (start_strategy E name).
Proof. unfold start_strategy, write_log, put_strategy_event. subs. Qed.

Lemma stop_strategy_subs E name : stable (carried subscriptions_ok) (stop_strategy E name).
Proof. unfold stop_strategy, sync_strategy_data, put_strategy_event. subs. Qed.

Lemma edit_strategy_subs name setting :
  stable (carried subscriptions_ok) (edit_strategy name setting).
Proof. unfold edit_strategy, put_strategy_event. subs. Qed.

Lemma subscriptions_ok_added st name symbol s config :
  subscriptions_ok st →
  strategies st !! name = None →
  strategy_name s = name →
  vt_symbol s = symbol →
  subscriptions_ok (strategy_added name symbol s config st).
Proof.
  intros [H1 H2] Hnew Hname Hsym. unfold strategy_added.
  set (r := length (objects st)).
  assert (Hfresh : ∀ r' s', objects st !! r' = Some s' → r' ≠ r).
  { intros r' s' Ho ->. apply lookup_lt_Some in Ho. unfold r in Ho. lia. }
  assert (Hlast : (objects st ++ [s]) !! r = Some s).
  { unfold r. by rewrite lookup_app_r, Nat.sub_diag. }
  split; simpl.
  - intros n r' Hr'. destruct (decide (n = name)) as [->|Hne].
    + rewrite lookup_insert_eq in Hr'. injection Hr' as <-.
      exists s. split; [done|]. split; [done|]. rewrite Hsym, !lookup_insert_eq. simpl.
      split; [|eauto]. apply elem_of_app. right. by left.
    + rewrite lookup_insert_ne in Hr' by done.
      destruct (H1 n r' Hr') as (s' & Ho & Hn & Hin & Hcfg).
      exists s'. split; [by apply lookup_app_l_Some|]. split; [done|].
      split; [|by rewrite lookup_insert_ne].
      destruct (decide (vt_symbol s' = symbol)) as [Heq|Hneq].
      * rewrite Heq in Hin |- *. rewrite lookup_insert_eq. simpl.
        apply elem_of_app. by left.
      * by rewrite lookup_insert_ne.
  - intros sym l Hl.
    assert (Hold : ∀ r' s', objects st !! r' = Some s' →
              strategies st !! strategy_name s' = Some r' →
              objects (with_objects (objects st ++ [s]) st) !! r' = Some s'
              ∧ <[name := r]> (strategies st) !! strategy_name s' = Some r').
    { intros r' s' Ho Hs. split; [by apply lookup_app_l_Some|].
      rewrite lookup_insert_ne; [done|]. intros Heq. rewrite <- Heq in Hs. congruence. }
    destruct (decide (sym = symbol)) as [->|Hne].
    + rewrite lookup_insert_eq in Hl. injection Hl as <-.
      destruct (symbol_strategy_map st !! symbol) as [l0|] eqn:Hl0; simpl.
      * destruct (H2 symbol l0 Hl0) as [Hnd Hall]. split.
        -- apply NoDup_app. split; [done|]. split; [|apply NoDup_singleton].
           intros x Hx Hx'. apply list_elem_of_singleton in Hx' as ->.
           destruct (Hall r Hx) as (s' & Ho & _). by apply (Hfresh r s').
        -- intros r' Hr'. apply elem_of_app in Hr' as [Hr'|Hr'].
           ++ destruct (Hall r' Hr') as (s' & Ho & Hsym' & Hs').
              exists s'. destruct (Hold r' s' Ho Hs'). done.
           ++ apply list_elem_of_singleton in Hr' as ->. exists s.
              rewrite Hname, lookup_insert_eq. done.
      * split; [apply NoDup_singleton|]. intros r' Hr'.
        apply list_elem_of_singleton in Hr' as ->. exists s.
        rewrite Hname, lookup_insert_eq. done.
    + rewrite lookup_insert_ne in Hl by done.
      destruct (H2 sym l Hl) as [Hnd Hall]. split; [done|].
      intros r' Hr'. destruct (Hall r' Hr') as (s' & Ho & Hsym' & Hs').
      exists s'. destruct (Hold r' s' Ho Hs'). done.
Qed.

Lemma add_strategy_subs E cname name symbol setting :
  stable (carried subscriptions_ok) (add_strategy E cname name symbol setting).
Proof.
  intros st. unfold carried. intros HJ.
  destruct (add_strategy_rejects E cname name symbol setting st) as (R1 & R2 & R3 & R4).
  destruct (strategies st !! name) as [r|] eqn:Hname.
  { rewrite R1 by eauto. exact HJ. }
  destruct (classes st !! cname) as [cls|] eqn:Hcls.
  2:{ rewrite R2 by done. exact HJ. }
  destruct (str_contains "." symbol) eqn:Hdot.
  2:{ rewrite R3 by eauto. exact HJ. }
  destruct (decide (length (str_split "." symbol) = 2%nat)) as [Hlen|Hlen].
  2:{ rewrite add_strategy_unpack_error by eauto. exact HJ. }
  destruct (str_split "." symbol) as [|prefix [|suffix [|x t]]] eqn:Hsplit; try done.
  destruct (decide (suffix ∈ exchange_members E)) as [Hex|Hex].
  2:{ rewrite (R4 eq_refl ltac:(eauto) prefix suffix) by done. exact HJ. }
  erewrite add_strategy_done by done. simpl.
  by apply subscriptions_ok_added.
Qed.

Lemma list_remove_spec r l l' :
  list_remove r l = Some l' →
  (∀ x, x ∈ l' → x ∈ l) ∧ (∀ x, x ∈ l → x ≠ r → x ∈ l') ∧ (NoDup l → NoDup l').
Proof.
  revert l'. induction l as [|y l IH]; intros l' Hrm; simpl in Hrm; [done|].
  destruct (decide (r = y)) as [->|Hne].
  - injection Hrm as <-. split; [intros x Hx; by right|]. split.
    + intros x Hx Hxy. apply elem_of_cons in Hx as [?|?]; done.
    + intros Hnd. by apply NoDup_cons in Hnd as [_ ?].
  - destruct (list_remove r l) as [l0|] eqn:Hl0; [|done]. simpl in Hrm.
    injection Hrm as <-. destruct (IH l0 eq_refl) as (IH1 & IH2 & IH3). split; [|split].
    + intros x Hx. apply elem_of_cons in Hx as [->|Hx]; [left|right; auto].
    + intros x Hx Hxr. apply elem_of_cons in Hx as [->|Hx]; [left|right; auto].
    + intros Hnd. apply NoDup_cons in Hnd as [Hy Hnd]. apply NoDup_cons. split; auto.
Qed.

Lemma subscriptions_ok_removed st name r s l l' :
  subscriptions_ok st →
  strategies st !! name = Some r →
  objects st !! r = Some s →
  symbol_strategy_map st !! vt_symbol s = Some l →
  list_remove r l = Some l' →
  subscriptions_ok
    (with_strategies (delete name (strategies st))
       (with_symbol_strategy_map (<[vt_symbol s := l']> (symbol_strategy_map st))
          (with_strategy_setting (delete name (strategy_setting st)) st))).
Proof.
  intros [H1 H2] Hr Ho Hl Hrm.
  destruct (list_remove_spec r l l' Hrm) as (Hsub & Hkeep & Hnd').
  destruct (H2 _ _ Hl) as [Hnd Hall].
  pose proof (list_remove_NoDup r l l' Hrm Hnd) as Hgone.
  assert (Hother : ∀ n r', n ≠ name → strategies st !! n = Some r' → r' ≠ r).
  { intros n r' Hne Hr' ->. destruct (H1 _ _ Hr) as (s1 & Ho1 & Hn1 & _).
    destruct (H1 _ _ Hr') as (s2 & Ho2 & Hn2 & _). congruence. }
  split; simpl.
  - intros n r' Hr'. destruct (decide (n = name)) as [->|Hne].
    { by rewrite lookup_delete_eq in Hr'. }
    rewrite lookup_delete_ne in Hr' by done.
    destruct (H1 n r' Hr') as (s' & Ho' & Hn' & Hin & Hcfg).
    exists s'. split; [done|]. split; [done|]. split; [|by rewrite lookup_delete_ne].
    destruct (decide (vt_symbol s' = vt_symbol s)) as [Heq|Hneq].
    + rewrite Heq in Hin |- *. rewrite lookup_insert_eq. rewrite Hl in Hin. simpl in *.
      apply Hkeep; [done|]. by eapply Hother.
    + by rewrite lookup_insert_ne.
  - intros sym l0 Hl0.
    assert (Hstays : ∀ r' s', r' ≠ r → strategies st !! strategy_name s' = Some r' →
              delete name (strategies st) !! strategy_name s' = Some r').
    { intros r' s' Hne Hs'. rewrite lookup_delete_ne; [done|].
      intros Heq. rewrite <- Heq in Hs'. congruence. }
    destruct (decide (sym = vt_symbol s)) as [->|Hne].
    + rewrite lookup_insert_eq in Hl0. injection Hl0 as <-. split; [auto|].
      intros r' Hr'. destruct (Hall r' (Hsub r' Hr')) as (s' & Ho' & Hsym' & Hs').
      exists s'. split; [done|]. split; [done|]. apply Hstays; [|done].
      intros ->. done.
    + rewrite lookup_insert_ne in Hl0 by done.
      destruct (H2 sym l0 Hl0) as [Hnd0 Hall0]. split; [done|].
      intros r' Hr'. destruct (Hall0 r' Hr') as (s' & Ho' & Hsym' & Hs').
      exists s'. split; [done|]. split; [done|]. apply Hstays; [|done].
      intros ->. congruence.
Qed.

(** [remove_strategy] for a strategy that is not trading and is in the
    list of its instrument. *)
Lemma remove_strategy_done (name : string) (r : nat) (s : Strategy) (l l' : list nat)
    (st : CtaEngine) :
  strategies st !! name = Some r →
  objects st !! r = Some s →
  trading s = false →
  symbol_strategy_map st !! vt_symbol s = Some l →
  list_remove r l = Some l' →
  ∃ st',
    remove_strategy name st = (Ok true, st')
    ∧ strategies st' = delete name (strategies st)
    ∧ symbol_strategy_map st' = <[vt_symbol s := l']> (symbol_strategy_map st)
    ∧ strategy_setting st' = delete name (strategy_setting st)
    ∧ objects st' = objects st
    ∧ stop_orders st' = stop_orders st
    ∧ strategy_orderid_map st' = delete name (strategy_orderid_map st).
Proof.
  intros Hs Ho Ht Hl Hrm. unfold remove_strategy.
  unfold bind at 1. unfold strategies_getitem. rewrite Hs.
  unfold bind at 1. unfold deref. rewrite Ho. cbv beta iota. rewrite Ht.
  unfold bind at 1.
  assert (Hset : ∃ st1, remove_strategy_setting name st = (Ok tt, st1)
                        ∧ strategies st1 = strategies st
                        ∧ symbol_strategy_map st1 = symbol_strategy_map st
                        ∧ strategy_setting st1 = delete name (strategy_setting st)
                        ∧ objects st1 = objects st
                        ∧ stop_orders st1 = stop_orders st
                        ∧ strategy_orderid_map st1 = strategy_orderid_map st).
  { unfold remove_strategy_setting. unfold bind at 1. simpl.
    destruct (strategy_setting st !! name) as [cfg|] eqn:Hcfg.
    - eexists. split; [reflexivity|]. simpl. done.
    - exists st. split; [done|]. repeat split. symmetry. by apply delete_id. }
  destruct Hset as (st1 & Hrun1 & Hstr1 & Hssm1 & Hcfg1 & Hobj1 & Hso1 & Hsom1).
  rewrite Hrun1.
  unfold bind at 1. unfold symbol_strategy_map_getitem. rewrite Hssm1, Hl.
  cbv beta iota. rewrite Hrm.
  unfold bind at 1. simpl. unfold bind at 1. unfold bind at 1. simpl.
  rewrite Hsom1.
  destruct (strategy_orderid_map st !! name) as [ids|] eqn:Hids.
  - unfold bind at 1. simpl. rewrite remove_strategy_loop. simpl.
    eexists. split; [reflexivity|]. simpl.
    rewrite Hstr1, Hssm1, Hcfg1, Hobj1, Hso1, Hsom1. done.
  - simpl. eexists. split; [reflexivity|]. simpl.
    rewrite Hstr1, Hssm1, Hcfg1, Hobj1, Hso1, Hsom1.
    repeat split. symmetry. by apply delete_id.
Qed.

Lemma subscriptions_ok_ext st st' :
  strategies st' = strategies st →
  symbol_strategy_map st' = symbol_strategy_map st →
  strategy_setting st' = strategy_setting st →
  objects st' = objects st →
  subscriptions_ok st → subscriptions_ok st'.
Proof.
  intros H1 H2 H3 H4. unfold subscriptions_ok. by rewrite H1, H2, H3, H4.
Qed.

Lemma remove_strategy_subs name : stable (carried subscriptions_ok) (remove_strategy name).
Proof.
  intros st. unfold carried. intros HJ.
  destruct (strategies st !! name) as [r|] eqn:Hr.
  2:{ unfold remove_strategy, bind, strategies_getitem. by rewrite Hr. }
  destruct (proj1 HJ _ _ Hr) as (s & Ho & Hname & Hin & _).
  destruct (trading s) eqn:Ht.
  { unfold remove_strategy. unfold bind at 1. unfold strategies_getitem. rewrite Hr.
    unfold bind at 1. unfold deref. rewrite Ho. cbv beta iota. rewrite Ht. exact HJ. }
  destruct (symbol_strategy_map st !! vt_symbol s) as [l|] eqn:Hl;
    [|by apply elem_of_nil in Hin].
  destruct (list_remove_elem_of r l Hin) as [l' Hrm].
  destruct (remove_strategy_done name r s l l' st Hr Ho Ht Hl Hrm)
    as (st' & Hrun & H1 & H2 & H3 & H4 & _).
  rewrite Hrun. simpl.
  eapply subscriptions_ok_ext; [| | | |by eapply (subscriptions_ok_removed st name r s l l')];
    done.
Qed.

Lemma exec_subs E op st : subscriptions_ok st → subscriptions_ok (exec E op st).
Proof.
  destruct op; simpl.
  - apply process_tick_event_subs.
  - apply process_order_event_subs.
  - apply process_trade_event_subs.
  - apply send_order_subs.
  - apply cancel_order_subs.
  - apply cancel_all_subs.
  - apply add_strategy_subs.
  - apply init_strategy_subs.
  - apply start_strategy_subs.
  - apply stop_strategy_subs.
  - apply edit_strategy_subs.
  - apply remove_strategy_subs.
Qed.

Lemma run_subs steps st : subscriptions_ok st → subscriptions_ok (run steps st).
Proof.
  revert st. induction steps as [|[E op] steps IH]; intros st HJ; simpl; [done|].
  apply IH. by apply exec_subs.
Qed.

Lemma new_engine_subs classes replies : subscriptions_ok (new_engine classes replies).
Proof.
  split; simpl.
  - intros n r Hr. by rewrite lookup_empty in Hr.
  - intros symbol l Hl. by rewrite lookup_empty in Hl.
Qed.

(** X13: in every state an engine gets into from a new one, the
    collection, the lists of the instruments and the settings agree: a
    strategy of the collection carries the name it is registered under,
    is in the list of its own instrument and has a configuration in the
    settings; and the list of an instrument holds each strategy once, all
    of them strategies of the collection for that instrument. *)
Theorem subscriptions_agree_with_collection (classes : gmap string StrategyClass)
    (replies : list string) (steps : list (Env * Op)) :
  subscriptions_ok (run steps (new_engine classes replies)).
Proof. apply run_subs, new_engine_subs. Qed.

(** X14: in every state an engine gets into from a new one,
    [remove_strategy] for a strategy of the collection that is not trading
    returns True, without an exception: [list.remove] finds the strategy.
    Afterwards the name is out of the collection and of the settings, the
    strategy is in the list of no instrument, the lists of the other
    instruments are as they were, and the collection still agrees with
    the lists. *)
Theorem remove_strategy_succeeds (classes : gmap string StrategyClass)
    (replies : list string) (steps : list (Env * Op)) (name : string) (r : nat)
    (s : Strategy) :
  let st := run steps (new_engine classes replies) in
  strategies st !! name = Some r →
  objects st !! r = Some s →
  trading s = false →
  ∃ st',
    remove_strategy name st = (Ok true, st')
    ∧ strategies st' = delete name (strategies st)
    ∧ (∀ symbol l, symbol_strategy_map st' !! symbol = Some l → r ∉ l)
    ∧ (∀ symbol, symbol ≠ vt_symbol s →
                 symbol_strategy_map st' !! symbol = symbol_strategy_map st !! symbol)
    ∧ strategy_setting st' = delete name (strategy_setting st)
    ∧ subscriptions_ok st'.
Proof.
  intros st Hr Ho Ht.
  assert (HJ : subscriptions_ok st) by apply run_subs, new_engine_subs.
  destruct (proj1 HJ _ _ Hr) as (s0 & Ho0 & Hname & Hin & _).
  assert (s0 = s) as -> by congruence.
  destruct (symbol_strategy_map st !! vt_symbol s) as [l|] eqn:Hl;
    [|by apply elem_of_nil in Hin].
  simpl in Hin. destruct (list_remove_elem_of r l Hin) as [l' Hrm].
  destruct (remove_strategy_done name r s l l' st Hr Ho Ht Hl Hrm)
    as (st' & Hrun & H1 & H2 & H3 & H4 & _).
  exists st'. split; [done|]. split; [done|].
  destruct (proj2 HJ _ _ Hl) as [Hnd _].
  split; [|split; [|split; [done|]]].
  - intros symbol l0 Hl0. rewrite H2 in Hl0.
    destruct (decide (symbol = vt_symbol s)) as [->|Hne].
    + rewrite lookup_insert_eq in Hl0. injection Hl0 as <-.
      by eapply list_remove_NoDup.
    + rewrite lookup_insert_ne in Hl0 by done. intros Hr0.
      destruct (proj2 HJ _ _ Hl0) as [_ Hall].
      destruct (Hall r Hr0) as (s1 & Ho1 & Hsym1 & _). congruence.
  - intros symbol Hne. by rewrite H2, lookup_insert_ne.
  - eapply subscriptions_ok_ext;
      [| | | |by eapply (subscriptions_ok_removed st name r s l l')]; done.
Qed.

Lemma demo_init_steps_strategy :
  strategies (run [(demo_env false, OpAdd "StratA" "s1" "X.E" ∅);
                   (demo_env false, OpInit "s1")]
                (new_engine demo_classes ["GW.1"; "GW.2"])) !! "s1" = Some 0%nat.
Proof. vm_compute. reflexivity. Defined.

Lemma demo_init_steps_object :
  objects (run [(demo_env false, OpAdd "StratA" "s1" "X.E" ∅);
                (demo_env false, OpInit "s1")]
             (new_engine demo_classes ["GW.1"; "GW.2"])) !! 0%nat
  = Some demo_inited_strategy.
Proof. vm_compute. reflexivity. Defined.

Lemma remove_strategy_succeeds_witness :
  ∃ st',
    remove_strategy "s1"
      (run [(demo_env false, OpAdd "StratA" "s1" "X.E" ∅);
            (demo_env false, OpInit "s1")]
         (new_engine demo_classes ["GW.1"; "GW.2"])) = (Ok true, st')
    ∧ ∀ symbol l, symbol_strategy_map st' !! symbol = Some l → 0%nat ∉ l.
Proof.
  destruct (remove_strategy_succeeds demo_classes ["GW.1"; "GW.2"]
              [(demo_env false, OpAdd "StratA" "s1" "X.E" ∅);
               (demo_env false, OpInit "s1")]
              "s1" 0 demo_inited_strategy
              demo_init_steps_strategy demo_init_steps_object eq_refl)
    as (st' & Hrun & _ & Hgone & _).
  exists st'. split; [exact Hrun | exact Hgone].
Defined.

(** * Ticks *)

Lemma check_one_stop_order_idle E tick so st :
  idle tick so → check_one_stop_order E tick so st = (Ok tt, st).
Proof.
  intros Hidle. unfold check_one_stop_order.
  destruct (String.eqb (so_vt_symbol so) (tick_vt_symbol tick)) eqn:Hsym; [|done].
  apply String.eqb_eq in Hsym. cbn [negb].
  destruct (long_triggered so tick || short_triggered so tick) eqn:Hb; [|done].
  apply stop_triggered_bool in Hb. by destruct Hidle.
Qed.

Lemma for_each_idle {A} (l : list A) (body : A → M unit) st :
  (∀ x, x ∈ l → body x st = (Ok tt, st)) → for_each l body st = (Ok tt, st).
Proof.
  induction l as [|x l IH]; intros Hbody; [done|].
  cbn [for_each]. unfold bind. rewrite (Hbody x) by left.
  apply IH. intros y Hy. apply Hbody. by right.
Qed.

Lemma check_stop_order_loop_idle E tick (l : list StopOrder) st :
  (∀ so, so ∈ l → idle tick so) →
  for_each l (check_one_stop_order E tick) st = (Ok tt, st).
Proof.
  intros Hidle. apply for_each_idle. intros so Hso.
  by apply check_one_stop_order_idle, Hidle.
Qed.

(** X15: [check_stop_order] changes nothing and sends nothing when every
    stop order of the registry is for another instrument than the tick's
    or has a condition the tick does not meet. *)
Theorem check_stop_order_leaves_idle_stop_orders (E : Env) (tick : TickData)
    (st : CtaEngine) :
  (∀ so, so ∈ dict_values (stop_orders st) → idle tick so) →
  check_stop_order E tick st = (Ok tt, st).
Proof.
  intros Hidle. unfold check_stop_order. unfold bind at 1. simpl.
  by apply check_stop_order_loop_idle.
Qed.

Lemma demo_low_tick_idle (so : StopOrder) :
  so ∈ dict_values (stop_orders demo_stop_engine) → idle demo_low_tick so.
Proof.
  assert (Hvalues : dict_values (stop_orders demo_stop_engine) = [demo_stop_order])
    by (vm_compute; reflexivity).
  rewrite Hvalues. intros Hso. apply list_elem_of_singleton in Hso as ->.
  right. intros [[_ Hle]|[Hdir _]].
  - apply Qle_bool_iff in Hle. discriminate Hle.
  - discriminate Hdir.
Defined.

Lemma check_stop_order_leaves_idle_stop_orders_witness :
  check_stop_order (demo_env false) demo_low_tick demo_stop_engine
  = (Ok tt, demo_stop_engine).
Proof.
  exact (check_stop_order_leaves_idle_stop_orders (demo_env false) demo_low_tick
           demo_stop_engine demo_low_tick_idle).
Defined.

Lemma filter_ext_elem {A} (P Q : A → Prop) `{!∀ x, Decision (P x)} `{!∀ x, Decision (Q x)}
    (l : list A) :
  (∀ x, x ∈ l → (P x ↔ Q x)) → filter P l = filter Q l.
Proof.
  induction l as [|x l IH]; intros Hext; [done|].
  rewrite !filter_cons. rewrite IH by (intros y Hy; apply Hext; by right).
  destruct (decide (P x)) as [HP|HP], (decide (Q x)) as [HQ|HQ]; try done.
  - exfalso. apply HQ, (Hext x); [left|done].
  - exfalso. apply HP, (Hext x); [left|done].
Qed.

(** The loop of [process_tick_event] over the strategies of the
    instrument. *)
Lemma tick_loop (E : Env) (tick : TickData) (l : list nat) (st : CtaEngine) :
  NoDup l →
  (∀ r, r ∈ l → is_Some (objects st !! r)) →
  ∃ st',
    for_each l (λ strategy,
      s <- deref strategy ;;
      if inited s then call_strategy_func E strategy (on_tick tick) else ret tt) st
    = (Ok tt, st')
    ∧ calls (trace st')
      = calls (trace st)
        ++ ((λ r, (r, on_tick tick)) <$> filter (λ r, is_inited st r = true) l)
    ∧ (∀ r, r ∉ l → objects st' !! r = objects st !! r)
    ∧ filter (λ e, to_main_engine e = true) (trace st')
      = filter (λ e, to_main_engine e = true) (trace st).
Proof.
  revert st. induction l as [|r l IH]; intros st Hnd Hobj.
  - exists st. split; [done|]. rewrite filter_nil. simpl. by rewrite app_nil_r.
  - apply NoDup_cons in Hnd as [Hr Hnd].
    destruct (Hobj r ltac:(left)) as [s Ho].
    cbn [for_each]. unfold bind at 1. cbv beta. unfold bind at 1.
    unfold deref at 1. rewrite Ho. cbv beta iota.
    assert (Hstep : ∃ st1,
              (if inited s then call_strategy_func E r (on_tick tick) else ret tt) st
              = (Ok tt, st1)
              ∧ calls (trace st1)
                = calls (trace st) ++ (if inited s then [(r, on_tick tick)] else [])
              ∧ (∀ r', r' ≠ r → objects st1 !! r' = objects st !! r')
              ∧ filter (λ e, to_main_engine e = true) (trace st1)
                = filter (λ e, to_main_engine e = true) (trace st)).
    { destruct (inited s).
      - destruct (call_strategy_func_spec E r (on_tick tick) s st Ho)
          as (s' & evs & Hcall & _ & _ & _ & _ & Hevs).
        eexists. split; [exact Hcall|]. simpl. split; [|split].
        + rewrite cons_middle, (assoc_L (++)), calls_logs by done. by rewrite calls_app.
        + intros r' Hne. by rewrite list_lookup_insert_ne.
        + rewrite cons_middle, (assoc_L (++)), filter_main_engine_logs by done.
          by rewrite filter_main_engine_snoc.
      - exists st. split; [done|]. by rewrite app_nil_r. }
    destruct Hstep as (st1 & Hrun1 & Hcalls1 & Hobj1 & Hmain1). rewrite Hrun1.
    destruct (IH st1 Hnd) as (st' & Hloop & Hcalls' & Hobj' & Hmain').
    { intros r' Hr'. rewrite Hobj1; [apply Hobj; by right|]. intros ->. done. }
    exists st'. split; [done|]. split; [|split].
    + rewrite Hcalls', Hcalls1, <- (assoc_L (++)). f_equal.
      assert (Hir : is_inited st r = inited s) by (unfold is_inited; by rewrite Ho).
      assert (Hfilter : filter (λ r0, is_inited st1 r0 = true) l
                        = filter (λ r0, is_inited st r0 = true) l).
      { apply filter_ext_elem. intros r' Hr'. unfold is_inited.
        rewrite Hobj1; [done|]. intros ->. done. }
      rewrite Hfilter, filter_cons, Hir. destruct (inited s).
      * by rewrite decide_True.
      * by rewrite decide_False.
    + intros r' Hr'. apply not_elem_of_cons in Hr' as [Hne Hr'].
      rewrite Hobj' by done. by apply Hobj1.
    + congruence.
Qed.

(** X16: in a state an engine gets into from a new one, a tick that
    triggers no stop order is handed to [on_tick] of the strategies in the
    list of its instrument that are initialized, in the order of the list,
    and to no other. With an [on_tick] that changes the variables of its
    strategy only and does not call the engine (as every callback here:
    an order a strategy sends on a tick is a step of its own), the
    strategies outside the list, the collection, the lists, the registry
    and both order-id maps are as before, and nothing goes to the main
    engine. *)
Theorem tick_goes_to_initialized_subscribers (E : Env) (classes : gmap string StrategyClass)
    (replies : list string) (steps : list (Env * Op)) (tick : TickData) (l : list nat) :
  let st := run steps (new_engine classes replies) in
  symbol_strategy_map st !! tick_vt_symbol tick = Some l →
  (∀ so, so ∈ dict_values (stop_orders st) → idle tick so) →
  ∃ st',
    process_tick_event E tick st = (Ok tt, st')
    ∧ calls (trace st')
      = calls (trace st)
        ++ ((λ r, (r, on_tick tick)) <$> filter (λ r, is_inited st r = true) l)
    ∧ (∀ r, r ∉ l → objects st' !! r = objects st !! r)
    ∧ strategies st' = strategies st
    ∧ symbol_strategy_map st' = symbol_strategy_map st
    ∧ stop_orders st' = stop_orders st
    ∧ strategy_orderid_map st' = strategy_orderid_map st
    ∧ orderid_strategy_map st' = orderid_strategy_map st
    ∧ filter (λ e, to_main_engine e = true) (trace st')
      = filter (λ e, to_main_engine e = true) (trace st).
Proof.
  intros st Hl Hidle.
  assert (HJ : subscriptions_ok st) by apply run_subs, new_engine_subs.
  destruct (proj2 HJ _ _ Hl) as [Hnd Hall].
  unfold process_tick_event. unfold bind at 1. unfold symbol_strategy_map_getitem.
  rewrite Hl. cbv beta iota.
  destruct l as [|r0 l0] eqn:Hl0.
  { exists st. split; [done|]. rewrite filter_nil. simpl. by rewrite app_nil_r. }
  rewrite <- Hl0 in *. clear Hl0.
  unfold bind at 1. unfold check_stop_order. unfold bind at 1. cbn [get fst snd].
  rewrite check_stop_order_loop_idle by done.
  destruct (tick_loop E tick l st Hnd) as (st' & Hloop & Hcalls & Hobj & Hmain).
  { intros r Hr. destruct (Hall r Hr) as (s & Ho & _). eauto. }
  exists st'. split; [done|]. split; [done|]. split; [done|].
  match type of Hloop with
  | ?m st = _ =>
      assert (H1 : preserves strategies m) by (unfold call_strategy_func, write_log; frame);
      assert (H2 : preserves symbol_strategy_map m)
        by (unfold call_strategy_func, write_log; frame);
      assert (H3 : preserves stop_orders m) by (unfold call_strategy_func, write_log; frame);
      assert (H4 : preserves strategy_orderid_map m)
        by (unfold call_strategy_func, write_log; frame);
      assert (H5 : preserves orderid_strategy_map m)
        by (unfold call_strategy_func, write_log; frame);
      specialize (H1 st); specialize (H2 st); specialize (H3 st); specialize (H4 st);
      specialize (H5 st)
  end.
  rewrite Hloop in H1, H2, H3, H4, H5. simpl in *.
  repeat (split; [done|]). done.
Qed.

Lemma demo_start_steps_subscribers :
  symbol_strategy_map (run demo_start_steps (new_engine demo_classes ["GW.1"; "GW.2"]))
    !! tick_vt_symbol demo_tick = Some [0%nat].
Proof. vm_compute. reflexivity. Defined.

Lemma demo_start_steps_idle (so : StopOrder) :
  so ∈ dict_values (stop_orders (run demo_start_steps
                                   (new_engine demo_classes ["GW.1"; "GW.2"]))) →
  idle demo_tick so.
Proof.
  assert (Hvalues : dict_values (stop_orders (run demo_start_steps
                                   (new_engine demo_classes ["GW.1"; "GW.2"]))) = [])
    by (vm_compute; reflexivity).
  rewrite Hvalues. intros Hso. apply elem_of_nil in Hso. destruct Hso.
Defined.

Lemma tick_goes_to_initialized_subscribers_witness :
  ∃ st',
    process_tick_event (demo_env false) demo_tick
      (run demo_start_steps (new_engine demo_classes ["GW.1"; "GW.2"])) = (Ok tt, st')
    ∧ calls (trace st')
      = calls (trace (run demo_start_steps (new_engine demo_classes ["GW.1"; "GW.2"])))
        ++ ((λ r, (r, on_tick demo_tick))
              <$> filter (λ r, is_inited (run demo_start_steps
                                            (new_engine demo_classes ["GW.1"; "GW.2"])) r
                               = true) [0%nat]).
Proof.
  destruct (tick_goes_to_initialized_subscribers (demo_env false) demo_classes
              ["GW.1"; "GW.2"] demo_start_steps demo_tick [0%nat]
              demo_start_steps_subscribers demo_start_steps_idle)
    as (st' & Hrun & Hcalls & _).
  exists st'. split; [exact Hrun | exact Hcalls].
Defined.

Lemma for_each_app {A} (l1 l2 : list A) (body : A → M unit) st :
  for_each (l1 ++ l2) body st
  = (for_each l1 body ;; for_each l2 body) st.
Proof.
  revert st. induction l1 as [|x l1 IH]; intros st; [done|].
  cbn [for_each app]. unfold bind in *.
  destruct (body x st) as [[[]|e] st1]; [|done]. apply IH.
Qed.

(** [check_stop_order] stops at the first stop order that the tick
    triggers and the body of the loop raises on. *)
Lemma check_stop_order_raises E tick before id so after e st :
  stop_orders st = before ++ (id, so) :: after →
  (∀ so', so' ∈ dict_values before → idle tick so') →
  check_one_stop_order E tick so st = (Raise e, st) →
  check_stop_order E tick st = (Raise e, st).
Proof.
  intros Hreg Hidle Hraise. unfold check_stop_order. unfold bind at 1. cbn [get fst snd].
  rewrite Hreg. unfold dict_values. rewrite fmap_app, fmap_cons. simpl.
  rewrite for_each_app. unfold bind at 1.
  rewrite check_stop_order_loop_idle by done.
  cbn [for_each]. unfold bind at 1. by rewrite Hraise.
Qed.

(** X17: the first stop order of the registry that a tick triggers, when
    the instrument has subscribers, ends the processing of the tick with
    an exception if the order for it cannot be made: KeyError when the
    stop order's strategy is not in the collection, AttributeError when
    the main engine has no contract for the instrument. The state is as
    before, and no strategy gets the tick. *)
Theorem unsendable_stop_order_aborts_tick (E : Env) (tick : TickData) (st : CtaEngine)
    (before after : list (string * StopOrder)) (id : string) (so : StopOrder)
    (l : list nat) :
  stop_orders st = before ++ (id, so) :: after →
  (∀ so', so' ∈ dict_values before → idle tick so') →
  so_vt_symbol so = tick_vt_symbol tick →
  stop_triggered so tick →
  symbol_strategy_map st !! tick_vt_symbol tick = Some l →
  l ≠ [] →
  (strategies st !! so_strategy_name so = None →
   process_tick_event E tick st = (Raise KeyError, st))
  ∧ (is_Some (strategies st !! so_strategy_name so) →
     get_contract E (so_vt_symbol so) = None →
     process_tick_event E tick st = (Raise AttributeError, st)).
Proof.
  intros Hreg Hidle Hsym Hyes Hl Hne.
  assert (Htick : ∀ e, check_one_stop_order E tick so st = (Raise e, st) →
                       process_tick_event E tick st = (Raise e, st)).
  { intros e He. unfold process_tick_event.
    unfold bind at 1. unfold symbol_strategy_map_getitem. rewrite Hl. cbv beta iota.
    destruct l as [|r l']; [done|]. unfold bind at 1.
    by rewrite (check_stop_order_raises E tick before id so after e st). }
  apply stop_triggered_bool in Hyes.
  split.
  - intros Hnone. apply Htick. unfold check_one_stop_order.
    rewrite Hsym, String.eqb_refl. cbn [negb]. rewrite Hyes.
    unfold bind at 1. unfold strategies_getitem. by rewrite Hnone.
  - intros [r Hr] Hc. apply Htick. unfold check_one_stop_order.
    rewrite Hsym, String.eqb_refl. cbn [negb]. rewrite Hyes.
    unfold bind at 1. unfold strategies_getitem. rewrite Hr. cbv beta iota zeta.
    rewrite <- Hsym, Hc. unfold bind at 1. done.
Qed.

Lemma demo_tick_triggers_orphan : stop_triggered demo_orphan_order demo_tick.
Proof. left. split; [reflexivity|]. apply Qle_refl. Defined.

Lemma unsendable_stop_order_aborts_tick_witness :
  process_tick_event (demo_env false) demo_tick demo_orphan_engine
  = (Raise KeyError, demo_orphan_engine).
Proof.
  refine (proj1 (unsendable_stop_order_aborts_tick (demo_env false) demo_tick
                   demo_orphan_engine [] [] "STOP.1" demo_orphan_order [1%nat]
                   _ _ eq_refl demo_tick_triggers_orphan _ _) _).
  - vm_compute. reflexivity.
  - intros so Hso. apply elem_of_nil in Hso. destruct Hso.
  - vm_compute. reflexivity.
  - discriminate.
  - vm_compute. reflexivity.
Defined.

(** * Order and trade events *)

(** What [call_strategy_func] leaves of the state, for the parts that the
    statements below read. *)
Lemma call_strategy_func_frame (E : Env) (r : nat) (c : Call) (s : Strategy) (st : CtaEngine) :
  objects st !! r = Some s →
  ∃ st' s',
    call_strategy_func E r c st = (Ok tt, st')
    ∧ objects st' = <[r := s']> (objects st)
    ∧ objects st' !! r = Some s'
    ∧ strategy_name s' = strategy_name s
    ∧ pos s' = pos s
    ∧ calls (trace st') = calls (trace st) ++ [(r, c)]
    ∧ filter (λ e, to_main_engine e = true) (trace st')
      = filter (λ e, to_main_engine e = true) (trace st)
    ∧ strategy_orderid_map st' = strategy_orderid_map st
    ∧ orderid_strategy_map st' = orderid_strategy_map st
    ∧ stop_orders st' = stop_orders st
    ∧ strategy_data st' = strategy_data st
    ∧ vt_tradeids st' = vt_tradeids st
    ∧ strategies st' = strategies st.
Proof.
  intros Ho. assert (Hlt : (r < length (objects st))%nat) by (by eapply lookup_lt_Some).
  destruct (raised (callback E s c)) as [tb|] eqn:Hraised.
  - erewrite call_strategy_func_raised by done. eexists _, _. split; [reflexivity|].
    simpl. rewrite list_lookup_insert_eq by done. repeat split.
    + by rewrite calls_app.
    + change [Called r c; exception_log s tb]
        with ([Called r c] ++ [exception_log s tb]).
      rewrite (assoc_L (++)), !filter_main_engine_snoc by done. done.
  - erewrite call_strategy_func_returned by done. eexists _, _. split; [reflexivity|].
    simpl. rewrite list_lookup_insert_eq by done. repeat split.
    + by rewrite calls_app.
    + by rewrite filter_main_engine_snoc.
Qed.

(** X18: an order event for an id that the order-id-to-strategy map does
    not hold does nothing. For an id it holds, the event returns without
    an exception; the owner gets [on_order], and before it, for an order
    of type STOP, [on_stop_order] with the stop order made from the
    order. With an [on_order] and an [on_stop_order] that change the
    variables of their strategy only and do not call the engine (as every
    callback here), the id leaves the active ids of the owning strategy
    exactly when the order is not active, the active ids of other names,
    the order-id-to-strategy map and the registry are as before, and
    nothing goes to the main engine. *)
Theorem order_event_updates_active_ids (E : Env) (order : OrderData) (st : CtaEngine) :
  (orderid_strategy_map st !! order_vt_orderid order = None →
   process_order_event E order st = (Ok tt, st))
  ∧ ∀ r s,
      orderid_strategy_map st !! order_vt_orderid order = Some r →
      objects st !! r = Some s →
      ∃ st',
        process_order_event E order st = (Ok tt, st')
        ∧ active_ids st' (strategy_name s)
          = (if is_active order then active_ids st (strategy_name s)
             else active_ids st (strategy_name s) ∖ {[order_vt_orderid order]})
        ∧ (∀ n, n ≠ strategy_name s → active_ids st' n = active_ids st n)
        ∧ orderid_strategy_map st' = orderid_strategy_map st
        ∧ stop_orders st' = stop_orders st
        ∧ calls (trace st')
          = calls (trace st)
            ++ match order_type order with
               | STOP => [(r, on_stop_order (server_stop_order order s))]
               | _ => []
               end
            ++ [(r, on_order order)]
        ∧ filter (λ e, to_main_engine e = true) (trace st')
          = filter (λ e, to_main_engine e = true) (trace st).
Proof.
  split.
  - intros Hnone. unfold process_order_event. unfold bind at 1. cbn [get fst snd].
    by rewrite Hnone.
  - intros r s Hr Ho. unfold process_order_event. unfold bind at 1. cbn [get fst snd].
    rewrite Hr. unfold bind at 1. unfold deref at 1. rewrite Ho. cbv beta iota.
    cbv zeta.
    assert (Hlink : ∃ st1,
              (vt_orderids <- strategy_orderid_map_getitem (strategy_name s) ;;
               if bool_decide (order_vt_orderid order ∈ vt_orderids)
                  && negb (is_active order)
               then strategy_orderid_map_store (strategy_name s)
                      (vt_orderids ∖ {[order_vt_orderid order]})
               else ret tt) st = (Ok tt, st1)
              ∧ active_ids st1 (strategy_name s)
                = (if is_active order then active_ids st (strategy_name s)
                   else active_ids st (strategy_name s) ∖ {[order_vt_orderid order]})
              ∧ (∀ n, n ≠ strategy_name s → active_ids st1 n = active_ids st n)
              ∧ orderid_strategy_map st1 = orderid_strategy_map st
              ∧ stop_orders st1 = stop_orders st
              ∧ objects st1 = objects st
              ∧ trace st1 = trace st).
    { unfold bind, strategy_orderid_map_getitem, strategy_orderid_map_store, modify,
        active_ids.
      destruct (strategy_orderid_map st !! strategy_name s) as [ids|] eqn:Hids; simpl.
      - destruct (bool_decide (order_vt_orderid order ∈ ids)) eqn:Hin,
          (is_active order); simpl.
        + exists st. by rewrite Hids.
        + eexists. split; [reflexivity|]. simpl. rewrite lookup_insert_eq.
          split; [done|]. split; [|done]. intros n Hn. by rewrite lookup_insert_ne.
        + exists st. by rewrite Hids.
        + exists st. rewrite Hids. simpl. split; [done|]. split; [|done].
          apply bool_decide_eq_false in Hin. set_solver.
      - rewrite bool_decide_eq_false_2 by set_solver. simpl.
        eexists. split; [reflexivity|]. simpl. rewrite lookup_insert_eq. simpl.
        split; [destruct (is_active order); set_solver|]. split; [|done].
        intros n Hn. by rewrite lookup_insert_ne. }
    destruct Hlink as (st1 & Hrun1 & Hact1 & Hoth1 & Hosm1 & Hreg1 & Hobj1 & Htr1).
    rewrite (bind_assoc (strategy_orderid_map_getitem (strategy_name s))).
    unfold bind at 1. rewrite Hrun1.
    rewrite <- Hobj1 in Ho.
    assert (Hstop : ∃ st2 s2,
              (match order_type order with
               | STOP => call_strategy_func E r (on_stop_order (server_stop_order order s))
               | _ => ret tt
               end) st1 = (Ok tt, st2)
              ∧ objects st2 !! r = Some s2
              ∧ calls (trace st2)
                = calls (trace st1)
                  ++ match order_type order with
                     | STOP => [(r, on_stop_order (server_stop_order order s))]
                     | _ => []
                     end
              ∧ filter (λ e, to_main_engine e = true) (trace st2)
                = filter (λ e, to_main_engine e = true) (trace st1)
              ∧ strategy_orderid_map st2 = strategy_orderid_map st1
              ∧ orderid_strategy_map st2 = orderid_strategy_map st1
              ∧ stop_orders st2 = stop_orders st1).
    { destruct (order_type order);
        try (exists st1, s; split; [done|]; by rewrite app_nil_r).
      destruct (call_strategy_func_frame E r (on_stop_order (server_stop_order order s))
                  s st1 Ho)
        as (st2 & s2 & Hrun2 & _ & Ho2 & _ & _ & Hc2 & Hm2 & Hsom2 & Hosm2 & Hreg2 & _).
      exists st2, s2. done. }
    destruct Hstop as (st2 & s2 & Hrun2 & Ho2 & Hc2 & Hm2 & Hsom2 & Hosm2 & Hreg2).
    unfold bind at 1. unfold server_stop_order in Hrun2. rewrite Hrun2.
    destruct (call_strategy_func_frame E r (on_order order) s2 st2 Ho2)
      as (st3 & s3 & Hrun3 & _ & _ & _ & _ & Hc3 & Hm3 & Hsom3 & Hosm3 & Hreg3 & _).
    exists st3. split; [done|]. unfold active_ids in *.
    rewrite Hsom3, Hsom2, Hosm3, Hosm2, Hreg3, Hreg2, Hc3, Hc2, Hm3, Hm2, Htr1.
    rewrite <- (assoc_L (++)). done.
Qed.

Lemma demo_order_engine_owner :
  orderid_strategy_map demo_order_engine !! order_vt_orderid demo_filled_order
  = Some 0%nat.
Proof. vm_compute. reflexivity. Defined.

Lemma demo_order_engine_object : objects demo_order_engine !! 0%nat = Some demo_strategy.
Proof. vm_compute. reflexivity. Defined.

Lemma order_event_updates_active_ids_witness :
  ∃ st',
    process_order_event (demo_env false) demo_filled_order demo_order_engine = (Ok tt, st')
    ∧ active_ids st' (strategy_name demo_strategy)
      = (if is_active demo_filled_order
         then active_ids demo_order_engine (strategy_name demo_strategy)
         else active_ids demo_order_engine (strategy_name demo_strategy)
              ∖ {[order_vt_orderid demo_filled_order]})
    ∧ orderid_strategy_map st' = orderid_strategy_map demo_order_engine.
Proof.
  destruct (proj2 (order_event_updates_active_ids (demo_env false) demo_filled_order
                     demo_order_engine)
              0%nat demo_strategy demo_order_engine_owner demo_order_engine_object)
    as (st' & Hrun & Hactive & _ & Hosm & _).
  exists st'. split; [exact Hrun|]. split; [exact Hactive | exact Hosm].
Defined.

(** X19: a trade that has not been seen, for an order the engine has a
    strategy for: the position of the strategy goes up by the trade's
    volume when the trade is LONG and down by it for any other direction;
    [on_trade] is called once, on that strategy; the variables of the
    strategy are stored in the strategy data under its name; the last two
    things put out are the saved data and the strategy event; and the
    trade's id is among the seen ones. *)
Theorem trade_moves_position (E : Env) (trade : TradeData) (r : nat) (s : Strategy)
    (st : CtaEngine) :
  vt_tradeid trade ∉ vt_tradeids st →
  orderid_strategy_map st !! trade_vt_orderid trade = Some r →
  objects st !! r = Some s →
  ∃ st' s',
    process_trade_event E trade st = (Ok tt, st')
    ∧ objects st' !! r = Some s'
    ∧ pos s' = match trade_direction trade with
               | LONG => (pos s + trade_volume trade)%Q
               | _ => (pos s - trade_volume trade)%Q
               end
    ∧ (∀ r', r' ≠ r → objects st' !! r' = objects st !! r')
    ∧ calls (trace st') = calls (trace st) ++ [(r, on_trade trade)]
    ∧ strategy_data st' = <[strategy_name s := get_variables s']> (strategy_data st)
    ∧ (∃ evs, trace st'
              = trace st ++ evs ++ [SaveData (strategy_data st'); Put (EVENT_CTA_STRATEGY s')])
    ∧ vt_tradeids st' = vt_tradeids st ∪ {[vt_tradeid trade]}.
Proof.
  intros Hnew Hr Ho. unfold process_trade_event.
  unfold bind at 1. cbn [get fst snd]. rewrite decide_False by done.
  unfold bind at 1. cbn [modify fst snd]. unfold bind at 1. cbn [get fst snd].
  cbn [orderid_strategy_map with_vt_tradeids]. rewrite Hr.
  assert (Hlt : (r < length (objects st))%nat) by (by eapply lookup_lt_Some).
  set (s1 := match trade_direction trade with
             | LONG => set_pos (pos s + trade_volume trade)%Q s
             | _ => set_pos (pos s - trade_volume trade)%Q s
             end).
  set (st0 := with_vt_tradeids (vt_tradeids st ∪ {[vt_tradeid trade]}) st).
  set (st1 := with_objects (<[r := s1]> (objects st)) st0).
  assert (Hpos : (match trade_direction trade with
                  | LONG => update_object r (λ s, set_pos (pos s + trade_volume trade)%Q s)
                  | _ => update_object r (λ s, set_pos (pos s - trade_volume trade)%Q s)
                  end) st0 = (Ok tt, st1)).
  { unfold st1, s1, update_object, modify.
    destruct (trade_direction trade); simpl; f_equal; f_equal;
      apply list_eq; intros i; (destruct (decide (i = r)) as [->|Hne];
        [by rewrite list_lookup_alter_eq, list_lookup_insert_eq, Ho
        |by rewrite list_lookup_alter_ne, list_lookup_insert_ne]). }
  unfold bind at 1. rewrite Hpos.
  assert (Ho1 : objects st1 !! r = Some s1) by (simpl; by rewrite list_lookup_insert_eq).
  destruct (call_strategy_func_frame E r (on_trade trade) s1 st1 Ho1)
    as (st2 & s2 & Hrun2 & Hobj2 & Ho2 & Hname2 & Hpos2 & Hc2 & _ & _ & _ & _ & Hdata2
        & Htid2 & _).
  pose proof (call_strategy_func_grows E r (on_trade trade) st1) as [evs Hevs].
  rewrite Hrun2 in Hevs. simpl in Hevs.
  unfold bind at 1. rewrite Hrun2.
  unfold bind at 1. unfold sync_strategy_data.
  unfold bind at 1. unfold deref at 1. rewrite Ho2.
  unfold bind at 1. cbn [modify fst snd]. unfold bind at 1. cbn [get fst snd].
  unfold put_strategy_event. unfold bind at 1. unfold deref. simpl. rewrite Ho2.
  eexists _, s2. split; [reflexivity|]. simpl.
  assert (Hn : strategy_name s2 = strategy_name s).
  { rewrite Hname2. unfold s1. by destruct (trade_direction trade). }
  split; [done|]. split.
  { rewrite Hpos2. unfold s1. by destruct (trade_direction trade). }
  split.
  { intros r' Hne. rewrite Hobj2. simpl. by rewrite !list_lookup_insert_ne. }
  split.
  { rewrite calls_app, calls_app. simpl. rewrite !app_nil_r. exact Hc2. }
  split; [by rewrite Hn, Hdata2|]. split; [|by rewrite Htid2].
  exists evs. rewrite Hn, Hdata2, Hevs. simpl. by rewrite <- !(assoc_L (++)).
Qed.

Lemma demo_trade_is_new : vt_tradeid demo_trade ∉ vt_tradeids demo_order_engine.
Proof. apply (bool_decide_unpack _). vm_compute. reflexivity. Defined.

Lemma demo_trade_owner :
  orderid_strategy_map demo_order_engine !! trade_vt_orderid demo_trade = Some 0%nat.
Proof. vm_compute. reflexivity. Defined.

Lemma trade_moves_position_witness :
  ∃ st' s',
    process_trade_event (demo_env false) demo_trade demo_order_engine = (Ok tt, st')
    ∧ objects st' !! 0%nat = Some s'
    ∧ pos s' = match trade_direction demo_trade with
               | LONG => (pos demo_strategy + trade_volume demo_trade)%Q
               | _ => (pos demo_strategy - trade_volume demo_trade)%Q
               end.
Proof.
  destruct (trade_moves_position (demo_env false) demo_trade 0 demo_strategy
              demo_order_engine demo_trade_is_new demo_trade_owner
              demo_order_engine_object)
    as (st' & s' & Hrun & Ho & Hpos & _).
  exists st', s'. split; [exact Hrun|]. split; [exact Ho | exact Hpos].
Defined.

(** * Initializing a strategy *)

Lemma with_objects_id st : with_objects (objects st) st = st.
Proof. by destruct st. Qed.

Lemma state_ext (st st' : CtaEngine) :
  strategy_setting st = strategy_setting st' →
  strategy_data st = strategy_data st' →
  classes st = classes st' →
  strategies st = strategies st' →
  symbol_strategy_map st = symbol_strategy_map st' →
  orderid_strategy_map st = orderid_strategy_map st' →
  strategy_orderid_map st = strategy_orderid_map st' →
  stop_order_count st = stop_order_count st' →
  stop_orders st = stop_orders st' →
  vt_tradeids st = vt_tradeids st' →
  objects st = objects st' →
  gateway_replies st = gateway_replies st' →
  trace st = trace st' →
  st = st'.
Proof. destruct st, st'; simpl; intros; by subst. Qed.

Lemma with_objects_insert_id st r s :
  objects st !! r = Some s → with_objects (<[r := s]> (objects st)) st = st.
Proof. intros Ho. by rewrite list_insert_id, with_objects_id. Qed.

Lemma list_insert_alter (l : list Strategy) (r : nat) (s : Strategy) (f : Strategy → Strategy) :
  <[r := s]> (alter f r l) = <[r := s]> l.
Proof.
  apply list_eq. intros i. destruct (decide (i = r)) as [->|Hne].
  - destruct (decide (r < length l)%nat) as [Hlt|Hge].
    + by rewrite !list_lookup_insert_eq by (rewrite ?length_alter; lia).
    + by rewrite !(lookup_ge_None_2 _ r) by (rewrite ?length_insert, ?length_alter; lia).
  - rewrite !list_lookup_insert_ne by done. by rewrite list_lookup_alter_ne.
Qed.

Lemma restore_loop (r : nat) (data : gmap string Q) (names : list string) (s : Strategy)
    (st : CtaEngine) :
  objects st !! r = Some s →
  for_each names (λ name,
    match data !! name with
    | None => ret tt
    | Some value => update_object r (setattr name value)
    end) st
  = (Ok tt, with_objects (<[r := restore data names s]> (objects st)) st).
Proof.
  revert s st. induction names as [|name names IH]; intros s st Ho.
  - simpl. by rewrite list_insert_id, with_objects_id.
  - cbn [for_each]. unfold bind at 1. cbv beta.
    destruct (data !! name) as [value|] eqn:Hv.
    + unfold update_object, modify. cbn [fst snd].
      erewrite IH by (simpl; rewrite list_lookup_alter_eq, Ho; reflexivity).
      simpl. rewrite Hv, list_insert_alter. done.
    + unfold ret at 1. cbv beta iota. rewrite (IH s st Ho). simpl. by rewrite Hv.
Qed.

Lemma restore_empty names s : restore ∅ names s = s.
Proof.
  revert s. induction names as [|name names IH]; intros s; [done|].
  simpl. rewrite lookup_empty. apply IH.
Qed.

Lemma getattr_setattr_eq name value s : getattr (setattr name value s) name = value.
Proof.
  unfold getattr, setattr. case_decide; [done|]. simpl. by rewrite lookup_insert_eq.
Qed.

Lemma getattr_setattr_ne name name' value s :
  name ≠ name' → getattr (setattr name' value s) name = getattr s name.
Proof.
  intros Hne. unfold getattr, setattr. repeat case_decide; subst; try done.
  simpl. by rewrite lookup_insert_ne.
Qed.

Lemma getattr_restore data names name value s :
  data !! name = Some value →
  getattr s name = value ∨ name ∈ names →
  getattr (restore data names s) name = value.
Proof.
  intros Hv. revert s. induction names as [|name0 names IH]; intros s Hs.
  - destruct Hs as [Hs|Hs]; [done|]. by apply elem_of_nil in Hs.
  - simpl. apply IH. destruct (decide (name0 = name)) as [->|Hne].
    + left. rewrite Hv. apply getattr_setattr_eq.
    + destruct Hs as [Hs|Hs].
      * left. destruct (data !! name0); [|done]. by rewrite getattr_setattr_ne.
      * right. apply elem_of_cons in Hs as [->|Hs]; done.
Qed.

Lemma restore_fields data names s :
  strategy_name (restore data names s) = strategy_name s
  ∧ vt_symbol (restore data names s) = vt_symbol s.
Proof.
  revert s. induction names as [|name names IH]; intros s; [done|].
  simpl. destruct (IH (match data !! name with
                       | Some value => setattr name value s
                       | None => s
                       end)) as [-> ->].
  destruct (data !! name); [|done]. by rewrite setattr_name, setattr_vt_symbol.
Qed.

(** What [_init_strategy] does with a strategy that is not initialized. *)
Lemma init_strategy_spec (E : Env) (name : string) (r : nat) (s : Strategy) (st : CtaEngine) :
  strategies st !! name = Some r →
  objects st !! r = Some s →
  inited s = false →
  ∃ s1 evs,
    let s' := set_inited true
                (restore (default ∅ (strategy_data st !! name)) (variables s) s1) in
    _init_strategy E name st
    = (Ok tt,
       with_trace
         (trace st ++ [log_of (LogInitStart name)] ++ Called r on_init :: evs
            ++ [match get_contract E (vt_symbol s) with
                | Some contract => subscription contract
                | None => strategy_log s (LogSubscribeNoContract (vt_symbol s))
                end]
            ++ [Put (EVENT_CTA_STRATEGY s'); log_of (LogInitDone name)])
         (with_objects (<[r := s']> (objects st)) st))
    ∧ strategy_name s1 = strategy_name s
    ∧ Forall (λ e, is_log_event e = true) evs.
Proof.
  intros Hs Ho Hi. unfold _init_strategy.
  unfold bind at 1. unfold strategies_getitem. rewrite Hs.
  unfold bind at 1. unfold deref at 1. rewrite Ho. cbv beta iota. rewrite Hi.
  unfold bind at 1. cbn [write_log emit modify fst snd].
  set (st0 := with_trace (trace st ++ [Put (EVENT_CTA_LOG
                {| log_strategy := None; log_msg := LogInitStart name |})]) st).
  assert (Hlt : (r < length (objects st))%nat) by (by eapply lookup_lt_Some).
  destruct (call_strategy_func_spec E r on_init s st0 Ho)
    as (s1 & evs & Hcall & Hname1 & Hsym1 & _ & _ & Hevs).
  exists s1, evs. cbv zeta. split; [|done].
  unfold bind at 1. rewrite Hcall.
  set (st1 := with_trace (trace st0 ++ Called r on_init :: evs)
                (with_objects (<[r:=s1]> (objects st0)) st0)).
  assert (Ho1 : objects st1 !! r = Some s1) by (simpl; by rewrite list_lookup_insert_eq).
  set (data := default ∅ (strategy_data st !! name)).
  set (s2 := restore data (variables s) s1).
  set (st2 := with_objects (<[r := s2]> (objects st1)) st1).
  unfold bind at 1. cbn [get fst snd].
  assert (Hrestore :
    (match strategy_data st1 !! name with
     | Some data0 =>
         if decide (data0 = ∅) then ret tt
         else for_each (variables s) (λ name0,
                match data0 !! name0 with
                | Some value => update_object r (setattr name0 value)
                | None => ret tt
                end)
     | None => ret tt
     end) st1 = (Ok tt, st2)).
  { unfold st2, s2, data. change (strategy_data st1) with (strategy_data st).
    destruct (strategy_data st !! name) as [data0|]; simpl.
    - destruct (decide (data0 = ∅)) as [->|Hne].
      + unfold ret. rewrite restore_empty. f_equal. symmetry.
        by apply with_objects_insert_id.
      + by apply restore_loop.
    - unfold ret. rewrite restore_empty. f_equal. symmetry.
      by apply with_objects_insert_id. }
  unfold bind at 1. rewrite Hrestore. cbv beta iota.
  assert (Ho2 : objects st2 !! r = Some s2).
  { simpl. by rewrite list_lookup_insert_eq by (by rewrite length_insert). }
  assert (Hname2 : strategy_name s2 = strategy_name s).
  { unfold s2. by rewrite (proj1 (restore_fields _ _ _)). }
  unfold bind at 1.
  match goal with
  | |- context [let (_, _) := ?m st2 in _] =>
      assert (Hsub : ∃ e,
        m st2 = (Ok tt, with_trace (trace st2 ++ [e]) st2)
        ∧ e = match get_contract E (vt_symbol s) with
              | Some contract => subscription contract
              | None => strategy_log s (LogSubscribeNoContract (vt_symbol s))
              end)
  end.
  { destruct (get_contract E (vt_symbol s)) as [contract|].
    - by eexists.
    - unfold bind at 1. unfold deref. rewrite Ho2.
      eexists. split; [reflexivity|]. unfold strategy_log. by rewrite Hname2. }
  destruct Hsub as (e & Hsub & He). rewrite Hsub. rewrite <- He.
  unfold bind at 1. cbn [update_object modify fst snd].
  unfold put_strategy_event. unfold bind at 1. unfold bind at 1. unfold deref. simpl.
  rewrite list_lookup_alter_eq, list_lookup_insert_eq by (by rewrite !length_insert).
  simpl. unfold emit, modify. f_equal.
  apply state_ext; subst st2 st1 st0; simpl; try reflexivity.
  - rewrite list_insert_alter_eq. by rewrite !list_insert_insert_eq.
  - unfold log_of. by rewrite <- !(assoc_L (++)).
Qed.

(** X20: [_init_strategy] for a strategy that is initialized puts out a
    log and does nothing else. For one that is not, it returns without an
    exception and the strategy is initialized afterwards. With an
    [on_init] that changes the variables of its strategy only and does
    not call the engine (as every callback here: no [load_bar], no order
    from inside it), [on_init] is the one callback called, and what goes
    to the main engine is the subscription to the instrument, when it has
    a contract, and nothing when it has none: then a log tagged with the
    strategy says so, and the strategy is marked initialized all the
    same. *)
Theorem init_strategy_subscribes (E : Env) (name : string) (r : nat) (s : Strategy)
    (st : CtaEngine) :
  strategies st !! name = Some r →
  objects st !! r = Some s →
  (inited s = true →
   _init_strategy E name st
   = (Ok tt, with_trace (trace st ++ [log_of (LogAlreadyInited name)]) st))
  ∧ (inited s = false →
     ∃ st' s',
       _init_strategy E name st = (Ok tt, st')
       ∧ objects st' !! r = Some s'
       ∧ inited s' = true
       ∧ calls (trace st') = calls (trace st) ++ [(r, on_init)]
       ∧ filter (λ e, to_main_engine e = true) (trace st')
         = filter (λ e, to_main_engine e = true) (trace st)
           ++ match get_contract E (vt_symbol s) with
              | Some contract => [subscription contract]
              | None => []
              end
       ∧ (get_contract E (vt_symbol s) = None →
          strategy_log s (LogSubscribeNoContract (vt_symbol s)) ∈ trace st')).
Proof.
  intros Hs Ho. split.
  - intros Hi. unfold _init_strategy.
    unfold bind at 1. unfold strategies_getitem. rewrite Hs.
    unfold bind at 1. unfold deref at 1. rewrite Ho. cbv beta iota. by rewrite Hi.
  - intros Hi. destruct (init_strategy_spec E name r s st Hs Ho Hi)
      as (s1 & evs & Hrun & _ & Hevs).
    cbv zeta in Hrun. eexists _, _. split; [exact Hrun|]. simpl.
    assert (Hlt : (r < length (objects st))%nat) by (by eapply lookup_lt_Some).
    split; [by rewrite list_lookup_insert_eq|]. split; [done|]. split; [|split].
    + pose proof (calls_logs [] evs Hevs) as Hnone. simpl in Hnone.
      rewrite calls_app. unfold log_of. simpl. rewrite calls_app, Hnone. simpl.
      by destruct (get_contract E (vt_symbol s)).
    + pose proof (filter_main_engine_logs [] evs Hevs) as Hnone. simpl in Hnone.
      rewrite filter_app. unfold log_of. f_equal.
      rewrite !filter_cons_False by done. rewrite filter_app, Hnone. simpl.
      destruct (get_contract E (vt_symbol s)); simpl.
      * rewrite filter_cons_True by done. by rewrite !filter_cons_False by done.
      * unfold strategy_log. by rewrite !filter_cons_False by done.
    + intros Hc. rewrite Hc. apply elem_of_app. right. right. right.
      apply elem_of_app. right. left.
Qed.

Lemma demo_added_engine_strategy : strategies demo_added_engine !! "s1" = Some 0%nat.
Proof. vm_compute. reflexivity. Defined.

Lemma demo_added_engine_object :
  objects demo_added_engine !! 0%nat = Some demo_new_strategy.
Proof. vm_compute. reflexivity. Defined.

Lemma init_strategy_subscribes_witness :
  ∃ st' s',
    _init_strategy (demo_env false) "s1" demo_added_engine = (Ok tt, st')
    ∧ objects st' !! 0%nat = Some s'
    ∧ inited s' = true
    ∧ filter (λ e, to_main_engine e = true) (trace st')
      = filter (λ e, to_main_engine e = true) (trace demo_added_engine)
        ++ match get_contract (demo_env false) (vt_symbol demo_new_strategy) with
           | Some contract => [subscription contract]
           | None => []
           end.
Proof.
  destruct (proj2 (init_strategy_subscribes (demo_env false) "s1" 0 demo_new_strategy
                     demo_added_engine demo_added_engine_strategy
                     demo_added_engine_object) eq_refl)
    as (st' & s' & Hrun & Ho & Hi & _ & Hmain & _).
  exists st', s'. split; [exact Hrun|]. split; [exact Ho|]. split; [exact Hi | exact Hmain].
Defined.

(** X21: [_init_strategy] restores the saved variables after it has called
    [on_init]: every variable of the strategy that the saved data of its
    name has a value for holds that value once the strategy is
    initialized, whatever [on_init] left in it. *)
Theorem init_strategy_restores_variables (E : Env) (name : string) (r : nat)
    (s : Strategy) (data : gmap string Q) (st : CtaEngine) :
  strategies st !! name = Some r →
  objects st !! r = Some s →
  inited s = false →
  strategy_data st !! name = Some data →
  ∃ st' s',
    _init_strategy E name st = (Ok tt, st')
    ∧ objects st' !! r = Some s'
    ∧ ∀ variable value,
        variable ∈ variables s → data !! variable = Some value →
        getattr s' variable = value.
Proof.
  intros Hs Ho Hi Hdata. destruct (init_strategy_spec E name r s st Hs Ho Hi)
    as (s1 & evs & Hrun & _ & _).
  cbv zeta in Hrun. eexists _, _. split; [exact Hrun|]. simpl.
  assert (Hlt : (r < length (objects st))%nat) by (by eapply lookup_lt_Some).
  split; [by rewrite list_lookup_insert_eq|].
  intros variable value Hin Hv. rewrite Hdata. simpl.
  change (getattr (set_inited true (restore data (variables s) s1)) variable)
    with (getattr (restore data (variables s) s1) variable).
  apply getattr_restore; [done|by right].
Qed.

Lemma demo_saved_engine_strategy : strategies demo_saved_engine !! "s1" = Some 0%nat.
Proof. vm_compute. reflexivity. Defined.

Lemma demo_saved_engine_object :
  objects demo_saved_engine !! 0%nat = Some demo_new_strategy.
Proof. vm_compute. reflexivity. Defined.

Lemma demo_saved_engine_data :
  strategy_data demo_saved_engine !! "s1" = Some {[ "pos" := 5%Q ]}.
Proof. vm_compute. reflexivity. Defined.

Lemma demo_saved_data_pos : ({[ "pos" := 5%Q ]} : gmap string Q) !! "pos" = Some 5%Q.
Proof. vm_compute. reflexivity. Defined.

Lemma init_strategy_restores_variables_witness :
  ∃ st' s',
    _init_strategy (demo_env false) "s1" demo_saved_engine = (Ok tt, st')
    ∧ objects st' !! 0%nat = Some s'
    ∧ getattr s' "pos" = 5%Q.
Proof.
  destruct (init_strategy_restores_variables (demo_env false) "s1" 0 demo_new_strategy
              {[ "pos" := 5%Q ]} demo_saved_engine
              demo_saved_engine_strategy demo_saved_engine_object eq_refl
              demo_saved_engine_data)
    as (st' & s' & Hrun & Ho & Hall).
  exists st', s'. split; [exact Hrun|]. split; [exact Ho|].
  exact (Hall "pos" 5%Q ltac:(left) demo_saved_data_pos).
Defined.

(** * Loading the settings *)

Lemma load_strategy_setting_loop (E : Env) (settings : gmap string StrategyConfig)
    (file : list (string * StrategyConfig)) (st : CtaEngine) :
  NoDup file.*1 →
  strategy_setting st = settings →
  (∀ name config, (name, config) ∈ file →
     settings !! name = Some config
     ∧ strategies st !! name = None
     ∧ acceptable E (classes st) config) →
  ∃ st',
    for_each file (λ item,
      add_strategy E (cfg_class_name item.2) item.1 (cfg_vt_symbol item.2)
        (cfg_setting item.2)) st = (Ok tt, st')
    ∧ strategy_setting st' = settings
    ∧ classes st' = classes st
    ∧ (∀ r s, objects st !! r = Some s → objects st' !! r = Some s)
    ∧ (∀ name, name ∉ file.*1 → strategies st' !! name = strategies st !! name)
    ∧ (∀ name config, (name, config) ∈ file →
         ∃ r, strategies st' !! name = Some r
              ∧ objects st' !! r = strategy_of (classes st) name config).
Proof.
  revert st. induction file as [|[name config] file IH]; intros st Hnd Hset Hfile.
  - exists st. split; [done|]. split; [done|]. split; [done|]. split; [done|].
    split; [done|]. intros name config Hin. by apply elem_of_nil in Hin.
  - rewrite fmap_cons in Hnd. apply NoDup_cons in Hnd as [Hname Hnd]. simpl in Hname.
    destruct (Hfile name config ltac:(left)) as (Hcfg & Hnew & [cls Hcls] & p & suffix & Hsplit & Hex).
    cbn [for_each]. unfold bind at 1. cbv beta. cbn [fst snd].
    rewrite (add_strategy_done E _ name _ _ cls p suffix st Hnew Hcls Hsplit Hex).
    set (s := new_strategy cls (cfg_class_name config) name (cfg_vt_symbol config)
                (cfg_setting config)).
    assert (Hconfig : {| cfg_class_name := cfg_class_name config;
                         cfg_vt_symbol := cfg_vt_symbol config;
                         cfg_setting := cfg_setting config |} = config)
      by (by destruct config).
    rewrite Hconfig.
    set (st1 := strategy_added name (cfg_vt_symbol config) s config st).
    destruct (IH st1 Hnd) as (st' & Hloop & Hset' & Hcls' & Hobj' & Hstr' & Hall').
    { simpl. rewrite Hset. by apply insert_id. }
    { intros n c Hin. destruct (Hfile n c ltac:(by right)) as (H1 & H2 & H3).
      split; [done|]. split; [|done]. simpl. rewrite lookup_insert_ne; [done|].
      intros <-. apply Hname. apply list_elem_of_fmap. by exists (name, c). }
    exists st'. split; [done|]. split; [done|]. split; [done|].
    assert (Hlast : objects st1 !! length (objects st) = Some s).
    { simpl. by rewrite lookup_app_r, Nat.sub_diag. }
    split; [|split].
    + intros r s0 Ho. apply Hobj'. simpl. by apply lookup_app_l_Some.
    + intros n Hn. apply not_elem_of_cons in Hn as [Hne Hn].
      rewrite Hstr' by done. simpl. by rewrite lookup_insert_ne.
    + intros n c Hin. apply elem_of_cons in Hin as [Heq|Hin].
      * injection Heq as -> ->. exists (length (objects st)).
        rewrite Hstr' by done. simpl. rewrite lookup_insert_eq. split; [done|].
        rewrite (Hobj' _ _ Hlast). unfold strategy_of. by rewrite Hcls.
      * destruct (Hall' n c Hin) as (r & Hr & Ho). exists r. done.
Qed.

(** X22: [load_strategy_setting] on a file of configurations that
    [add_strategy] accepts, for names that are not in the collection:
    every entry of the file gives a strategy in the collection, made from
    its class, name, instrument and setting; the names outside the file
    are as before; and the settings the engine holds at the end are the
    file's. *)
Theorem load_strategy_setting_adds_each_strategy (E : Env)
    (file : list (string * StrategyConfig)) (st : CtaEngine) :
  NoDup file.*1 →
  (∀ name config, (name, config) ∈ file →
     strategies st !! name = None ∧ acceptable E (classes st) config) →
  ∃ st',
    load_strategy_setting E file st = (Ok tt, st')
    ∧ strategy_setting st' = list_to_map file
    ∧ (∀ name, name ∉ file.*1 → strategies st' !! name = strategies st !! name)
    ∧ (∀ name config, (name, config) ∈ file →
         ∃ r, strategies st' !! name = Some r
              ∧ objects st' !! r = strategy_of (classes st) name config).
Proof.
  intros Hnd Hfile. unfold load_strategy_setting. unfold bind at 1. cbn [modify fst snd].
  destruct (load_strategy_setting_loop E (list_to_map file) file
              (with_strategy_setting (list_to_map file) st) Hnd eq_refl)
    as (st' & Hloop & Hset & _ & _ & Hstr & Hall).
  { intros name config Hin. destruct (Hfile name config Hin) as [Hnew Hok].
    split; [|done]. by apply elem_of_list_to_map_1. }
  exists st'. done.
Qed.

Lemma load_strategy_setting_adds_each_strategy_witness :
  ∃ st',
    load_strategy_setting (demo_env false) [("s1", demo_config)]
      (new_engine demo_classes []) = (Ok tt, st')
    ∧ strategy_setting st' = list_to_map [("s1", demo_config)]
    ∧ ∃ r, strategies st' !! "s1" = Some r
           ∧ objects st' !! r
             = strategy_of (classes (new_engine demo_classes [])) "s1" demo_config.
Proof.
  destruct (load_strategy_setting_adds_each_strategy (demo_env false)
              [("s1", demo_config)] (new_engine demo_classes []))
    as (st' & Hrun & Hsetting & _ & Hall).
  - apply NoDup_singleton.
  - intros name config Hin. apply list_elem_of_singleton in Hin.
    injection Hin as -> ->. split; [apply lookup_empty|]. split.
    + exists {| cls_variables := ["pos"] |}. vm_compute. reflexivity.
    + exists "X", "E". split; [reflexivity|].
      apply (bool_decide_unpack _). vm_compute. reflexivity.
  - exists st'. split; [exact Hrun|]. split; [exact Hsetting|].
    apply Hall. left.
Defined.

(** * The registry of stop orders *)

(** X23: in every state an engine gets into from a new one (the gateway's
    ids being distinct and not starting with "STOP"), the registry holds
    each id once, a stop order is registered under its own id, which
    starts with "STOP" and is no key of the order-id-to-strategy map; no
    key of that map starts with "STOP", so [cancel_order] tells the two
    kinds of ids apart; and the id the next local stop order gets is not
    in the registry. *)
Theorem stop_order_ids_do_not_collide (classes : gmap string StrategyClass)
    (replies : list string) (steps : list (Env * Op)) :
  gateway_ok replies →
  let st := run steps (new_engine classes replies) in
  NoDup (stop_orders st).*1
  ∧ (∀ id so, dict_get id (stop_orders st) = Some so →
       stop_orderid so = id ∧ is_stop_id id = true
       ∧ orderid_strategy_map st !! id = None)
  ∧ (∀ id, is_Some (orderid_strategy_map st !! id) → is_stop_id id = false)
  ∧ dict_get (stop_id (S (stop_order_count st))) (stop_orders st) = None.
Proof.
  intros Hgw st.
  assert (HJ : engine_inv st) by (apply run_keeps; by apply new_engine_inv).
  destruct HJ as (_ & _ & J3 & J4 & J5 & _).
  split; [done|]. split; [|split; [done|]].
  - intros id so Hso. destruct (J4 id so Hso) as (Hid & k & -> & _).
    split; [done|]. split; [apply stop_id_is_stop_id|].
    destruct (orderid_strategy_map st !! stop_id k) as [r|] eqn:Hr; [|done].
    assert (Hno : is_stop_id (stop_id k) = false) by (apply J5; eauto).
    by rewrite stop_id_is_stop_id in Hno.
  - destruct (dict_get (stop_id (S (stop_order_count st))) (stop_orders st))
      as [so|] eqn:Hso; [|done].
    destruct (J4 _ _ Hso) as (_ & k & Hk & Hle). apply stop_id_inj in Hk. lia.
Qed.

Lemma stop_order_ids_do_not_collide_witness :
  NoDup (stop_orders (run demo_steps (new_engine demo_classes ["GW.1"; "GW.2"]))).*1
  ∧ dict_get (stop_id (S (stop_order_count
                            (run demo_steps (new_engine demo_classes ["GW.1"; "GW.2"])))))
      (stop_orders (run demo_steps (new_engine demo_classes ["GW.1"; "GW.2"]))) = None.
Proof.
  destruct (stop_order_ids_do_not_collide demo_classes ["GW.1"; "GW.2"] demo_steps
              demo_gateway_ok) as (Hnd & _ & _ & Hnext).
  split; [exact Hnd | exact Hnext].
Defined.

Lemma dict_set_Forall {V} (P : string * V → Prop) k v (d : list (string * V)) :
  P (k, v) → Forall P d → Forall P (dict_set k v d).
Proof.
  intros Hv. induction d as [|[k' v'] d IH]; intros Hd; simpl.
  - by constructor.
  - apply Forall_cons in Hd as [Hk' Hd]. case_decide; constructor; auto.
Qed.

Lemma dict_pop_Forall {V} (P : string * V → Prop) k (d : list (string * V)) :
  Forall P d → Forall P (dict_pop k d).
Proof.
  induction d as [|[k' v'] d IH]; intros Hd; simpl; [done|].
  apply Forall_cons in Hd as [Hk' Hd]. case_decide; [done|]. constructor; auto.
Qed.

Lemma stop_orders_set_waiting k a b c d e f g h i j :
  stable (carried registry_waiting)
    (modify (λ st, with_stop_orders
                     (dict_set k (mkStopOrder a b c d e f g h i j) (stop_orders st)) st)).
Proof.
  intros st. unfold carried, registry_waiting. intros HJ. simpl.
  by apply dict_set_Forall.
Qed.

Lemma stop_orders_pop_waiting k :
  stable (carried registry_waiting)
    (modify (λ st, with_stop_orders (dict_pop k (stop_orders st)) st)).
Proof.
  intros st. unfold carried, registry_waiting. intros HJ. simpl.
  by apply dict_pop_Forall.
Qed.

Create HintDb waiting.
#[local] Hint Resolve stop_orders_set_waiting stop_orders_pop_waiting : waiting.

Ltac waiting_prim :=
  let st := fresh "st" in
  let HJ := fresh "HJ" in
  intros st; unfold carried;
  cbv [emit deref update_object strategies_getitem symbol_strategy_map_getitem
       strategy_orderid_map_getitem strategy_orderid_map_store
       main_engine_send_order modify get ret raise];
  repeat case_match; intros HJ; exact HJ.

Ltac waiting_step :=
  lazymatch goal with
  | |- stable _ (bind _ _) => apply stable_bind; [apply _ | | intros ?]
  | |- stable _ (ret _) => apply stable_ret; apply _
  | |- stable _ (raise _) => apply stable_raise; apply _
  | |- stable _ get => apply stable_get; apply _
  | |- stable _ (for_each _ _) => apply stable_for_each; [apply _ | intros ?]
  | |- stable _ (match ?x with _ => _ end) => destruct x
  | |- stable _ (let _ := _ in _) => cbv zeta
  | |- stable _ _ => first [ solve [auto with waiting] | waiting_prim ]
  end.

Ltac keeps_waiting := repeat waiting_step.

Lemma call_strategy_func_waiting E r c :
  stable (carried registry_waiting) (call_strategy_func E r c).
Proof. unfold call_strategy_func, write_log. keeps_waiting. Qed.
#[local] Hint Resolve call_strategy_func_waiting : waiting.

Lemma send_requests_waiting r name gw reqs acc :
  stable (carried registry_waiting) (send_requests r name gw reqs acc).
Proof. revert acc. induction reqs as [|req reqs IH]; intros acc; simpl; keeps_waiting. Qed.
#[local] Hint Resolve send_requests_waiting : waiting.

Lemma cancel_order_waiting E r id :
  stable (carried registry_waiting) (cancel_order E r id).
Proof.
  unfold cancel_order, cancel_local_stop_order, cancel_server_order, write_log,
    put_stop_order_event.
  keeps_waiting.
Qed.
#[local] Hint Resolve cancel_order_waiting : waiting.

Lemma exec_waiting E op st : registry_waiting st → registry_waiting (exec E op st).
Proof.
  destruct op; simpl;
    match goal with
    | |- _ → registry_waiting (snd (?m st)) =>
        assert (Hm : stable (carried registry_waiting) m); [|apply Hm]
    end.
  - unfold process_tick_event, check_stop_order, check_one_stop_order, send_limit_order,
      send_server_order, put_stop_order_event.
    keeps_waiting.
  - unfold process_order_event. keeps_waiting.
  - unfold process_trade_event, sync_strategy_data, put_strategy_event. keeps_waiting.
  - unfold send_order, send_server_stop_order, send_limit_order, send_server_order,
      send_local_stop_order, write_log, put_stop_order_event.
    keeps_waiting.
  - keeps_waiting.
  - unfold cancel_all. keeps_waiting.
  - unfold add_strategy, update_strategy_setting, write_log, put_strategy_event.
    keeps_waiting.
  - unfold _init_strategy, write_log, put_strategy_event. keeps_waiting.
  - unfold start_strategy, write_log, put_strategy_event. keeps_waiting.
  - unfold stop_strategy, cancel_all, sync_strategy_data, put_strategy_event.
    keeps_waiting.
  - unfold edit_strategy, update_strategy_setting, put_strategy_event. keeps_waiting.
  - unfold remove_strategy, remove_strategy_setting, write_log. keeps_waiting.
Qed.

(** X24: in every state an engine gets into from a new one, a stop order
    that is in the registry is waiting and has no order ids: a stop order
    is taken out of the registry before it is marked triggered or
    cancelled. *)
Theorem registered_stop_orders_are_waiting (classes : gmap string StrategyClass)
    (replies : list string) (steps : list (Env * Op)) :
  ∀ id so,
    dict_get id (stop_orders (run steps (new_engine classes replies))) = Some so →
    so_status so = StopOrderStatus.WAITING ∧ so_vt_orderids so = [].
Proof.
  assert (HJ : registry_waiting (run steps (new_engine classes replies))).
  { generalize (new_engine classes replies) (Forall_nil_2 _ : registry_waiting
                                                (new_engine classes replies)).
    induction steps as [|[E op] steps IH]; intros st Hst; simpl; [done|].
    apply IH. by apply exec_waiting. }
  intros id so Hso. unfold registry_waiting in HJ. rewrite Forall_forall in HJ.
  revert Hso. generalize (stop_orders (run steps (new_engine classes replies))) HJ.
  intros d Hd. induction d as [|[k v] d IH]; simpl; [done|].
  case_decide.
  - intros [= <-]. apply (Hd (k, v)). left.
  - apply IH. intros x Hx. apply Hd. by right.
Qed.

Lemma demo_steps_registry :
  dict_get "STOP.1" (stop_orders (run demo_steps (new_engine demo_classes ["GW.1"; "GW.2"])))
  = Some demo_stop_order.
Proof. vm_compute. reflexivity. Defined.

Lemma registered_stop_orders_are_waiting_witness :
  so_status demo_stop_order = StopOrderStatus.WAITING ∧ so_vt_orderids demo_stop_order = [].
Proof.
  exact (registered_stop_orders_are_waiting demo_classes ["GW.1"; "GW.2"] demo_steps
           "STOP.1" demo_stop_order demo_steps_registry).
Defined.

(** * The seen trade ids over a run *)

Lemma exec_tradeids E op st :
  vt_tradeids (exec E op st)
  = vt_tradeids st ∪ match op with
                     | OpTrade trade => {[vt_tradeid trade]}
                     | _ => ∅
                     end.
Proof.
  destruct op; simpl;
    try (apply process_trade_event_tradeids);
    match goal with
    | |- vt_tradeids (snd (?m st)) = _ =>
        assert (Hp : preserves vt_tradeids m)
          by eauto using process_tick_event_tradeids, process_order_event_tradeids,
               send_order_tradeids, cancel_order_tradeids, cancel_all_tradeids,
               add_strategy_tradeids, init_strategy_tradeids, start_strategy_tradeids,
               stop_strategy_tradeids, edit_strategy_tradeids, remove_strategy_tradeids;
        rewrite (Hp st); set_solver
    end.
Qed.

(** X25: over any sequence of operations, the set of seen trade ids grows
    by the ids of the trade events among them and by nothing else: no
    operation takes an id out, and only [process_trade_event] puts one
    in. *)
Theorem seen_trade_ids_after_a_run (steps : list (Env * Op)) (st : CtaEngine) :
  vt_tradeids (run steps st) = vt_tradeids st ∪ trade_ids steps.
Proof.
  revert st. induction steps as [|[E op] steps IH]; intros st.
  - unfold trade_ids. simpl. set_solver.
  - change (run ((E, op) :: steps) st) with (run steps (exec E op st)).
    rewrite IH, exec_tradeids. unfold trade_ids. simpl.
    destruct op; simpl; set_solver.
Qed.

(** * A strategy added and removed again *)

Lemma list_remove_last r l : r ∉ l → list_remove r (l ++ [r]) = Some l.
Proof.
  induction l as [|y l IH]; intros Hr; simpl.
  - by rewrite decide_True.
  - apply not_elem_of_cons in Hr as [Hne Hr]. rewrite decide_False by done.
    by rewrite IH.
Qed.

(** X26: in a state an engine gets into from a new one, a strategy that
    is added and removed again leaves the collection as it was, every
    instrument with the subscribers it had, and the registry as it was;
    the settings and the active-id map are as before, without an entry
    for the name. *)
Theorem add_then_remove_strategy (E : Env) (loaded : gmap string StrategyClass)
    (replies : list string) (steps : list (Env * Op)) (cname name symbol : string)
    (setting : gmap string Q) :
  let st := run steps (new_engine loaded replies) in
  strategies st !! name = None →
  acceptable E (classes st)
    {| cfg_class_name := cname; cfg_vt_symbol := symbol; cfg_setting := setting |} →
  ∃ st1 st2,
    add_strategy E cname name symbol setting st = (Ok tt, st1)
    ∧ remove_strategy name st1 = (Ok true, st2)
    ∧ strategies st2 = strategies st
    ∧ (∀ symbol', default [] (symbol_strategy_map st2 !! symbol')
                  = default [] (symbol_strategy_map st !! symbol'))
    ∧ strategy_setting st2 = delete name (strategy_setting st)
    ∧ strategy_orderid_map st2 = delete name (strategy_orderid_map st)
    ∧ stop_orders st2 = stop_orders st.
Proof.
  intros st Hnew ([cls Hcls] & prefix & suffix & Hsplit & Hex). simpl in Hcls, Hsplit.
  assert (HJ : subscriptions_ok st) by apply run_subs, new_engine_subs.
  set (r := length (objects st)).
  set (l := default [] (symbol_strategy_map st !! symbol)).
  assert (Hfresh : r ∉ l).
  { unfold l. intros Hin.
    destruct (symbol_strategy_map st !! symbol) as [l0|] eqn:Hl0;
      [|by apply elem_of_nil in Hin].
    destruct (proj2 HJ _ _ Hl0) as [_ Hall].
    destruct (Hall r Hin) as (s0 & Ho & _). apply lookup_lt_Some in Ho. unfold r in Ho. lia. }
  set (s := new_strategy cls cname name symbol setting).
  rewrite (add_strategy_done E cname name symbol setting cls prefix suffix st
             Hnew Hcls Hsplit Hex).
  fold s.
  set (st1 := strategy_added name symbol s
                {| cfg_class_name := cname; cfg_vt_symbol := symbol;
                   cfg_setting := setting |} st).
  destruct (remove_strategy_done name r s (l ++ [r]) l st1)
    as (st2 & Hrun & Hstr & Hssm & Hcfg & _ & Hreg & Hsom).
  { simpl. by rewrite lookup_insert_eq. }
  { simpl. unfold r. by rewrite lookup_app_r, Nat.sub_diag. }
  { done. }
  { simpl. by rewrite lookup_insert_eq. }
  { by apply list_remove_last. }
  exists st1, st2. split; [done|]. split; [done|].
  split; [rewrite Hstr; simpl; by apply delete_insert_id|].
  split; [|split; [rewrite Hcfg; simpl; by apply delete_insert_eq|done]].
  intros symbol'. rewrite Hssm. simpl.
  destruct (decide (symbol' = symbol)) as [->|Hne].
  - by rewrite lookup_insert_eq.
  - by rewrite !lookup_insert_ne.
Qed.

Lemma demo_second_strategy_is_new :
  strategies (run demo_start_steps (new_engine demo_classes ["GW.1"; "GW.2"])) !! "s2" = None.
Proof. vm_compute. reflexivity. Defined.

Lemma demo_second_config_acceptable :
  acceptable (demo_env false)
    (classes (run demo_start_steps (new_engine demo_classes ["GW.1"; "GW.2"])))
    {| cfg_class_name := "StratA"; cfg_vt_symbol := "Y.SSE"; cfg_setting := ∅ |}.
Proof.
  split.
  - exists {| cls_variables := ["pos"] |}. vm_compute. reflexivity.
  - exists "Y", "SSE". split; [reflexivity|].
    apply (bool_decide_unpack _). vm_compute. reflexivity.
Defined.

Lemma add_then_remove_strategy_witness :
  ∃ st1 st2,
    add_strategy (demo_env false) "StratA" "s2" "Y.SSE" ∅
      (run demo_start_steps (new_engine demo_classes ["GW.1"; "GW.2"])) = (Ok tt, st1)
    ∧ remove_strategy "s2" st1 = (Ok true, st2)
    ∧ strategies st2
      = strategies (run demo_start_steps (new_engine demo_classes ["GW.1"; "GW.2"])).
Proof.
  destruct (add_then_remove_strategy (demo_env false) demo_classes ["GW.1"; "GW.2"]
              demo_start_steps "StratA" "s2" "Y.SSE" ∅
              demo_second_strategy_is_new demo_second_config_acceptable)
    as (st1 & st2 & Hadd & Hremove & Hstr & _).
  exists st1, st2. split; [exact Hadd|]. split; [exact Hremove | exact Hstr].
Defined.

(** * Operations on a name that is not in the collection *)

(** X27: [_init_strategy], [start_strategy], [stop_strategy],
    [edit_strategy] and [remove_strategy] for a name that is not in the
    collection raise KeyError and leave the engine as it was; none of
    them writes a log. *)
Theorem unknown_strategy_name_raises (E : Env) (name : string) (setting : gmap string Q)
    (st : CtaEngine) :
  strategies st !! name = None →
  _init_strategy E name st = (Raise KeyError, st)
  ∧ start_strategy E name st = (Raise KeyError, st)
  ∧ stop_strategy E name st = (Raise KeyError, st)
  ∧ edit_strategy name setting st = (Raise KeyError, st)
  ∧ remove_strategy name st = (Raise KeyError, st).
Proof.
  intros Hnone.
  unfold _init_strategy, start_strategy, stop_strategy, edit_strategy, remove_strategy.
  unfold bind, strategies_getitem. by rewrite Hnone.
Qed.

Lemma unknown_strategy_name_raises_witness :
  start_strategy (demo_env false) "s1" (new_engine demo_classes [])
  = (Raise KeyError, new_engine demo_classes []).
Proof.
  exact (proj1 (proj2 (unknown_strategy_name_raises (demo_env false) "s1" ∅
                         (new_engine demo_classes []) (lookup_empty _)))).
Defined.

(** * Saved variables *)

Lemma get_variables_lookup (s : Strategy) (name : string) :
  name ∈ variables s → get_variables s !! name = Some (getattr s name).
Proof.
  unfold get_variables. induction (variables s) as [|name0 names IH]; intros Hin.
  - by apply elem_of_nil in Hin.
  - rewrite fmap_cons. cbn [list_to_map foldr]. simpl.
    destruct (decide (name0 = name)) as [->|Hne].
    + by rewrite lookup_insert_eq.
    + rewrite lookup_insert_ne by done. apply IH.
      apply elem_of_cons in Hin as [?|?]; [congruence|done].
Qed.

(** X28: what [sync_strategy_data] saves for a strategy comes back: when
    the saved data is loaded with [load_strategy_data] by an engine that
    holds a strategy of the same name and variables, not initialized yet,
    [_init_strategy] leaves every variable of that strategy with the value
    the saved strategy had. *)
Theorem saved_variables_are_restored (E : Env) (r : nat) (s : Strategy) (st : CtaEngine)
    (r' : nat) (s' : Strategy) (st' : CtaEngine) :
  objects st !! r = Some s →
  strategies st' !! strategy_name s = Some r' →
  objects st' !! r' = Some s' →
  inited s' = false →
  variables s' = variables s →
  ∃ saved st1 st2 s2,
    sync_strategy_data r st = (Ok tt, st1)
    ∧ last (trace st1) = Some (SaveData saved)
    ∧ (load_strategy_data saved ;; _init_strategy E (strategy_name s)) st' = (Ok tt, st2)
    ∧ objects st2 !! r' = Some s2
    ∧ ∀ variable, variable ∈ variables s → getattr s2 variable = getattr s variable.
Proof.
  intros Ho Hs' Ho' Hi' Hvars.
  set (saved := <[strategy_name s := get_variables s]> (strategy_data st)).
  assert (Hsync : sync_strategy_data r st
                  = (Ok tt, with_trace (trace st ++ [SaveData saved])
                              (with_strategy_data saved st))).
  { unfold sync_strategy_data. unfold bind at 1. unfold deref. by rewrite Ho. }
  set (st0 := with_strategy_data saved st').
  destruct (init_strategy_spec E (strategy_name s) r' s' st0 Hs' Ho' Hi')
    as (s1 & evs & Hrun & _ & _).
  cbv zeta in Hrun.
  eexists saved, _, _, _. split; [exact Hsync|]. split; [apply last_snoc|].
  split; [unfold bind, load_strategy_data, modify; exact Hrun|].
  assert (Hlt : (r' < length (objects st'))%nat) by (by eapply lookup_lt_Some).
  simpl. split; [by rewrite list_lookup_insert_eq|].
  intros variable Hin. unfold saved. rewrite lookup_insert_eq. simpl.
  change (getattr (set_inited true (restore (get_variables s) (variables s') s1)) variable)
    with (getattr (restore (get_variables s) (variables s') s1) variable).
  apply getattr_restore; [by apply get_variables_lookup|]. right. by rewrite Hvars.
Qed.

Lemma saved_variables_are_restored_witness :
  ∃ saved st1 st2 s2,
    sync_strategy_data 0 demo_engine = (Ok tt, st1)
    ∧ last (trace st1) = Some (SaveData saved)
    ∧ (load_strategy_data saved ;; _init_strategy (demo_env false) (strategy_name demo_strategy))
        demo_added_engine = (Ok tt, st2)
    ∧ objects st2 !! 0%nat = Some s2
    ∧ getattr s2 "pos" = getattr demo_strategy "pos".
Proof.
  destruct (saved_variables_are_restored (demo_env false) 0 demo_strategy demo_engine
              0 demo_new_strategy demo_added_engine
              demo_engine_object demo_added_engine_strategy demo_added_engine_object
              eq_refl eq_refl)
    as (saved & st1 & st2 & s2 & Hsync & Hlast & Hinit & Ho & Hall).
  exists saved, st1, st2, s2. split; [exact Hsync|]. split; [exact Hlast|].
  split; [exact Hinit|]. split; [exact Ho|]. apply Hall. left.
Defined.
